(** * The diagnose route: fence stripping, brace extraction, schema validation
      and the generate / validate / repair loop.

    Shallow embedding of [app/src/app/api/diagnose/route.ts] and
    [app/src/lib/diagnosticSchema.ts].

    - JavaScript strings are sequences of UTF-16 code units.
    - Values produced by [JSON.parse] are the inductive type [json];
      [undefined] is the [None] of [option json].
    - The zod schemas are values of the type [ZodType], interpreted by
      [_parse], which follows zod's classic parser for the combinators the
      two schemas use.
    - The handler runs in a state-and-exception monad whose state holds the
      text-generation provider and the trace of the calls made to it. *)

From Stdlib Require Import String Ascii DecimalString.
From Stdlib Require Import List ZArith NArith Lia Bool.
From Stdlib Require QArith.
Import ListNotations.

Set Implicit Arguments.
Set Warnings "-register-all".

(* ------------------------------------------------------------------ *)
(** ** JavaScript strings *)

Module JsString.

Abbreviation code_unit := N (only parsing).
Abbreviation jsstring := (list N) (only parsing).

(** An ASCII literal of the source, as code units. *)
Definition lit (s : String.string) : jsstring :=
  map Ascii.N_of_ascii (String.list_ascii_of_string s).
Arguments lit s%_string.

Fixpoint eqb (a b : jsstring) : bool :=
  match a, b with
  | [], [] => true
  | x :: a', y :: b' => N.eqb x y && eqb a' b'
  | _, _ => false
  end.

Fixpoint starts_with (pat s : jsstring) : bool :=
  match pat, s with
  | [], _ => true
  | p :: pat', c :: s' => N.eqb c p && starts_with pat' s'
  | _ :: _, [] => false
  end.

(** [s.includes(pat)] *)
Fixpoint includes (pat s : jsstring) : bool :=
  starts_with pat s ||
  match s with
  | [] => false
  | _ :: s' => includes pat s'
  end.

Local Open Scope Z_scope.

Fixpoint indexOf_from (pat s : jsstring) (i : Z) : Z :=
  if starts_with pat s then i
  else match s with
       | [] => -1
       | _ :: s' => indexOf_from pat s' (i + 1)
       end.

(** [s.indexOf(pat)]: the first position at which [pat] occurs, or -1. *)
Definition indexOf (s pat : jsstring) : Z := indexOf_from pat s 0.

Fixpoint lastIndexOf_from (pat s : jsstring) (i found : Z) : Z :=
  let found' := if starts_with pat s then i else found in
  match s with
  | [] => found'
  | _ :: s' => lastIndexOf_from pat s' (i + 1) found'
  end.

(** [s.lastIndexOf(pat)]: the last position at which [pat] occurs, or -1. *)
Definition lastIndexOf (s pat : jsstring) : Z := lastIndexOf_from pat s 0 (-1).

(** [s.slice(start, end)], with the relative-index rules of the language. *)
Definition slice (s : jsstring) (start end_ : Z) : jsstring :=
  let len := Z.of_nat (length s) in
  let from := if start <? 0 then Z.max (len + start) 0 else Z.min start len in
  let to := if end_ <? 0 then Z.max (len + end_) 0 else Z.min end_ len in
  firstn (Z.to_nat (to - from)) (skipn (Z.to_nat from) s).

Local Close Scope Z_scope.
Local Open Scope N_scope.

(** White space and line terminators: the class [\s] of regular expressions,
    which is also what [trim] removes. *)
Definition is_ws (c : code_unit) : bool :=
  (9 <=? c) && (c <=? 13)
  || (c =? 32) || (c =? 160) || (c =? 5760)
  || (8192 <=? c) && (c <=? 8202)
  || (c =? 8232) || (c =? 8233) || (c =? 8239) || (c =? 8287)
  || (c =? 12288) || (c =? 65279).

(** Case folding of the [i] flag, exact for comparison with ASCII pattern
    characters: a code unit above 127 never folds to one below 128. *)
Definition canon (c : code_unit) : code_unit :=
  if (97 <=? c) && (c <=? 122) then c - 32 else c.

Local Close Scope N_scope.

Fixpoint dropWhile (p : code_unit -> bool) (s : jsstring) : jsstring :=
  match s with
  | [] => []
  | c :: s' => if p c then dropWhile p s' else s
  end.

Fixpoint takeWhile (p : code_unit -> bool) (s : jsstring) : jsstring :=
  match s with
  | [] => []
  | c :: s' => if p c then c :: takeWhile p s' else []
  end.

Definition trimStart (s : jsstring) : jsstring := dropWhile is_ws s.
Definition trimEnd (s : jsstring) : jsstring := rev (dropWhile is_ws (rev s)).

(** [s.trim()] *)
Definition trim (s : jsstring) : jsstring := trimEnd (trimStart s).

(** Matching an ASCII pattern at the head of [s] under the [i] flag; the
    result is what follows the match. *)
Fixpoint match_ci (pat s : jsstring) : option jsstring :=
  match pat, s with
  | [], _ => Some s
  | p :: pat', c :: s' =>
      if N.eqb (canon c) (canon p) then match_ci pat' s' else None
  | _ :: _, [] => None
  end.

(** [s.replace(re, "")] for a global regular expression [re], given as the
    function [m] that tells the length of the match of [re] at the head of a
    string.  The scan goes left to right; a match is deleted and the scan
    resumes after it ([skip] counts the code units of the current match that
    are still to be dropped). *)
Fixpoint remove_matches_go (m : jsstring -> option nat) (skip : nat)
         (s : jsstring) : jsstring :=
  match s with
  | [] => []
  | c :: s' =>
      match skip with
      | S k => remove_matches_go m k s'
      | O =>
          match m s with
          | Some (S k) => remove_matches_go m k s'
          | Some O => c :: remove_matches_go m 0 s'
          | None => c :: remove_matches_go m 0 s'
          end
      end
  end.

Definition remove_matches (m : jsstring -> option nat) (s : jsstring) : jsstring :=
  remove_matches_go m 0 s.

(** [arr.join(sep)] on an array of strings. *)
Fixpoint join (sep : jsstring) (parts : list jsstring) : jsstring :=
  match parts with
  | [] => []
  | [p] => p
  | p :: rest => p ++ sep ++ join sep rest
  end.

End JsString.

Import JsString.

(* ------------------------------------------------------------------ *)
(** ** route.ts: the two text helpers *)

(** The regular expression [/```json\s*/gi] at the head of a string. *)
Definition re_fence_json (s : jsstring) : option nat :=
  match match_ci (lit "```json") s with
  | Some rest => Some (7 + length (takeWhile is_ws rest))
  | None => None
  end.

(** The regular expression [/```/g] at the head of a string. *)
Definition re_fence (s : jsstring) : option nat :=
  if starts_with (lit "```") s then Some 3 else None.

(** Removes [```json ... ```] fences (and trims). *)
Definition stripJsonFences (s : jsstring) : jsstring :=
  trim (remove_matches re_fence (remove_matches re_fence_json s)).

(** Tries to grab the first [{...}] block from a messy response. *)
Definition extractFirstJsonObject (s : jsstring) : option jsstring :=
  let start := indexOf s (lit "{") in
  let end_ := lastIndexOf s (lit "}") in
  if ((start =? -1) || (end_ =? -1) || (end_ <=? start))%Z then None
  else Some (slice s start (end_ + 1)).

(* ------------------------------------------------------------------ *)
(** ** JSON values *)

(** A value as [JSON.parse] produces it.  A number is kept as its decimal
    text; neither schema of this program accepts a number anywhere.  An
    object is the list of its properties in insertion order. *)
Inductive json : Type :=
| JNull
| JBool (b : bool)
| JNum (text : jsstring)
| JStr (s : jsstring)
| JArr (items : list json)
| JObj (props : list (jsstring * json)).

(** [obj[key]] on the own properties of an object; [None] is [undefined]. *)
Fixpoint lookup (key : jsstring) (props : list (jsstring * json)) : option json :=
  match props with
  | [] => None
  | (k, v) :: rest => if eqb k key then Some v else lookup key rest
  end.

(** [v[key]] on any value: a primitive has no such property. *)
Definition get (key : jsstring) (v : json) : option json :=
  match v with
  | JObj props => lookup key props
  | _ => None
  end.

(** An object literal [{ k1: e1, ..., kn: en }] as it is serialised: a
    property whose value is [undefined] is left out. *)
Fixpoint object_literal (fields : list (jsstring * option json)) : list (jsstring * json) :=
  match fields with
  | [] => []
  | (k, Some v) :: rest => (k, v) :: object_literal rest
  | (_, None) :: rest => object_literal rest
  end.

(* ------------------------------------------------------------------ *)
(** ** zod *)

Module Zod.

Inductive ZodParsedType : Type :=
| zpt_string | zpt_number | zpt_boolean | zpt_null | zpt_undefined
| zpt_array | zpt_object.

Definition getParsedType (data : option json) : ZodParsedType :=
  match data with
  | None => zpt_undefined
  | Some JNull => zpt_null
  | Some (JBool _) => zpt_boolean
  | Some (JNum _) => zpt_number
  | Some (JStr _) => zpt_string
  | Some (JArr _) => zpt_array
  | Some (JObj _) => zpt_object
  end.

(** The schema combinators the two schemas are built from. *)
Inductive ZodType : Type :=
| ZodString
| ZodBoolean
| ZodEnum (values : list jsstring)
| ZodArray (element : ZodType)
| ZodObject (shape : list (jsstring * ZodType))
| ZodNullable (inner : ZodType)
| ZodOptional (inner : ZodType)
| ZodDefault (inner : ZodType) (defaultValue : json).

Inductive PathSeg : Type :=
| Key (k : jsstring)
| Index (i : nat).

Inductive Expected : Type :=
| exp_type (t : ZodParsedType)
| exp_values (values : list jsstring).

Inductive ZodIssueCode : Type :=
| invalid_type (expected : Expected) (received : ZodParsedType)
| invalid_enum_value (options : list jsstring) (received : jsstring).

Record ZodIssue : Type := mkIssue {
  code : ZodIssueCode;
  path : list PathSeg;
  message : jsstring
}.

(** The result of a parser: [INVALID] (aborted) or a value, which may be
    [undefined]. *)
Inductive ParseReturn : Type :=
| INVALID
| OK (value : option json).

Inductive SafeParseReturn : Type :=
| SafeParseSuccess (data : option json)
| SafeParseError (error : list ZodIssue).

(** Induction on a schema, with the hypothesis for every field of an
    object. *)
Section Induction.

Variable P : ZodType -> Prop.
Hypothesis HString : P ZodString.
Hypothesis HBoolean : P ZodBoolean.
Hypothesis HEnum : forall values, P (ZodEnum values).
Hypothesis HArray : forall element, P element -> P (ZodArray element).
Hypothesis HObject :
  forall shape, Forall (fun kt => P (snd kt)) shape -> P (ZodObject shape).
Hypothesis HNullable : forall inner, P inner -> P (ZodNullable inner).
Hypothesis HOptional : forall inner, P inner -> P (ZodOptional inner).
Hypothesis HDefault : forall inner d, P inner -> P (ZodDefault inner d).

Fixpoint ZodType_nested_ind (t : ZodType) : P t :=
  match t with
  | ZodString => HString
  | ZodBoolean => HBoolean
  | ZodEnum values => HEnum values
  | ZodArray element => HArray (ZodType_nested_ind element)
  | ZodObject shape =>
      HObject
        ((fix each (shape : list (jsstring * ZodType))
            : Forall (fun kt => P (snd kt)) shape :=
            match shape with
            | [] => Forall_nil _
            | kt :: rest =>
                Forall_cons kt
                  (match kt as p return P (snd p) with
                   | (_, t') => ZodType_nested_ind t'
                   end)
                  (each rest)
            end) shape)
  | ZodNullable inner => HNullable (ZodType_nested_ind inner)
  | ZodOptional inner => HOptional (ZodType_nested_ind inner)
  | ZodDefault inner d => HDefault d (ZodType_nested_ind inner)
  end.

End Induction.

Section Parser.

(** The error map turns the data of an issue into its message. *)
Variable errorMap : ZodIssueCode -> jsstring.

Definition addIssue (path : list PathSeg) (c : ZodIssueCode) : list ZodIssue :=
  [ {| code := c; path := path; message := errorMap c |} ].

(** [ParseStatus.mergeArray]: aborted as soon as one element is; the issues
    of all elements are kept, in order.  An element is never [undefined] in
    a value that comes from JSON text; it would be serialised as [null]. *)
Fixpoint mergeArray (results : list (ParseReturn * list ZodIssue))
  : option (list json) * list ZodIssue :=
  match results with
  | [] => (Some [], [])
  | (r, iss) :: rest =>
      let (vs, iss') := mergeArray rest in
      (match r, vs with
       | OK (Some v), Some vs' => Some (v :: vs')
       | OK None, Some vs' => Some (JNull :: vs')
       | _, _ => None
       end, iss ++ iss')
  end.

(** [ParseStatus.mergeObjectSync]: aborted as soon as one value is; a key is
    set in the result when its value is not [undefined]. *)
Fixpoint mergeObjectSync (pairs : list (jsstring * (ParseReturn * list ZodIssue)))
  : option (list (jsstring * json)) * list ZodIssue :=
  match pairs with
  | [] => (Some [], [])
  | (key, (r, iss)) :: rest =>
      let (props, iss') := mergeObjectSync rest in
      (match r, props with
       | OK (Some v), Some props' =>
           if eqb key (lit "__proto__") then Some props' else Some ((key, v) :: props')
       | OK None, Some props' => Some props'
       | _, _ => None
       end, iss ++ iss')
  end.

(** The elements of an array with their positions, from [i] on. *)
Fixpoint indexed (i : nat) (items : list json) : list (nat * json) :=
  match items with
  | [] => []
  | item :: rest => (i, item) :: indexed (S i) rest
  end.

(** [schema._parse(input)] with the path of the input; the issues found are
    returned next to the result, in the order they are added. *)
Fixpoint _parse (t : ZodType) (path : list PathSeg) (data : option json)
  : ParseReturn * list ZodIssue :=
  match t with
  | ZodString =>
      match data with
      | Some (JStr _) => (OK data, [])
      | _ => (INVALID,
              addIssue path (invalid_type (exp_type zpt_string) (getParsedType data)))
      end
  | ZodBoolean =>
      match data with
      | Some (JBool _) => (OK data, [])
      | _ => (INVALID,
              addIssue path (invalid_type (exp_type zpt_boolean) (getParsedType data)))
      end
  | ZodEnum values =>
      match data with
      | Some (JStr s) =>
          if existsb (eqb s) values then (OK data, [])
          else (INVALID, addIssue path (invalid_enum_value values s))
      | _ => (INVALID,
              addIssue path (invalid_type (exp_values values) (getParsedType data)))
      end
  | ZodArray element =>
      match data with
      | Some (JArr items) =>
          let results :=
            map (fun '(i, item) => _parse element (path ++ [Index i]) (Some item))
                (indexed 0 items) in
          match mergeArray results with
          | (Some vs, iss) => (OK (Some (JArr vs)), iss)
          | (None, iss) => (INVALID, iss)
          end
      | _ => (INVALID,
              addIssue path (invalid_type (exp_type zpt_array) (getParsedType data)))
      end
  | ZodObject shape =>
      match data with
      | Some (JObj props) =>
          let pairs :=
            map (fun '(key, keyValidator) =>
                   (key, _parse keyValidator (path ++ [Key key]) (lookup key props)))
                shape in
          match mergeObjectSync pairs with
          | (Some out, iss) => (OK (Some (JObj out)), iss)
          | (None, iss) => (INVALID, iss)
          end
      | _ => (INVALID,
              addIssue path (invalid_type (exp_type zpt_object) (getParsedType data)))
      end
  | ZodNullable inner =>
      match data with
      | Some JNull => (OK (Some JNull), [])
      | _ => _parse inner path data
      end
  | ZodOptional inner =>
      match data with
      | None => (OK None, [])
      | _ => _parse inner path data
      end
  | ZodDefault inner defaultValue =>
      _parse inner path (match data with None => Some defaultValue | _ => data end)
  end.

(** [schema.safeParse(data)] *)
Definition safeParse (t : ZodType) (data : json) : SafeParseReturn :=
  match _parse t [] (Some data) with
  | (OK v, _) => SafeParseSuccess v
  | (INVALID, issues) => SafeParseError issues
  end.

End Parser.

End Zod.

Import Zod.

(* ------------------------------------------------------------------ *)
(** ** diagnosticSchema.ts *)

Definition BilingualText : ZodType :=
  ZodObject [ (lit "en", ZodString); (lit "es", ZodString) ].

Definition BilingualTextArray : ZodType :=
  ZodObject [ (lit "en", ZodArray ZodString); (lit "es", ZodArray ZodString) ].

Definition DiagnosticInputSchema : ZodType :=
  ZodObject
    [ (lit "make", ZodString);
      (lit "model", ZodString);
      (lit "year", ZodString);
      (lit "engine", ZodString);
      (lit "dtcs", ZodArray ZodString);
      (lit "symptom", ZodString);
      (lit "notes", ZodDefault (ZodOptional ZodString) (JStr (lit "")));
      (lit "language", ZodDefault (ZodEnum [lit "en"; lit "es"]) (JStr (lit "en")));
      (lit "sessionId", ZodDefault (ZodOptional ZodString) (JStr (lit "")));
      (lit "vin", ZodDefault (ZodOptional ZodString) (JStr (lit "")));
      (lit "mileage", ZodDefault (ZodOptional ZodString) (JStr (lit ""))) ].

Definition DiagnosticPlanSchema : ZodType :=
  ZodObject
    [ (lit "version", ZodString);
      (lit "language", ZodEnum [lit "en"; lit "es"]);
      (lit "vehicle",
        ZodObject
          [ (lit "make", ZodString);
            (lit "model", ZodString);
            (lit "year", ZodString);
            (lit "engine", ZodString);
            (lit "vin", ZodString);
            (lit "mileage", ZodString) ]);
      (lit "concern",
        ZodObject
          [ (lit "dtcs", ZodArray ZodString);
            (lit "symptom", ZodString);
            (lit "notes", ZodString) ]);
      (lit "overview", BilingualText);
      (lit "disclaimers", BilingualText);
      (lit "safetyNotes", BilingualTextArray);
      (lit "specs",
        ZodObject
          [ (lit "labeledAsEstimated", ZodBoolean);
            (lit "items",
              ZodArray
                (ZodObject
                   [ (lit "name", BilingualText);
                     (lit "expectedRange", ZodString);
                     (lit "unit", ZodString);
                     (lit "note", BilingualText);
                     (lit "estimated", ZodBoolean) ])) ]);
      (lit "steps",
        ZodArray
          (ZodObject
             [ (lit "id", ZodString);
               (lit "title", BilingualText);
               (lit "purpose", BilingualText);
               (lit "procedure", BilingualTextArray);
               (lit "connectorHints",
                 ZodArray
                   (ZodObject
                      [ (lit "label", BilingualText);
                        (lit "test", BilingualText);
                        (lit "expectedRange", ZodString);
                        (lit "estimated", ZodBoolean);
                        (lit "notes", BilingualText) ]));
               (lit "passCriteria", BilingualTextArray);
               (lit "failCriteria", BilingualTextArray);
               (lit "nextOnPass", ZodNullable ZodString);
               (lit "nextOnFail", ZodNullable ZodString) ]));
      (lit "firstStepId", ZodString);
      (lit "sessionId", ZodString) ].
(* ------------------------------------------------------------------ *)
(** ** route.ts: the handler *)

Definition nl : jsstring := [10%N].

(** A piece of text between double quotes. *)
Definition q (s : string) : jsstring := [34%N] ++ lit s ++ [34%N].
Arguments q s%_string.

(** The fixed lines of the prompt template, from its first line to
    [Here is the case input:]. *)
Definition prompt_lines : list jsstring :=
  [ lit "You are generating a structured automotive diagnostic plan.";
    [];
    lit "Return ONLY valid JSON. No markdown. No backticks. No commentary.";
    lit "The JSON MUST match this structure and include ALL required keys:";
    [];
    lit "{";
    lit "  " ++ q "version" ++ lit ": " ++ q "1.0" ++ lit ",";
    lit "  " ++ q "language" ++ lit ": " ++ q "en" ++ lit " | " ++ q "es"
      ++ lit ",";
    lit "  " ++ q "vehicle" ++ lit ": { " ++ q "make" ++ lit ": string, "
      ++ q "model" ++ lit ": string, " ++ q "year" ++ lit ": string, "
      ++ q "engine" ++ lit ": string, " ++ q "vin" ++ lit ": string, "
      ++ q "mileage" ++ lit ": string },";
    lit "  " ++ q "concern" ++ lit ": { " ++ q "dtcs" ++ lit ": string[], "
      ++ q "symptom" ++ lit ": string, " ++ q "notes" ++ lit ": string },";
    lit "  " ++ q "overview" ++ lit ": { " ++ q "en" ++ lit ": string, "
      ++ q "es" ++ lit ": string },";
    lit "  " ++ q "disclaimers" ++ lit ": { " ++ q "en" ++ lit ": string, "
      ++ q "es" ++ lit ": string },";
    lit "  " ++ q "safetyNotes" ++ lit ": { " ++ q "en"
      ++ lit ": string[], " ++ q "es" ++ lit ": string[] },";
    lit "  " ++ q "specs" ++ lit ": {";
    lit "    " ++ q "labeledAsEstimated" ++ lit ": boolean,";
    lit "    " ++ q "items" ++ lit ": [";
    lit "      { " ++ q "name" ++ lit ": { " ++ q "en" ++ lit ": string, "
      ++ q "es" ++ lit ": string }, " ++ q "expectedRange"
      ++ lit ": string, " ++ q "unit" ++ lit ": string, " ++ q "note"
      ++ lit ": { " ++ q "en" ++ lit ": string, " ++ q "es"
      ++ lit ": string }, " ++ q "estimated" ++ lit ": boolean }";
    lit "    ]";
    lit "  },";
    lit "  " ++ q "steps" ++ lit ": [";
    lit "    {";
    lit "      " ++ q "id" ++ lit ": string,";
    lit "      " ++ q "title" ++ lit ": { " ++ q "en" ++ lit ": string, "
      ++ q "es" ++ lit ": string },";
    lit "      " ++ q "purpose" ++ lit ": { " ++ q "en" ++ lit ": string, "
      ++ q "es" ++ lit ": string },";
    lit "      " ++ q "procedure" ++ lit ": { " ++ q "en"
      ++ lit ": string[], " ++ q "es" ++ lit ": string[] },";
    lit "      " ++ q "connectorHints" ++ lit ": [";
    lit "        {";
    lit "          " ++ q "label" ++ lit ": { " ++ q "en"
      ++ lit ": string, " ++ q "es" ++ lit ": string },";
    lit "          " ++ q "test" ++ lit ": { " ++ q "en" ++ lit ": string, "
      ++ q "es" ++ lit ": string },";
    lit "          " ++ q "expectedRange" ++ lit ": string,";
    lit "          " ++ q "estimated" ++ lit ": boolean,";
    lit "          " ++ q "notes" ++ lit ": { " ++ q "en"
      ++ lit ": string, " ++ q "es" ++ lit ": string }";
    lit "        }";
    lit "      ],";
    lit "      " ++ q "passCriteria" ++ lit ": { " ++ q "en"
      ++ lit ": string[], " ++ q "es" ++ lit ": string[] },";
    lit "      " ++ q "failCriteria" ++ lit ": { " ++ q "en"
      ++ lit ": string[], " ++ q "es" ++ lit ": string[] },";
    lit "      " ++ q "nextOnPass" ++ lit ": string | null,";
    lit "      " ++ q "nextOnFail" ++ lit ": string | null";
    lit "    }";
    lit "  ],";
    lit "  " ++ q "firstStepId" ++ lit ": string,";
    lit "  " ++ q "sessionId" ++ lit ": string";
    lit "}";
    [];
    lit "Rules:";
    lit "- If VIN or mileage are unknown, set them to " ++ q ""
      ++ lit " (empty string). Do NOT omit.";
    lit "- Use estimated specs/ranges only; mark estimated=true and include "
      ++ q "estimated" ++ lit " label in notes.";
    lit "- NO OEM wiring diagrams. You may reference: "
      ++ q "Refer to OEM wiring diagram (OEM/Alldata/Mitchell) if available.";
    lit "- Include bilingual text in both en and es ALWAYS, even if language is "
      ++ q "en" ++ lit " or " ++ q "es" ++ lit ".";
    lit "- Keep steps practical and safe. Include at least 5 steps.";
    lit "- Use stable step ids like " ++ q "step-1" ++ lit ", "
      ++ q "step-2" ++ lit ", etc.";
    lit "- Set firstStepId to " ++ q "step-1" ++ lit ".";
    lit "- sessionId must echo the provided sessionId (or " ++ q ""
      ++ lit " if none).";
    [];
    lit "Here is the case input:" ].

(** The template up to the interpolated case input: it opens with a line
    break and every line ends with one. *)
Definition prompt_head : jsstring :=
  nl ++ concat (map (fun l => l ++ nl) prompt_lines).

(** What can be thrown while the handler runs. *)
Inductive JsError : Type :=
| SyntaxError (message : jsstring)
| ZodError (issues : list ZodIssue)
| OtherError (name message : jsstring).

(** What the program takes from its runtime and its libraries:
    [JSON.parse] (a [SyntaxError] with its message, or the value),
    [JSON.stringify(value, null, 2)], zod's error map and the message zod
    gives a [ZodError]. *)
Record Host : Type := mkHost {
  JSON_parse : jsstring -> jsstring + json;
  JSON_stringify : json -> jsstring;
  errorMap : ZodIssueCode -> jsstring;
  ZodError_message : list ZodIssue -> jsstring
}.

(** The argument and the outcome of [openai.responses.create]. *)
Record CreateParams : Type := mkParams {
  model : jsstring;
  input : jsstring;
  temperature : QArith_base.Q
}.

Inductive CreateResult : Type :=
| Rejects (e : JsError)
| Resolves (output_text : option jsstring).

Record NextResponse : Type := mkResponse {
  body : json;
  status : Z
}.

(** [NextResponse.json(body, { status })] *)
Definition NextResponse_json (fields : list (jsstring * option json)) (status : Z)
  : NextResponse :=
  {| body := JObj (object_literal fields); status := status |}.

(** How the [for] loop of the handler is left: by its [return], or by
    running to its end with the final values of its two variables. *)
Inductive LoopExit : Type :=
| Returned (r : NextResponse)
| Completed (rawText : jsstring) (lastErr : option JsError).

(** The values [lo, lo+1, ..., hi] a counter takes in
    [for (let i = lo; i <= hi; i++)]. *)
Definition counter_values (lo hi : Z) : list Z :=
  map (fun k => (lo + Z.of_nat k)%Z) (seq 0 (Z.to_nat (hi + 1 - lo))).

Definition decimal (n : nat) : jsstring :=
  lit (NilZero.string_of_uint (Nat.to_uint n)).

(** A computation returns a value or throws. *)
Inductive Outcome (A : Type) : Type :=
| Value (a : A)
| Throw (e : JsError).
Arguments Throw {A} e.

Section Handler.

Variable host : Host.

(** The provider is a state machine of the outside world. *)
Variable Provider : Type.
Variable create : Provider -> CreateParams -> CreateResult * Provider.

(** [Error.prototype.toString]: the name, a colon and the message, or
    the one of the two that is not empty. *)
Definition Error_toString (name m : jsstring) : jsstring :=
  match name, m with
  | [], _ => m
  | _, [] => name
  | _, _ => name ++ lit ": " ++ m
  end.

(** [String(err)]; a [ZodError] prints as its message, [null] as [null]. *)
Definition String_ (err : option JsError) : jsstring :=
  match err with
  | None => lit "null"
  | Some (SyntaxError m) => Error_toString (lit "SyntaxError") m
  | Some (ZodError issues) => ZodError_message host issues
  | Some (OtherError name m) => Error_toString name m
  end.

(** [err.message] *)
Definition message_of (err : JsError) : jsstring :=
  match err with
  | SyntaxError m => m
  | ZodError issues => ZodError_message host issues
  | OtherError _ m => m
  end.

Definition segment (p : PathSeg) : jsstring :=
  match p with
  | Key k => k
  | Index i => decimal i
  end.

(** One issue as [path: message]; an empty path reads [(root)]. *)
Definition issue_line (i : ZodIssue) : jsstring :=
  (match join (lit ".") (map segment (path i)) with
   | [] => lit "(root)"
   | p => p
   end) ++ lit ": " ++ message i.

(** The [issues] of a [ZodError], cut to 8 and joined; any other value,
    or an empty list of issues, as [String(err)].  Nothing in the body can
    throw on these values, so its [catch] is never entered. *)
Definition zodErrToShortString (err : option JsError) : jsstring :=
  match err with
  | Some (ZodError ((_ :: _) as issues)) =>
      join (lit "; ") (map issue_line (firstn 8 issues))
  | _ => String_ err
  end.

(** *** The monad of the handler: the state is the provider and the trace
    of the calls made to it; a computation returns or throws. *)

Record World : Type := mkWorld {
  provider : Provider;
  calls : list (CreateParams * CreateResult)
}.

Definition M (A : Type) : Type := World -> Outcome A * World.

Definition ret {A} (a : A) : M A := fun w => (Value a, w).
Definition throw {A} (e : JsError) : M A := fun w => (Throw e, w).
Definition bind {A B} (m : M A) (k : A -> M B) : M B :=
  fun w => match m w with
           | (Value a, w') => k a w'
           | (Throw e, w') => (Throw e, w')
           end.
Definition try_catch {A} (m : M A) (handler : JsError -> M A) : M A :=
  fun w => match m w with
           | (Value a, w') => (Value a, w')
           | (Throw e, w') => handler e w'
           end.

Notation "x <- m ;; k" := (bind m (fun x => k))
  (at level 61, m at next level, right associativity).

(** [await openai.responses.create(params)]: the call is recorded with its
    outcome; a rejected promise throws. *)
Definition openai_responses_create (params : CreateParams) : M (option jsstring) :=
  fun w =>
    let (r, p') := create (provider w) params in
    let w' := {| provider := p'; calls := calls w ++ [(params, r)] |} in
    match r with
    | Rejects e => (Throw e, w')
    | Resolves output_text => (Value output_text, w')
    end.

(** [schema.parse(data)]: the data, or a thrown [ZodError]. *)
Definition parse (t : ZodType) (data : json) : M (option json) :=
  match safeParse (errorMap host) t data with
  | SafeParseSuccess d => ret d
  | SafeParseError issues => throw (ZodError issues)
  end.

(** [a ?? b] *)
Definition nullish (a : option json) (b : json) : json :=
  match a with
  | None | Some JNull => b
  | Some v => v
  end.

(** The prompt built from the validated input. *)
Definition build_prompt (input : json) : jsstring :=
  let lang :=
    match get (lit "language") input with
    | Some (JStr s) => if eqb s (lit "es") then lit "es" else lit "en"
    | _ => lit "en"
    end in
  trim
    (prompt_head
     ++ JSON_stringify host
          (JObj (object_literal
             [ (lit "make", get (lit "make") input);
               (lit "model", get (lit "model") input);
               (lit "year", get (lit "year") input);
               (lit "engine", get (lit "engine") input);
               (lit "dtcs", get (lit "dtcs") input);
               (lit "symptom", get (lit "symptom") input);
               (lit "notes", get (lit "notes") input);
               (lit "language", Some (JStr lang));
               (lit "sessionId",
                 Some (nullish (get (lit "sessionId") input) (JStr (lit ""))));
               (lit "vin", Some (nullish (get (lit "vin") input) (JStr (lit ""))));
               (lit "mileage",
                 Some (nullish (get (lit "mileage") input) (JStr (lit "")))) ]))
     ++ nl).

(** The input of the repair call: the prompt, the issues of the previous
    attempt and the instruction to correct. *)
Definition repair_prompt (prompt : jsstring) (lastErr : option JsError) : jsstring :=
  prompt ++ nl ++ nl
  ++ lit "Your previous JSON failed validation with these issues:" ++ nl
  ++ zodErrToShortString lastErr ++ nl ++ nl
  ++ lit "Return ONLY corrected JSON that satisfies the structure exactly. Do not omit required keys.".

(** The loop [for (let attempt = 1; attempt <= 2; attempt++)], over the
    values of [attempt] still to come. *)
Fixpoint attempts (prompt : jsstring) (todo : list Z)
         (rawText : jsstring) (lastErr : option JsError) : M LoopExit :=
  match todo with
  | [] => ret (Completed rawText lastErr)
  | attempt :: todo' =>
      response <- openai_responses_create
                    {| model := lit "gpt-4.1-mini";
                       input := if (attempt =? 1)%Z then prompt
                                else repair_prompt prompt lastErr;
                       temperature := QArith_base.Qmake 2 10 |} ;;
      let rawText := match response with Some t => t | None => lit "" end in
      let cleaned := stripJsonFences rawText in
      let jsonBlock :=
        match extractFirstJsonObject cleaned with
        | Some block => block
        | None => cleaned
        end in
      match JSON_parse host jsonBlock with
      | inl e => attempts prompt todo' rawText (Some (SyntaxError e))
      | inr parsed =>
          match safeParse (errorMap host) DiagnosticPlanSchema parsed with
          | SafeParseSuccess data =>
              ret (Returned
                     (NextResponse_json
                        [ (lit "ok", Some (JBool true)); (lit "plan", data) ] 200))
          | SafeParseError error =>
              attempts prompt todo' rawText (Some (ZodError error))
          end
      end
  end.

(** The request, as the handler uses it: the environment variable
    [OPENAI_API_KEY] and the outcome of [req.json()]. *)
Record Request : Type := mkRequest {
  OPENAI_API_KEY : option jsstring;
  req_json : JsError + json
}.

Definition falsy (s : option jsstring) : bool :=
  match s with
  | None | Some [] => true
  | Some (_ :: _) => false
  end.

Definition POST (req : Request) : M NextResponse :=
  try_catch
    (if falsy (OPENAI_API_KEY req) then
       ret (NextResponse_json
              [ (lit "ok", Some (JBool false));
                (lit "error", Some (JStr (lit "Missing OPENAI_API_KEY in .env.local"))) ]
              500)
     else
       body <- (match req_json req with
                | inl e => throw e
                | inr b => ret b
                end) ;;
       parsed_input <- parse DiagnosticInputSchema body ;;
       input <- (match parsed_input with
                 | Some i => ret i
                 | None =>
                     throw (OtherError (lit "TypeError")
                              (lit "Cannot read properties of undefined"))
                 end) ;;
       let prompt := build_prompt input in
       exit <- attempts prompt (counter_values 1 2) (lit "") None ;;
       match exit with
       | Returned r => ret r
       | Completed rawText lastErr =>
           ret (NextResponse_json
                  [ (lit "ok", Some (JBool false));
                    (lit "error",
                      Some (JStr (lit "Model did not return valid JSON matching schema")));
                    (lit "detail", Some (JStr (zodErrToShortString lastErr)));
                    (lit "raw", Some (JStr rawText)) ]
                  500)
       end)
    (fun err =>
       ret (NextResponse_json
              [ (lit "ok", Some (JBool false));
                (lit "error", Some (JStr (lit "Diagnose failed")));
                (lit "detail", Some (JStr (message_of err))) ]
              400)).

(** A run of the handler from a provider that has not been called yet. *)
Definition run (req : Request) (p : Provider) : Outcome NextResponse * World :=
  POST req {| provider := p; calls := [] |}.

End Handler.

(* ------------------------------------------------------------------ *)
(** ** Vocabulary of the properties *)

(** The text handed to [JSON.parse] in one attempt. *)
Definition extracted_block (rawText : jsstring) : jsstring :=
  let cleaned := stripJsonFences rawText in
  match extractFirstJsonObject cleaned with
  | Some block => block
  | None => cleaned
  end.

(** [output_text ?? ""] *)
Definition raw_text (output_text : option jsstring) : jsstring :=
  match output_text with
  | Some t => t
  | None => lit ""
  end.

(** What one attempt makes of the text of a response: the validated data,
    or the error kept in [lastErr]. *)
Inductive Checked : Type :=
| Validated (data : option json)
| Failed (e : JsError).

Definition check (host : Host) (output_text : option jsstring) : Checked :=
  match JSON_parse host (extracted_block (raw_text output_text)) with
  | inl e => Failed (SyntaxError e)
  | inr parsed =>
      match safeParse (errorMap host) DiagnosticPlanSchema parsed with
      | SafeParseSuccess data => Validated data
      | SafeParseError error => Failed (ZodError error)
      end
  end.

(** The parameters of the call made in the iteration [attempt]. *)
Definition call_of (host : Host) (prompt : jsstring) (attempt : Z)
           (lastErr : option JsError) : CreateParams :=
  {| model := lit "gpt-4.1-mini";
     input := if (attempt =? 1)%Z then prompt else repair_prompt host prompt lastErr;
     temperature := QArith_base.Qmake 2 10 |}.

(** The first and the second call of the loop. *)
Definition first_call (prompt : jsstring) : CreateParams :=
  {| model := lit "gpt-4.1-mini"; input := prompt;
     temperature := QArith_base.Qmake 2 10 |}.

Definition repair_call (host : Host) (prompt : jsstring) (e : JsError) : CreateParams :=
  {| model := lit "gpt-4.1-mini"; input := repair_prompt host prompt (Some e);
     temperature := QArith_base.Qmake 2 10 |}.

(** The response to a request when the credential is missing. *)
Definition missing_key_response : NextResponse :=
  NextResponse_json
    [ (lit "ok", Some (JBool false));
      (lit "error", Some (JStr (lit "Missing OPENAI_API_KEY in .env.local"))) ]
    500.

(** The three responses of the handler after the credential check. *)
Definition success_response (data : option json) : NextResponse :=
  NextResponse_json [ (lit "ok", Some (JBool true)); (lit "plan", data) ] 200.

Definition exhausted_response (detail rawText : jsstring) : NextResponse :=
  NextResponse_json
    [ (lit "ok", Some (JBool false));
      (lit "error", Some (JStr (lit "Model did not return valid JSON matching schema")));
      (lit "detail", Some (JStr detail));
      (lit "raw", Some (JStr rawText)) ]
    500.

Definition caught_response (host : Host) (e : JsError) : NextResponse :=
  NextResponse_json
    [ (lit "ok", Some (JBool false));
      (lit "error", Some (JStr (lit "Diagnose failed")));
      (lit "detail", Some (JStr (message_of host e))) ]
    400.

(** A request passes input validation: the credential is set, the body is
    JSON and the input schema accepts it. *)
Definition passes_validation (host : Host) (req : Request) (input : json) : Prop :=
  falsy (OPENAI_API_KEY req) = false /\
  exists body, req_json req = inr body /\
    safeParse (errorMap host) DiagnosticInputSchema body = SafeParseSuccess (Some input).

(** The detail the specification describes for the final failure: the first
    8 validation issues of the last error, each as path and message, joined
    with a semicolon and a space. *)
Definition issues_of (e : JsError) : list ZodIssue :=
  match e with
  | ZodError issues => issues
  | _ => []
  end.

Definition described_detail (e : JsError) : jsstring :=
  join (lit "; ") (map issue_line (firstn 8 (issues_of e))).

(** *** Shape of a validated value *)

(** No [optional] anywhere in the schema and no [__proto__] key: every key
    of an object schema is then set in the parsed value. *)
Fixpoint all_required (t : ZodType) : bool :=
  match t with
  | ZodString | ZodBoolean | ZodEnum _ => true
  | ZodArray element => all_required element
  | ZodObject shape =>
      (fix each (shape : list (jsstring * ZodType)) :=
         match shape with
         | [] => true
         | (k, t') :: rest =>
             negb (eqb k (lit "__proto__")) && all_required t' && each rest
         end) shape
  | ZodNullable inner => all_required inner
  | ZodOptional _ => false
  | ZodDefault inner _ => all_required inner
  end.

(** The value has exactly the form the schema describes: an object has the
    keys of the shape, in its order, and nothing else. *)
Fixpoint shaped (t : ZodType) (v : json) : bool :=
  match t with
  | ZodString => match v with JStr _ => true | _ => false end
  | ZodBoolean => match v with JBool _ => true | _ => false end
  | ZodEnum values => match v with JStr s => existsb (eqb s) values | _ => false end
  | ZodArray element =>
      match v with
      | JArr items => forallb (shaped element) items
      | _ => false
      end
  | ZodObject shape =>
      match v with
      | JObj props =>
          (fix each (shape : list (jsstring * ZodType))
               (props : list (jsstring * json)) :=
             match shape, props with
             | [], [] => true
             | (k, t') :: shape', (k', v') :: props' =>
                 eqb k' k && shaped t' v' && each shape' props'
             | _, _ => false
             end) shape props
      | _ => false
      end
  | ZodNullable inner => match v with JNull => true | _ => shaped inner v end
  | ZodOptional inner => shaped inner v
  | ZodDefault inner _ => shaped inner v
  end.

(** What the parser of a schema without [optional] returns, when it does
    not abort, is a value of the form of the schema. *)
Definition parses_to_shape (em : ZodIssueCode -> jsstring) (t : ZodType) : Prop :=
  all_required t = true ->
  forall path data r iss,
    _parse em t path data = (OK r, iss) ->
    exists v, r = Some v /\ shaped t v = true.

(** Every key of every object inside the value is declared by the schema
    at that place. *)
Fixpoint declared_keys_only (t : ZodType) (v : json) : bool :=
  match t with
  | ZodArray element =>
      match v with
      | JArr items => forallb (declared_keys_only element) items
      | JObj _ => false
      | _ => true
      end
  | ZodObject shape =>
      match v with
      | JObj props =>
          forallb
            (fun kv : jsstring * json =>
               (fix find (shape : list (jsstring * ZodType)) :=
                  match shape with
                  | [] => false
                  | (k, t') :: rest =>
                      if eqb k (fst kv) then declared_keys_only t' (snd kv)
                      else find rest
                  end) shape)
            props
      | JArr _ => false
      | _ => true
      end
  | ZodNullable inner => declared_keys_only inner v
  | ZodOptional inner => declared_keys_only inner v
  | ZodDefault inner _ => declared_keys_only inner v
  | ZodString | ZodBoolean | ZodEnum _ =>
      match v with
      | JArr _ | JObj _ => false
      | _ => true
      end
  end.

(** The test [declared_keys_only] applies to one property of an object. *)
Fixpoint declared_field (shape : list (jsstring * ZodType)) (kv : jsstring * json)
  : bool :=
  match shape with
  | [] => false
  | (k, t') :: rest =>
      if eqb k (fst kv) then declared_keys_only t' (snd kv)
      else declared_field rest kv
  end.

(** No object schema declares a key twice. *)
Fixpoint unique_keys (t : ZodType) : bool :=
  match t with
  | ZodString | ZodBoolean | ZodEnum _ => true
  | ZodArray element => unique_keys element
  | ZodObject shape =>
      (fix each (shape : list (jsstring * ZodType)) :=
         match shape with
         | [] => true
         | (k, t') :: rest =>
             negb (existsb (fun kt : jsstring * ZodType => eqb (fst kt) k) rest)
             && unique_keys t' && each rest
         end) shape
  | ZodNullable inner => unique_keys inner
  | ZodOptional inner => unique_keys inner
  | ZodDefault inner _ => unique_keys inner
  end.

(** *** Bilingual fields of a plan *)

(** The field holds an object with a string under [en] and under [es]. *)
Definition bilingual_text (field : option json) : Prop :=
  exists o en es, field = Some o /\
    get (lit "en") o = Some (JStr en) /\ get (lit "es") o = Some (JStr es).

(** The field holds an object with an array of strings under [en] and
    under [es]. *)
Definition bilingual_array (field : option json) : Prop :=
  exists o en es, field = Some o /\
    get (lit "en") o = Some (JArr (map JStr en)) /\
    get (lit "es") o = Some (JArr (map JStr es)).

(** The field holds an array whose elements all satisfy [P]. *)
Definition array_of (P : json -> Prop) (field : option json) : Prop :=
  exists items, field = Some (JArr items) /\ Forall P items.

Definition hint_bilingual (h : json) : Prop :=
  bilingual_text (get (lit "label") h) /\
  bilingual_text (get (lit "test") h) /\
  bilingual_text (get (lit "notes") h).

Definition step_bilingual (s : json) : Prop :=
  bilingual_text (get (lit "title") s) /\
  bilingual_text (get (lit "purpose") s) /\
  bilingual_array (get (lit "procedure") s) /\
  array_of hint_bilingual (get (lit "connectorHints") s) /\
  bilingual_array (get (lit "passCriteria") s) /\
  bilingual_array (get (lit "failCriteria") s).

Definition spec_item_bilingual (i : json) : Prop :=
  bilingual_text (get (lit "name") i) /\
  bilingual_text (get (lit "note") i).

Definition fully_bilingual (plan : json) : Prop :=
  bilingual_text (get (lit "overview") plan) /\
  bilingual_text (get (lit "disclaimers") plan) /\
  bilingual_array (get (lit "safetyNotes") plan) /\
  (exists specs, get (lit "specs") plan = Some specs /\
     array_of spec_item_bilingual (get (lit "items") specs)) /\
  array_of step_bilingual (get (lit "steps") plan).

(* ------------------------------------------------------------------ *)
(** ** A concrete host, provider and values to run the handler on *)

Module Samples.

(** Compact JSON text of a value whose strings need no escape. *)
Fixpoint render (v : json) : jsstring :=
  match v with
  | JNull => lit "null"
  | JBool true => lit "true"
  | JBool false => lit "false"
  | JNum text => text
  | JStr s => [34%N] ++ s ++ [34%N]
  | JArr items =>
      lit "[" ++ join (lit ",") (map render items) ++ lit "]"
  | JObj props =>
      lit "{"
      ++ join (lit ",")
           ((fix each (props : list (jsstring * json)) :=
               match props with
               | [] => []
               | (k, v') :: rest =>
                   ([34%N] ++ k ++ [34%N] ++ lit ":" ++ render v') :: each rest
               end) props)
      ++ lit "}"
  end.

Definition spaces (n : nat) : jsstring := repeat 32%N n.

(** JSON text with an indentation of two spaces, as
    [JSON.stringify(v, null, 2)] gives it for strings that need no escape. *)
Fixpoint pretty (depth : nat) (v : json) : jsstring :=
  match v with
  | JArr [] => lit "[]"
  | JArr items =>
      lit "[" ++ nl
      ++ join (lit "," ++ nl)
           (map (fun i => spaces (2 * S depth) ++ pretty (S depth) i) items)
      ++ nl ++ spaces (2 * depth) ++ lit "]"
  | JObj [] => lit "{}"
  | JObj props =>
      lit "{" ++ nl
      ++ join (lit "," ++ nl)
           ((fix each (props : list (jsstring * json)) :=
               match props with
               | [] => []
               | (k, v') :: rest =>
                   (spaces (2 * S depth) ++ [34%N] ++ k ++ [34%N] ++ lit ": "
                    ++ pretty (S depth) v') :: each rest
               end) props)
      ++ nl ++ spaces (2 * depth) ++ lit "}"
  | _ => render v
  end.

Definition type_name (t : ZodParsedType) : jsstring :=
  match t with
  | zpt_string => lit "string"
  | zpt_number => lit "number"
  | zpt_boolean => lit "boolean"
  | zpt_null => lit "null"
  | zpt_undefined => lit "undefined"
  | zpt_array => lit "array"
  | zpt_object => lit "object"
  end.

Definition joinValues (values : list jsstring) : jsstring :=
  join (lit " | ") (map (fun v => lit "'" ++ v ++ lit "'") values).

(** The messages of zod's default error map for the two issue codes. *)
Definition defaultErrorMap (c : ZodIssueCode) : jsstring :=
  match c with
  | invalid_type _ zpt_undefined => lit "Required"
  | invalid_type (exp_type t) r =>
      lit "Expected " ++ type_name t ++ lit ", received " ++ type_name r
  | invalid_type (exp_values vs) r =>
      lit "Expected " ++ joinValues vs ++ lit ", received " ++ type_name r
  | invalid_enum_value options received =>
      lit "Invalid enum value. Expected " ++ joinValues options
      ++ lit ", received '" ++ received ++ lit "'"
  end.

Definition text_pair (en es : string) : json :=
  JObj [ (lit "en", JStr (lit en)); (lit "es", JStr (lit es)) ].
Arguments text_pair (en es)%_string.

Definition lines_pair (en es : list jsstring) : json :=
  JObj [ (lit "en", JArr (map JStr en)); (lit "es", JArr (map JStr es)) ].

(** The fields of a plan before [steps]. *)
Definition plan_front : list (jsstring * json) :=
  [ (lit "version", JStr (lit "1.0"));
    (lit "language", JStr (lit "en"));
    (lit "vehicle",
      JObj [ (lit "make", JStr (lit "Honda"));
             (lit "model", JStr (lit "Civic"));
             (lit "year", JStr (lit "2015"));
             (lit "engine", JStr (lit "1.8L"));
             (lit "vin", JStr (lit ""));
             (lit "mileage", JStr (lit "")) ]);
    (lit "concern",
      JObj [ (lit "dtcs", JArr [JStr (lit "P0420")]);
             (lit "symptom", JStr (lit "Check engine light on"));
             (lit "notes", JStr (lit "")) ]);
    (lit "overview", text_pair "Catalyst efficiency" "Eficiencia del catalizador");
    (lit "disclaimers", text_pair "Estimated values" "Valores estimados");
    (lit "safetyNotes", lines_pair [lit "Hot exhaust"] [lit "Escape caliente"]);
    (lit "specs",
      JObj [ (lit "labeledAsEstimated", JBool true);
             (lit "items", JArr []) ]) ].

(** A plan the output schema accepts, with no step and a first step id
    that is not [step-1]. *)
Definition plan_without_steps : json :=
  JObj (plan_front
        ++ [ (lit "steps", JArr []);
             (lit "firstStepId", JStr (lit "start"));
             (lit "sessionId", JStr (lit "")) ]).

Definition step_one : json :=
  JObj [ (lit "id", JStr (lit "step-1"));
         (lit "title", text_pair "Read codes" "Leer codigos");
         (lit "purpose", text_pair "Confirm the fault" "Confirmar la falla");
         (lit "procedure", lines_pair [lit "Connect scanner"] [lit "Conectar escaner"]);
         (lit "connectorHints", JArr []);
         (lit "passCriteria", lines_pair [lit "Code present"] [lit "Codigo presente"]);
         (lit "failCriteria", lines_pair [lit "No code"] [lit "Sin codigo"]);
         (lit "nextOnPass", JNull);
         (lit "nextOnFail", JNull) ].

(** A plan with one step. *)
Definition plan_one_step : json :=
  JObj (plan_front
        ++ [ (lit "steps", JArr [step_one]);
             (lit "firstStepId", JStr (lit "step-1"));
             (lit "sessionId", JStr (lit "")) ]).

(** The same plan as the model may send it, with a key the schema does not
    declare at the top and one inside the step. *)
Definition plan_with_extra_keys : json :=
  JObj (plan_front
        ++ [ (lit "steps",
               JArr [ match step_one with
                      | JObj props => JObj (props ++ [ (lit "confidence", JNum (lit "0.9")) ])
                      | other => other
                      end ]);
             (lit "firstStepId", JStr (lit "step-1"));
             (lit "sessionId", JStr (lit ""));
             (lit "debug", JBool true) ]).

(** The values whose compact text the sample [JSON.parse] recognises; any
    other text is reported as a syntax error. *)
Definition known_values : list json :=
  [ JObj []; plan_without_steps; plan_one_step; plan_with_extra_keys ].

Definition sample_JSON_parse (text : jsstring) : jsstring + json :=
  match find (fun v => eqb (render v) text) known_values with
  | Some v => inr v
  | None => inl (lit "Unexpected token")
  end.

Definition sample_host : Host :=
  {| JSON_parse := sample_JSON_parse;
     JSON_stringify := pretty 0;
     errorMap := defaultErrorMap;
     ZodError_message := fun issues => render (JArr (map (fun i => JStr (message i)) issues)) |}.

(** A provider that answers from a list of prepared outcomes, whatever the
    prompt; when the list is used up the call is rejected. *)
Definition scripted (script : list CreateResult) (_ : CreateParams)
  : CreateResult * list CreateResult :=
  match script with
  | r :: rest => (r, rest)
  | [] => (Rejects (OtherError (lit "Error") (lit "Connection error.")), [])
  end.

(** The request of the end-to-end scenario, optional fields omitted. *)
Definition sample_body : json :=
  JObj [ (lit "make", JStr (lit "Honda"));
         (lit "model", JStr (lit "Civic"));
         (lit "year", JStr (lit "2015"));
         (lit "engine", JStr (lit "1.8L"));
         (lit "dtcs", JArr [JStr (lit "P0420")]);
         (lit "symptom", JStr (lit "Check engine light on")) ].

Definition sample_input : json :=
  JObj [ (lit "make", JStr (lit "Honda"));
         (lit "model", JStr (lit "Civic"));
         (lit "year", JStr (lit "2015"));
         (lit "engine", JStr (lit "1.8L"));
         (lit "dtcs", JArr [JStr (lit "P0420")]);
         (lit "symptom", JStr (lit "Check engine light on"));
         (lit "notes", JStr (lit ""));
         (lit "language", JStr (lit "en"));
         (lit "sessionId", JStr (lit ""));
         (lit "vin", JStr (lit ""));
         (lit "mileage", JStr (lit "")) ].

Definition sample_request : Request :=
  {| OPENAI_API_KEY := Some (lit "sk-test"); req_json := inr sample_body |}.

Definition request_without_key : Request :=
  {| OPENAI_API_KEY := None; req_json := inr sample_body |}.

Definition sample_prompt : jsstring := build_prompt sample_host sample_input.

(** The issue of the default error map for a required key that is absent. *)
Definition missing (key : string) (expected : Expected) : ZodIssue :=
  {| code := invalid_type expected zpt_undefined;
     path := [Key (lit key)];
     message := lit "Required" |}.
Arguments missing key%_string expected.

(** The issues of the output schema for the empty object, in the order of
    the schema. *)
Definition empty_object_issues : list ZodIssue :=
  [ missing "version" (exp_type zpt_string);
    missing "language" (exp_values [lit "en"; lit "es"]);
    missing "vehicle" (exp_type zpt_object);
    missing "concern" (exp_type zpt_object);
    missing "overview" (exp_type zpt_object);
    missing "disclaimers" (exp_type zpt_object);
    missing "safetyNotes" (exp_type zpt_object);
    missing "specs" (exp_type zpt_object);
    missing "steps" (exp_type zpt_array);
    missing "firstStepId" (exp_type zpt_string);
    missing "sessionId" (exp_type zpt_string) ].

(** A response that is prose, with no JSON in it. *)
Definition prose : jsstring := lit "I am sorry, I cannot produce a plan.".

(** A response in a fenced block. *)
Definition fenced (v : json) : jsstring :=
  lit "```json" ++ nl ++ render v ++ nl ++ lit "```".

End Samples.

(* ------------------------------------------------------------------ *)
(** ** Further vocabulary *)

(** A text without braces: prose around a JSON object. *)
Definition brace_free (s : jsstring) : Prop :=
  ~ In 123%N s /\ ~ In 125%N s.


Module MoreSamples.

(** A body whose [dtcs] is a string instead of an array. *)
Definition body_with_string_dtcs : json :=
  JObj [ (lit "make", JStr (lit "Honda"));
         (lit "model", JStr (lit "Civic"));
         (lit "year", JStr (lit "2015"));
         (lit "engine", JStr (lit "1.8L"));
         (lit "dtcs", JStr (lit "P0420"));
         (lit "symptom", JStr (lit "Check engine light on")) ].

Definition string_dtcs_issue : ZodIssue :=
  {| code := invalid_type (exp_type zpt_array) zpt_string;
     path := [Key (lit "dtcs")];
     message := lit "Expected array, received string" |}.

Definition request_with (key : option jsstring) (b : JsError + json) : Request :=
  {| OPENAI_API_KEY := key; req_json := b |}.

Definition connection_error : JsError :=
  OtherError (lit "Error") (lit "Connection error.").

End MoreSamples.

(** The parser of the schema never gives [undefined] for a value. *)
Fixpoint always_defined (t : ZodType) : bool :=
  match t with
  | ZodOptional _ => false
  | ZodNullable inner => always_defined inner
  | _ => true
  end.

(** Every key of every object schema is set in a parsed value: no field
    can parse to [undefined] and no key is [__proto__]. *)
Fixpoint fields_present (t : ZodType) : bool :=
  match t with
  | ZodString | ZodBoolean | ZodEnum _ => true
  | ZodArray element => fields_present element
  | ZodObject shape =>
      (fix each (shape : list (jsstring * ZodType)) :=
         match shape with
         | [] => true
         | (k, t') :: rest =>
             negb (eqb k (lit "__proto__")) && always_defined t'
             && fields_present t' && each rest
         end) shape
  | ZodNullable inner => fields_present inner
  | ZodOptional inner => fields_present inner
  | ZodDefault inner _ => fields_present inner
  end.

(** A forward link of a step: a string or [null]. *)
Definition step_link (field : option json) : Prop :=
  field = Some JNull \/ exists next, field = Some (JStr next).

(** What a consumer that walks the steps reads in a step. *)
Definition step_links (s : json) : Prop :=
  (exists id, get (lit "id") s = Some (JStr id)) /\
  step_link (get (lit "nextOnPass") s) /\
  step_link (get (lit "nextOnFail") s).

(** The keys the plan schema declares at the top. *)
Definition plan_keys : list jsstring :=
  [ lit "version"; lit "language"; lit "vehicle"; lit "concern"; lit "overview";
    lit "disclaimers"; lit "safetyNotes"; lit "specs"; lit "steps";
    lit "firstStepId"; lit "sessionId" ].

(** What the parser of a schema whose fields are always present returns
    for a value is of the form of the schema. *)
Definition parses_to_form (em : ZodIssueCode -> jsstring) (t : ZodType) : Prop :=
  fields_present t = true ->
  forall path data v iss,
    _parse em t path data = (OK (Some v), iss) -> shaped t v = true.

(* ================================================================== *)
(** * Properties *)

(** ** Running the model on the samples *)

Example stripJsonFences_sample :
  stripJsonFences (lit "```JSON
{ }
```") = lit "{ }".
Proof. reflexivity. Qed.

Example extractFirstJsonObject_sample :
  extractFirstJsonObject (lit "Sure: {a{b}c} done") = Some (lit "{a{b}c}").
Proof. reflexivity. Qed.

Example extractFirstJsonObject_none :
  extractFirstJsonObject (lit "} no object here {") = None.
Proof. reflexivity. Qed.

(* ------------------------------------------------------------------ *)
(** ** Strings *)

Section StringFacts.

Local Open Scope Z_scope.

Lemma starts_with_single (c x : code_unit) (t : jsstring) :
  starts_with [c] (x :: t) = N.eqb x c.
Proof. simpl. apply andb_true_r. Qed.

Lemma indexOf_from_first (c : code_unit) (pre rest : jsstring) (i : Z) :
  ~ In c pre ->
  indexOf_from [c] (pre ++ c :: rest) i = i + Z.of_nat (length pre).
Proof.
  revert i. induction pre as [|x pre IH]; intros i Hnot.
  - cbn [app indexOf_from]. rewrite starts_with_single, N.eqb_refl.
    cbn [length]. lia.
  - cbn [app indexOf_from]. rewrite starts_with_single.
    destruct (N.eqb_spec x c) as [->|_].
    + exfalso. apply Hnot. now left.
    + rewrite IH by (intro; apply Hnot; now right).
      cbn [length]. lia.
Qed.

Lemma lastIndexOf_from_absent (c : code_unit) (s : jsstring) (i found : Z) :
  ~ In c s -> lastIndexOf_from [c] s i found = found.
Proof.
  revert i. induction s as [|x s IH]; intros i Hnot.
  - reflexivity.
  - cbn [lastIndexOf_from]. rewrite starts_with_single.
    destruct (N.eqb_spec x c) as [->|_].
    + exfalso. apply Hnot. now left.
    + apply IH. intro. apply Hnot. now right.
Qed.

Lemma lastIndexOf_from_last (c : code_unit) (pre post : jsstring) (i found : Z) :
  ~ In c post ->
  lastIndexOf_from [c] (pre ++ c :: post) i found = i + Z.of_nat (length pre).
Proof.
  revert i found. induction pre as [|x pre IH]; intros i found Hnot.
  - cbn [app lastIndexOf_from]. rewrite starts_with_single, N.eqb_refl.
    rewrite lastIndexOf_from_absent by assumption. cbn [length]. lia.
  - cbn [app lastIndexOf_from]. rewrite IH by assumption.
    cbn [length]. lia.
Qed.

Lemma slice_middle (pre mid post : jsstring) :
  slice (pre ++ mid ++ post) (Z.of_nat (length pre))
        (Z.of_nat (length pre + length mid)) = mid.
Proof.
  unfold slice. rewrite !length_app.
  assert (H1 : (Z.of_nat (length pre) <? 0) = false) by (apply Z.ltb_ge; lia).
  assert (H2 : (Z.of_nat (length pre + length mid) <? 0) = false)
    by (apply Z.ltb_ge; lia).
  rewrite H1, H2.
  rewrite Z.min_l by lia. rewrite Z.min_l by lia.
  rewrite Nat2Z.id.
  replace (Z.to_nat (Z.of_nat (length pre + length mid) - Z.of_nat (length pre)))
    with (length mid) by lia.
  rewrite skipn_app, skipn_all, Nat.sub_diag. cbn [app skipn].
  rewrite firstn_app, firstn_all, Nat.sub_diag. cbn [firstn].
  apply app_nil_r.
Qed.

End StringFacts.

Lemma dropWhile_idem (p : code_unit -> bool) (s : jsstring) :
  dropWhile p (dropWhile p s) = dropWhile p s.
Proof.
  induction s as [|c s IH]; [reflexivity|].
  cbn [dropWhile]. destruct (p c) eqn:E; [exact IH|].
  cbn [dropWhile]. now rewrite E.
Qed.

Lemma takeWhile_dropWhile (p : code_unit -> bool) (s : jsstring) :
  takeWhile p s ++ dropWhile p s = s.
Proof.
  induction s as [|c s IH]; [reflexivity|].
  cbn [takeWhile dropWhile]. destruct (p c); [|reflexivity].
  cbn [app]. now rewrite IH.
Qed.

Lemma takeWhile_app_stop (p : code_unit -> bool) (s : jsstring) (c : code_unit)
      (rest : jsstring) :
  p c = false -> takeWhile p (s ++ c :: rest) = takeWhile p s.
Proof.
  intros Hc. induction s as [|x s IH].
  - cbn [app takeWhile]. now rewrite Hc.
  - cbn [app takeWhile]. destruct (p x); [now rewrite IH | reflexivity].
Qed.

Lemma trim_trimStart (s : jsstring) : trim (trimStart s) = trim s.
Proof. unfold trim, trimStart. now rewrite dropWhile_idem. Qed.

(** Dropping the rest of a match. *)
Lemma remove_matches_go_skip (m : jsstring -> option nat) (gone rest : jsstring) :
  remove_matches_go m (length gone) (gone ++ rest) = remove_matches_go m 0 rest.
Proof.
  induction gone as [|c gone IH]; [reflexivity|].
  cbn [length app remove_matches_go]. exact IH.
Qed.

Lemma remove_matches_match (m : jsstring -> option nat) (c : code_unit)
      (gone rest : jsstring) :
  m (c :: gone ++ rest) = Some (S (length gone)) ->
  remove_matches m (c :: gone ++ rest) = remove_matches m rest.
Proof.
  intros H. unfold remove_matches. cbn [remove_matches_go]. rewrite H.
  apply remove_matches_go_skip.
Qed.

Lemma remove_matches_no_match (m : jsstring -> option nat) (c : code_unit)
      (rest : jsstring) :
  m (c :: rest) = None ->
  remove_matches m (c :: rest) = c :: remove_matches m rest.
Proof.
  intros H. unfold remove_matches. cbn [remove_matches_go]. now rewrite H.
Qed.

(* ------------------------------------------------------------------ *)
(** ** extractFirstJsonObject *)

Lemma first_occurrence (c : code_unit) (l : jsstring) :
  In c l -> exists pre post, l = pre ++ c :: post /\ ~ In c pre.
Proof.
  induction l as [|x l IH]; intros Hin; [destruct Hin|].
  destruct (N.eq_dec x c) as [->|Hne].
  - exists [], l. split; [reflexivity|]. intros [].
  - destruct Hin as [Hx|Hin]; [congruence|].
    destruct (IH Hin) as (pre & post & -> & Hpre).
    exists (x :: pre), post. split; [reflexivity|].
    intros [Hx|Hin']; [congruence|now apply Hpre].
Qed.

(** A string in which an opening brace comes before the last closing brace
    is one of the strings of the theorem below: cut at its first opening
    brace. *)
Lemma brace_before_last_closing (before between post : jsstring) :
  exists pre mid,
    ~ In 123%N pre /\
    before ++ lit "{" ++ between ++ lit "}" ++ post
    = pre ++ lit "{" ++ mid ++ lit "}" ++ post.
Proof.
  destruct (@first_occurrence 123%N (before ++ lit "{" ++ between))
    as (pre & mid & E & Hpre).
  { apply in_or_app. right. now left. }
  exists pre, mid. split; [exact Hpre|].
  change (lit "{") with [123%N] in *.
  rewrite !app_assoc. rewrite <- (app_assoc before). rewrite E.
  now rewrite <- !app_assoc.
Qed.

(** C5. For every string in which an opening brace comes before the last
    closing brace (so the string is some text without opening brace, the
    first opening brace, any text, the last closing brace, and some text
    without closing brace), [extractFirstJsonObject] returns exactly the
    substring from the first opening brace to the last closing brace,
    both included. *)
Theorem extractFirstJsonObject_first_to_last (pre mid post : jsstring) :
  ~ In 123%N pre ->
  ~ In 125%N post ->
  extractFirstJsonObject (pre ++ lit "{" ++ mid ++ lit "}" ++ post)
  = Some (lit "{" ++ mid ++ lit "}").
Proof.
  intros Hpre Hpost.
  unfold extractFirstJsonObject, indexOf, lastIndexOf.
  change (lit "{") with [123%N]. change (lit "}") with [125%N].
  cbn [app].
  rewrite indexOf_from_first by assumption.
  replace (pre ++ 123%N :: mid ++ 125%N :: post)
    with ((pre ++ 123%N :: mid) ++ 125%N :: post)
    by (rewrite <- app_assoc; reflexivity).
  rewrite lastIndexOf_from_last by assumption.
  rewrite length_app. cbn [length].
  set (a := length pre). set (b := length mid).
  assert (E1 : ((0 + Z.of_nat a =? -1) = false)%Z) by (apply Z.eqb_neq; lia).
  assert (E2 : ((0 + Z.of_nat (a + S b) =? -1) = false)%Z) by (apply Z.eqb_neq; lia).
  assert (E3 : ((0 + Z.of_nat (a + S b) <=? 0 + Z.of_nat a) = false)%Z)
    by (apply Z.leb_gt; lia).
  rewrite E1, E2, E3. cbn [orb].
  f_equal.
  replace (0 + Z.of_nat a)%Z with (Z.of_nat (length pre)) by (subst a; lia).
  replace (0 + Z.of_nat (a + S b) + 1)%Z
    with (Z.of_nat (length pre + length (123%N :: mid ++ [125%N])))
    by (cbn [length]; rewrite length_app; cbn [length]; subst a b; lia).
  replace ((pre ++ 123%N :: mid) ++ 125%N :: post)
    with (pre ++ (123%N :: mid ++ [125%N]) ++ post).
  - apply slice_middle.
  - rewrite <- !app_assoc. cbn [app]. rewrite <- app_assoc. reflexivity.
Qed.

Lemma extractFirstJsonObject_first_to_last_witness :
  extractFirstJsonObject
    (lit "Here you go: " ++ lit "{" ++ lit "a{b}c" ++ lit "}" ++ lit " Bye {")
  = Some (lit "{" ++ lit "a{b}c" ++ lit "}").
Proof.
  apply (@extractFirstJsonObject_first_to_last
           (lit "Here you go: ") (lit "a{b}c") (lit " Bye {")).
  - vm_compute. intuition discriminate.
  - vm_compute. intuition discriminate.
Defined.

(* ------------------------------------------------------------------ *)
(** ** stripJsonFences *)

Lemma canon_backtick (x : code_unit) : N.eqb (canon x) (canon 96%N) = N.eqb x 96%N.
Proof.
  change (canon 96%N) with 96%N. unfold canon.
  destruct (N.leb_spec 97 x); destruct (N.leb_spec x 122); cbn [andb];
    destruct (N.eqb_spec x 96); destruct (N.eqb_spec (x - 32) 96);
    try reflexivity; lia.
Qed.

Lemma includes_tail (pat : jsstring) (c : code_unit) (s : jsstring) :
  includes pat (c :: s) = false ->
  starts_with pat (c :: s) = false /\ includes pat s = false.
Proof. cbn [includes]. intros H. now apply orb_false_iff in H. Qed.

Lemma includes_dropWhile (pat : jsstring) (p : code_unit -> bool) (s : jsstring) :
  includes pat s = false -> includes pat (dropWhile p s) = false.
Proof.
  induction s as [|c s IH]; intros H; [exact H|].
  cbn [dropWhile]. destruct (p c); [|exact H].
  apply IH. now apply includes_tail in H.
Qed.

(** A string that does not begin with a fence still does not begin with a
    fence followed by [json] when a closing fence is put after it. *)
Lemma re_fence_json_before_closing (v : jsstring) :
  starts_with (lit "```") v = false ->
  re_fence_json (v ++ lit "```") = None.
Proof.
  intros H. unfold re_fence_json.
  destruct v as [|a [|b [|c rest]]].
  - reflexivity.
  - cbn. rewrite canon_backtick. destruct (N.eqb a 96); reflexivity.
  - cbn. rewrite !canon_backtick.
    destruct (N.eqb a 96); [|reflexivity]. destruct (N.eqb b 96); reflexivity.
  - cbn in H. cbn. rewrite !canon_backtick.
    destruct (N.eqb a 96); [|reflexivity].
    destruct (N.eqb b 96); [|reflexivity].
    destruct (N.eqb c 96); [discriminate H|reflexivity].
Qed.

Lemma remove_fence_json_no_fence (v : jsstring) :
  includes (lit "```") v = false ->
  remove_matches re_fence_json (v ++ lit "```") = v ++ lit "```".
Proof.
  induction v as [|c v IH]; intros H.
  - reflexivity.
  - destruct (includes_tail _ _ _ H) as [Hhead Htail].
    cbn [app]. rewrite remove_matches_no_match.
    + now rewrite IH.
    + exact (re_fence_json_before_closing (c :: v) Hhead).
Qed.

Lemma remove_fence_no_fence (v : jsstring) :
  includes (lit "```") v = false ->
  remove_matches re_fence (v ++ lit "```") = v.
Proof.
  induction v as [|c v IH]; intros H.
  - reflexivity.
  - destruct (includes_tail _ _ _ H) as [Hhead Htail].
    specialize (IH Htail).
    destruct (re_fence (c :: v ++ lit "```")) as [k|] eqn:E.
    + (* the closing fence is met early: [v] ends in one or two backticks *)
      unfold re_fence in E.
      destruct v as [|b [|d rest]].
      * cbn in E |- *. unfold remove_matches, re_fence. cbn.
        destruct (N.eqb_spec c 96) as [->|]; [reflexivity|discriminate E].
      * cbn in E, Hhead |- *. unfold remove_matches, re_fence. cbn.
        destruct (N.eqb_spec c 96) as [->|]; [|discriminate E].
        destruct (N.eqb_spec b 96) as [->|]; [reflexivity|discriminate E].
      * cbn in E, Hhead. rewrite Hhead in E. discriminate E.
    + cbn [app]. rewrite remove_matches_no_match by exact E.
      now rewrite IH.
Qed.

(** The opening fence and the white space after it are removed as one
    match. *)
Lemma remove_fence_json_opening (inner rest : jsstring) :
  is_ws (hd 0%N rest) = false -> rest <> [] ->
  remove_matches re_fence_json (lit "```json" ++ inner ++ rest)
  = remove_matches re_fence_json (dropWhile is_ws inner ++ rest).
Proof.
  intros Hws Hne.
  destruct rest as [|r rest]; [congruence|]. cbn [hd] in Hws.
  rewrite <- (takeWhile_dropWhile is_ws inner) at 1.
  change (lit "```json")
    with (96%N :: [96%N; 96%N; 106%N; 115%N; 111%N; 110%N]).
  rewrite <- app_assoc. cbn [app].
  change (96%N :: 96%N :: 96%N :: 106%N :: 115%N :: 111%N :: 110%N
            :: takeWhile is_ws inner ++ dropWhile is_ws inner ++ r :: rest)
    with (96%N :: ([96%N; 96%N; 106%N; 115%N; 111%N; 110%N] ++ takeWhile is_ws inner)
            ++ (dropWhile is_ws inner ++ r :: rest)).
  apply remove_matches_match.
  unfold re_fence_json. rewrite length_app. cbn [length].
  change (lit "```json")
    with [96%N; 96%N; 96%N; 106%N; 115%N; 111%N; 110%N].
  cbn [app match_ci].
  change (N.eqb (canon 96) (canon 96)) with true.
  change (N.eqb (canon 106) (canon 106)) with true.
  change (N.eqb (canon 115) (canon 115)) with true.
  change (N.eqb (canon 111) (canon 111)) with true.
  change (N.eqb (canon 110) (canon 110)) with true.
  cbv iota.
  rewrite (app_assoc (takeWhile is_ws inner)).
  rewrite (takeWhile_dropWhile is_ws inner).
  rewrite takeWhile_app_stop by exact Hws.
  reflexivity.
Qed.

(** C6, as the code has it. For every string that consists of the opening
    fence [```json], an inner content in which no fence [```] occurs, and
    the closing fence [```], [stripJsonFences] returns the inner content
    without the white space around it. *)
Theorem stripJsonFences_fenced (inner : jsstring) :
  includes (lit "```") inner = false ->
  stripJsonFences (lit "```json" ++ inner ++ lit "```") = trim inner.
Proof.
  intros H. unfold stripJsonFences.
  rewrite remove_fence_json_opening by (cbn; congruence).
  pose proof (includes_dropWhile (lit "```") is_ws inner H) as H'.
  rewrite remove_fence_json_no_fence by exact H'.
  rewrite remove_fence_no_fence by exact H'.
  apply trim_trimStart.
Qed.

Lemma stripJsonFences_fenced_witness :
  stripJsonFences (lit "```json" ++ (nl ++ lit "{ }" ++ nl) ++ lit "```")
  = lit "{ }".
Proof.
  change (lit "{ }") with (trim (nl ++ lit "{ }" ++ nl)) at 2.
  apply (@stripJsonFences_fenced (nl ++ lit "{ }" ++ nl)).
  reflexivity.
Defined.

(** C6, as the specification states it, fails when the inner content
    itself holds a fence: the fence inside is removed as well, so the
    result is not the inner content. *)
Lemma stripJsonFences_inner_fence_removed :
  stripJsonFences (lit "```json" ++ lit "a```b" ++ lit "```") = lit "ab" /\
  stripJsonFences (lit "```json" ++ lit "a```b" ++ lit "```") <> trim (lit "a```b").
Proof.
  split; [reflexivity|]. vm_compute. discriminate.
Qed.

(* ------------------------------------------------------------------ *)
(** ** The input schema *)

(** The equations of [_parse] at an array and at an object. *)
Lemma _parse_array (em : ZodIssueCode -> jsstring) (element : ZodType)
      (path : list PathSeg) (items : list json) :
  _parse em (ZodArray element) path (Some (JArr items))
  = match mergeArray
            (map (fun '(i, item) => _parse em element (path ++ [Index i]) (Some item))
                 (indexed 0 items)) with
    | (Some vs, iss) => (OK (Some (JArr vs)), iss)
    | (None, iss) => (INVALID, iss)
    end.
Proof. reflexivity. Qed.

Lemma _parse_object (em : ZodIssueCode -> jsstring)
      (shape : list (jsstring * ZodType)) (path : list PathSeg)
      (props : list (jsstring * json)) :
  _parse em (ZodObject shape) path (Some (JObj props))
  = match mergeObjectSync
            (map (fun '(key, keyValidator) =>
                    (key, _parse em keyValidator (path ++ [Key key]) (lookup key props)))
                 shape) with
    | (Some out, iss) => (OK (Some (JObj out)), iss)
    | (None, iss) => (INVALID, iss)
    end.
Proof. reflexivity. Qed.

Lemma parse_string_items (em : ZodIssueCode -> jsstring) (path : list PathSeg)
      (ss : list jsstring) (i : nat) :
  mergeArray
    (map (fun '(i, item) => _parse em ZodString (path ++ [Index i]) (Some item))
         (indexed i (map JStr ss)))
  = (Some (map JStr ss), []).
Proof.
  revert i. induction ss as [|s ss IH]; intros i.
  - reflexivity.
  - cbn [map indexed mergeArray]. rewrite IH. reflexivity.
Qed.

Lemma parse_string_array (em : ZodIssueCode -> jsstring) (path : list PathSeg)
      (ss : list jsstring) :
  _parse em (ZodArray ZodString) path (Some (JArr (map JStr ss)))
  = (OK (Some (JArr (map JStr ss))), []).
Proof.
  rewrite _parse_array. now rewrite parse_string_items.
Qed.

(** C7. For every input object that supplies the required fields ([make],
    [model], [year], [engine] and [symptom] as strings, [dtcs] as an array
    of strings) and omits the optional ones, parsing with the input schema
    succeeds and yields [notes = ""], [language = "en"], [sessionId = ""],
    [vin = ""] and [mileage = ""] next to the supplied fields. *)
Theorem DiagnosticInputSchema_defaults
        (host : Host) (Provider : Type) (w : World Provider)
        (props : list (jsstring * json))
        (make model_ year engine symptom : jsstring) (dtcs : list jsstring) :
  lookup (lit "make") props = Some (JStr make) ->
  lookup (lit "model") props = Some (JStr model_) ->
  lookup (lit "year") props = Some (JStr year) ->
  lookup (lit "engine") props = Some (JStr engine) ->
  lookup (lit "dtcs") props = Some (JArr (map JStr dtcs)) ->
  lookup (lit "symptom") props = Some (JStr symptom) ->
  lookup (lit "notes") props = None ->
  lookup (lit "language") props = None ->
  lookup (lit "sessionId") props = None ->
  lookup (lit "vin") props = None ->
  lookup (lit "mileage") props = None ->
  parse host DiagnosticInputSchema (JObj props) w
  = (Value
       (Some
          (JObj [ (lit "make", JStr make);
                  (lit "model", JStr model_);
                  (lit "year", JStr year);
                  (lit "engine", JStr engine);
                  (lit "dtcs", JArr (map JStr dtcs));
                  (lit "symptom", JStr symptom);
                  (lit "notes", JStr (lit ""));
                  (lit "language", JStr (lit "en"));
                  (lit "sessionId", JStr (lit ""));
                  (lit "vin", JStr (lit ""));
                  (lit "mileage", JStr (lit "")) ])),
     w).
Proof.
  intros Hmake Hmodel Hyear Hengine Hdtcs Hsymptom Hnotes Hlang Hsession Hvin Hmileage.
  unfold parse, safeParse, DiagnosticInputSchema.
  rewrite _parse_object. cbn [map].
  rewrite Hmake, Hmodel, Hyear, Hengine, Hdtcs, Hsymptom,
    Hnotes, Hlang, Hsession, Hvin, Hmileage.
  rewrite parse_string_array.
  reflexivity.
Qed.

Lemma DiagnosticInputSchema_defaults_witness :
  parse Samples.sample_host DiagnosticInputSchema Samples.sample_body
        {| provider := @nil CreateResult; calls := [] |}
  = (Value (Some Samples.sample_input),
     {| provider := @nil CreateResult; calls := [] |}).
Proof.
  apply (@DiagnosticInputSchema_defaults Samples.sample_host (list CreateResult)
           {| provider := []; calls := [] |}
           [ (lit "make", JStr (lit "Honda"));
             (lit "model", JStr (lit "Civic"));
             (lit "year", JStr (lit "2015"));
             (lit "engine", JStr (lit "1.8L"));
             (lit "dtcs", JArr [JStr (lit "P0420")]);
             (lit "symptom", JStr (lit "Check engine light on")) ]
           (lit "Honda") (lit "Civic") (lit "2015") (lit "1.8L")
           (lit "Check engine light on") [lit "P0420"]);
    reflexivity.
Defined.

(* ------------------------------------------------------------------ *)
(** ** What a validated value looks like *)

Lemma eqb_refl (s : jsstring) : eqb s s = true.
Proof.
  induction s as [|c s IH]; [reflexivity|].
  cbn [eqb]. now rewrite N.eqb_refl, IH.
Qed.

Lemma eqb_eq (a b : jsstring) : eqb a b = true -> a = b.
Proof.
  revert b. induction a as [|x a IH]; intros [|y b] H; try discriminate H.
  - reflexivity.
  - cbn [eqb] in H. apply andb_true_iff in H. destruct H as [Hx Hab].
    apply N.eqb_eq in Hx. apply IH in Hab. congruence.
Qed.

(** The equations of the three predicates at an object schema. *)
Lemma all_required_cons (k : jsstring) (t : ZodType) (shape : list (jsstring * ZodType)) :
  all_required (ZodObject ((k, t) :: shape))
  = negb (eqb k (lit "__proto__")) && all_required t && all_required (ZodObject shape).
Proof. reflexivity. Qed.

Lemma shaped_cons (k k' : jsstring) (t : ZodType) (v : json)
      (shape : list (jsstring * ZodType)) (props : list (jsstring * json)) :
  shaped (ZodObject ((k, t) :: shape)) (JObj ((k', v) :: props))
  = eqb k' k && shaped t v && shaped (ZodObject shape) (JObj props).
Proof. reflexivity. Qed.

Lemma unique_keys_cons (k : jsstring) (t : ZodType) (shape : list (jsstring * ZodType)) :
  unique_keys (ZodObject ((k, t) :: shape))
  = negb (existsb (fun kt : jsstring * ZodType => eqb (fst kt) k) shape)
    && unique_keys t && unique_keys (ZodObject shape).
Proof. reflexivity. Qed.

Section Shaped.

Variable em : ZodIssueCode -> jsstring.

Lemma mergeArray_shaped (element : ZodType) (path : list PathSeg) :
  parses_to_shape em element ->
  all_required element = true ->
  forall items i vs iss,
    mergeArray
      (map (fun '(i, item) => _parse em element (path ++ [Index i]) (Some item))
           (indexed i items)) = (Some vs, iss) ->
    forallb (shaped element) vs = true.
Proof.
  intros IH Hreq. induction items as [|item items IHitems]; intros i vs iss H.
  - cbn in H. injection H as <- _. reflexivity.
  - cbn [indexed map mergeArray] in H.
    destruct (_parse em element (path ++ [Index i]) (Some item)) as [r i1] eqn:E.
    destruct (mergeArray _) as [rest i2] eqn:Erest.
    destruct r as [|r]; [discriminate H|].
    destruct (IH Hreq _ _ _ _ E) as (v & -> & Hv).
    destruct rest as [vs'|]; [|discriminate H].
    injection H as <- _. cbn [forallb]. rewrite Hv.
    exact (IHitems _ _ _ Erest).
Qed.

Lemma mergeObjectSync_shaped (props : list (jsstring * json)) (path : list PathSeg)
      (shape : list (jsstring * ZodType)) :
  Forall (fun kt => parses_to_shape em (snd kt)) shape ->
  all_required (ZodObject shape) = true ->
  forall out iss,
    mergeObjectSync
      (map (fun '(key, keyValidator) =>
              (key, _parse em keyValidator (path ++ [Key key]) (lookup key props)))
           shape) = (Some out, iss) ->
    shaped (ZodObject shape) (JObj out) = true.
Proof.
  induction 1 as [|[k t] shape Ht _ IHshape]; intros Hreq out iss H.
  - cbn in H. injection H as <- _. reflexivity.
  - cbn [snd] in Ht. rewrite all_required_cons in Hreq.
    apply andb_true_iff in Hreq. destruct Hreq as [Hreq Hrest].
    apply andb_true_iff in Hreq. destruct Hreq as [Hproto Hreq].
    apply negb_true_iff in Hproto.
    cbn [map mergeObjectSync] in H.
    destruct (_parse em t (path ++ [Key k]) (lookup k props)) as [r i1] eqn:E.
    destruct (mergeObjectSync _) as [rest i2] eqn:Erest.
    destruct r as [|r]; [discriminate H|].
    destruct (Ht Hreq _ _ _ _ E) as (v & -> & Hv).
    destruct rest as [out'|]; [|discriminate H].
    rewrite Hproto in H. injection H as <- _.
    rewrite shaped_cons, eqb_refl, Hv. cbn [andb].
    exact (IHshape Hrest _ _ eq_refl).
Qed.

Lemma parse_shaped (t : ZodType) : parses_to_shape em t.
Proof.
  induction t as [| | values | element IH | shape IH | inner IH | inner IH | inner d IH]
    using ZodType_nested_ind; intros Hreq path data r iss H.
  - cbn in H. destruct data as [[]|]; try discriminate H.
    injection H as <- _. eexists; split; reflexivity.
  - cbn in H. destruct data as [[]|]; try discriminate H.
    injection H as <- _. eexists; split; reflexivity.
  - cbn [_parse] in H. destruct data as [[]|]; try discriminate H.
    destruct (existsb (eqb s) values) eqn:E; [|discriminate H].
    injection H as <- _. eexists; split; [reflexivity|exact E].
  - destruct data as [[| | | |items|]|]; try discriminate H.
    rewrite _parse_array in H.
    destruct (mergeArray _) as [[vs|] iss'] eqn:E; [|discriminate H].
    injection H as <- _. eexists; split; [reflexivity|].
    eapply mergeArray_shaped; eassumption.
  - destruct data as [[| | | | |props]|]; try discriminate H.
    rewrite _parse_object in H.
    destruct (mergeObjectSync _) as [[out|] iss'] eqn:E; [|discriminate H].
    injection H as <- _. eexists; split; [reflexivity|].
    eapply mergeObjectSync_shaped; eassumption.
  - cbn [all_required] in Hreq. cbn [_parse] in H.
    destruct data as [[]|];
      try (destruct (IH Hreq _ _ _ _ H) as (v & -> & Hv);
           exists v; split; [reflexivity|];
           cbn [shaped]; destruct v; solve [reflexivity | exact Hv]).
    injection H as <- _. eexists; split; reflexivity.
  - discriminate Hreq.
  - cbn [all_required] in Hreq. cbn [_parse] in H.
    exact (IH Hreq _ _ _ _ H).
Qed.

(** A successful [safeParse] with such a schema gives a value of the form
    of the schema. *)
Lemma safeParse_shaped (t : ZodType) (data : json) (d : option json) :
  all_required t = true ->
  safeParse em t data = SafeParseSuccess d ->
  exists v, d = Some v /\ shaped t v = true.
Proof.
  intros Hreq H. unfold safeParse in H.
  destruct (_parse em t [] (Some data)) as [[|r] iss] eqn:E; [discriminate H|].
  injection H as <-. exact (parse_shaped t Hreq _ _ E).
Qed.

End Shaped.

(* ------------------------------------------------------------------ *)
(** ** Consequences of the form of a validated value *)

Lemma shaped_object_cons_inv (k : jsstring) (t : ZodType)
      (shape : list (jsstring * ZodType)) (v : json) :
  shaped (ZodObject ((k, t) :: shape)) v = true ->
  exists v' rest, v = JObj ((k, v') :: rest) /\ shaped t v' = true /\
                  shaped (ZodObject shape) (JObj rest) = true.
Proof.
  intros H. destruct v as [| | | | |props]; try discriminate H.
  destruct props as [|[k' v'] rest]; [discriminate H|].
  rewrite shaped_cons in H.
  apply andb_true_iff in H. destruct H as [H Hrest].
  apply andb_true_iff in H. destruct H as [Hk Hv].
  apply eqb_eq in Hk. subst k'. now exists v', rest.
Qed.

Lemma shaped_object_nil_inv (v : json) :
  shaped (ZodObject []) v = true -> v = JObj [].
Proof.
  intros H. destruct v as [| | | | |props]; try discriminate H.
  destruct props; [reflexivity|discriminate H].
Qed.

Lemma shaped_props_cons_inv (k : jsstring) (t : ZodType)
      (shape : list (jsstring * ZodType)) (props : list (jsstring * json)) :
  shaped (ZodObject ((k, t) :: shape)) (JObj props) = true ->
  exists v' rest, props = (k, v') :: rest /\ shaped t v' = true /\
                  shaped (ZodObject shape) (JObj rest) = true.
Proof.
  intros H. apply shaped_object_cons_inv in H.
  destruct H as (v' & rest & E & H). injection E as ->. now exists v', rest.
Qed.

Lemma shaped_props_nil_inv (props : list (jsstring * json)) :
  shaped (ZodObject []) (JObj props) = true -> props = [].
Proof. intros H. apply shaped_object_nil_inv in H. now injection H. Qed.

Lemma shaped_string_inv (v : json) :
  shaped ZodString v = true -> exists s, v = JStr s.
Proof. destruct v; intros H; try discriminate H. now eexists. Qed.

Lemma shaped_array_inv (element : ZodType) (v : json) :
  shaped (ZodArray element) v = true ->
  exists items, v = JArr items /\ Forall (fun i => shaped element i = true) items.
Proof.
  intros H. destruct v as [| | | |items|]; try discriminate H.
  exists items. split; [reflexivity|].
  apply Forall_forall. cbn [shaped] in H.
  now apply forallb_forall.
Qed.

Lemma shaped_strings_inv (v : json) :
  shaped (ZodArray ZodString) v = true -> exists ss, v = JArr (map JStr ss).
Proof.
  intros H. apply shaped_array_inv in H. destruct H as (items & -> & HF).
  induction HF as [|i items Hi _ IH].
  - now exists [].
  - apply shaped_string_inv in Hi. destruct Hi as [s ->].
    destruct IH as [ss E]. injection E as ->. now exists (s :: ss).
Qed.

(** Taking the next field off an object of the form of a schema. *)
Tactic Notation "next_field" hyp(H) "as" ident(v) ident(Hv) :=
  first [ apply shaped_props_cons_inv in H | apply shaped_object_cons_inv in H ];
  let rest := fresh "rest" in
  destruct H as (v & rest & -> & Hv & H).

Ltac last_field H := apply shaped_props_nil_inv in H; rewrite H in *; clear H.

Lemma shaped_BilingualText (v : json) :
  shaped BilingualText v = true -> bilingual_text (Some v).
Proof.
  intros H. unfold BilingualText in H.
  next_field H as en Hen. next_field H as es Hes. last_field H.
  apply shaped_string_inv in Hen. destruct Hen as [s1 ->].
  apply shaped_string_inv in Hes. destruct Hes as [s2 ->].
  eexists _, s1, s2. repeat split; reflexivity.
Qed.

Lemma shaped_BilingualTextArray (v : json) :
  shaped BilingualTextArray v = true -> bilingual_array (Some v).
Proof.
  intros H. unfold BilingualTextArray in H.
  next_field H as en Hen. next_field H as es Hes. last_field H.
  apply shaped_strings_inv in Hen. destruct Hen as [l1 ->].
  apply shaped_strings_inv in Hes. destruct Hes as [l2 ->].
  eexists _, l1, l2. repeat split; reflexivity.
Qed.

Lemma shaped_array_of (element : ZodType) (P : json -> Prop) (v : json) :
  (forall i, shaped element i = true -> P i) ->
  shaped (ZodArray element) v = true ->
  array_of P (Some v).
Proof.
  intros HP H. apply shaped_array_inv in H. destruct H as (items & -> & HF).
  exists items. split; [reflexivity|].
  eapply Forall_impl; [|exact HF]. exact HP.
Qed.

(** A value of the form of the plan schema has both languages in every
    bilingual field. *)
Lemma shaped_plan_bilingual (plan : json) :
  shaped DiagnosticPlanSchema plan = true -> fully_bilingual plan.
Proof.
  intros H. unfold DiagnosticPlanSchema in H.
  next_field H as version Hversion. next_field H as language Hlanguage.
  next_field H as vehicle Hvehicle. next_field H as concern Hconcern.
  next_field H as overview Hoverview. next_field H as disclaimers Hdisclaimers.
  next_field H as safetyNotes HsafetyNotes. next_field H as specs Hspecs.
  next_field H as steps Hsteps. next_field H as firstStepId HfirstStepId.
  next_field H as sessionId HsessionId. last_field H.
  repeat split.
  - exact (shaped_BilingualText _ Hoverview).
  - exact (shaped_BilingualText _ Hdisclaimers).
  - exact (shaped_BilingualTextArray _ HsafetyNotes).
  - exists specs. split; [reflexivity|].
    next_field Hspecs as labeled Hlabeled. next_field Hspecs as items Hitems.
    last_field Hspecs.
    eapply shaped_array_of; [|exact Hitems].
    intros item Hitem.
    next_field Hitem as name Hname. next_field Hitem as range Hrange.
    next_field Hitem as unit Hunit. next_field Hitem as note Hnote.
    next_field Hitem as estimated Hestimated. last_field Hitem.
    split.
    + exact (shaped_BilingualText _ Hname).
    + exact (shaped_BilingualText _ Hnote).
  - eapply shaped_array_of; [|exact Hsteps].
    intros step Hstep.
    next_field Hstep as id Hid. next_field Hstep as title Htitle.
    next_field Hstep as purpose Hpurpose. next_field Hstep as procedure Hprocedure.
    next_field Hstep as hints Hhints. next_field Hstep as pass Hpass.
    next_field Hstep as fail Hfail. next_field Hstep as onPass HonPass.
    next_field Hstep as onFail HonFail. last_field Hstep.
    repeat split.
    + exact (shaped_BilingualText _ Htitle).
    + exact (shaped_BilingualText _ Hpurpose).
    + exact (shaped_BilingualTextArray _ Hprocedure).
    + eapply shaped_array_of; [|exact Hhints].
      intros hint Hhint.
      next_field Hhint as label Hlabel. next_field Hhint as test Htest.
      next_field Hhint as range Hrange. next_field Hhint as estimated Hestimated.
      next_field Hhint as notes Hnotes. last_field Hhint.
      repeat split.
      * exact (shaped_BilingualText _ Hlabel).
      * exact (shaped_BilingualText _ Htest).
      * exact (shaped_BilingualText _ Hnotes).
    + exact (shaped_BilingualTextArray _ Hpass).
    + exact (shaped_BilingualTextArray _ Hfail).
Qed.

(** The first step id of such a value is a string and its steps are an
    array. *)
Lemma shaped_plan_steps (plan : json) :
  shaped DiagnosticPlanSchema plan = true ->
  (exists id, get (lit "firstStepId") plan = Some (JStr id)) /\
  (exists steps, get (lit "steps") plan = Some (JArr steps)).
Proof.
  intros H. unfold DiagnosticPlanSchema in H.
  next_field H as version Hversion. next_field H as language Hlanguage.
  next_field H as vehicle Hvehicle. next_field H as concern Hconcern.
  next_field H as overview Hoverview. next_field H as disclaimers Hdisclaimers.
  next_field H as safetyNotes HsafetyNotes. next_field H as specs Hspecs.
  next_field H as steps Hsteps. next_field H as firstStepId HfirstStepId.
  next_field H as sessionId HsessionId. last_field H.
  apply shaped_string_inv in HfirstStepId. destruct HfirstStepId as [id ->].
  apply shaped_array_inv in Hsteps. destruct Hsteps as (items & -> & _).
  split; [exists id | exists items]; reflexivity.
Qed.

(** *** Only declared keys *)

Lemma forallb_agree {A : Type} (f g : A -> bool) (l : list A) :
  (forall x, In x l -> f x = g x) -> forallb f l = forallb g l.
Proof.
  induction l as [|a l IH]; intros H; [reflexivity|].
  cbn [forallb]. rewrite (H a) by now left.
  rewrite IH; [reflexivity|]. intros x Hx. apply H. now right.
Qed.

Lemma declared_object (shape : list (jsstring * ZodType)) (props : list (jsstring * json)) :
  declared_keys_only (ZodObject shape) (JObj props)
  = forallb (declared_field shape) props.
Proof.
  cbn [declared_keys_only]. apply forallb_agree. intros kv _.
  induction shape as [|[k t] shape IH]; [reflexivity|].
  cbn [declared_field]. now rewrite IH.
Qed.

Lemma declared_null (t : ZodType) : declared_keys_only t JNull = true.
Proof. induction t; try reflexivity; assumption. Qed.

Lemma shaped_keys (shape : list (jsstring * ZodType)) (props : list (jsstring * json)) :
  shaped (ZodObject shape) (JObj props) = true ->
  map fst props = map fst shape.
Proof.
  revert props. induction shape as [|[k t] shape IH]; intros props H.
  - apply shaped_props_nil_inv in H. now subst.
  - apply shaped_props_cons_inv in H.
    destruct H as (v' & rest & -> & _ & Hrest).
    cbn [map fst]. f_equal. exact (IH _ Hrest).
Qed.

Lemma declared_field_skip (k : jsstring) (t : ZodType)
      (shape : list (jsstring * ZodType)) (props : list (jsstring * json)) :
  existsb (fun kt : jsstring * ZodType => eqb (fst kt) k) shape = false ->
  map fst props = map fst shape ->
  forallb (declared_field ((k, t) :: shape)) props
  = forallb (declared_field shape) props.
Proof.
  intros Hfresh Hkeys. apply forallb_agree. intros kv Hin.
  cbn [declared_field].
  destruct (eqb k (fst kv)) eqn:E; [|reflexivity].
  exfalso. apply eqb_eq in E.
  assert (Hk : In k (map fst shape)).
  { rewrite <- Hkeys, E. now apply in_map. }
  apply in_map_iff in Hk. destruct Hk as (kt & Hfst & Hkt).
  assert (Ht : existsb (fun kt : jsstring * ZodType => eqb (fst kt) k) shape = true).
  { apply existsb_exists. exists kt. split; [exact Hkt|].
    rewrite Hfst. apply eqb_refl. }
  congruence.
Qed.

Lemma shaped_declared (t : ZodType) :
  unique_keys t = true ->
  forall v, shaped t v = true -> declared_keys_only t v = true.
Proof.
  induction t as [| | values | element IH | shape IH | inner IH | inner IH | inner d IH]
    using ZodType_nested_ind; intros Huniq v H.
  - destruct v; solve [reflexivity | discriminate H].
  - destruct v; solve [reflexivity | discriminate H].
  - destruct v; solve [reflexivity | discriminate H].
  - apply shaped_array_inv in H. destruct H as (items & -> & HF).
    cbn [declared_keys_only]. apply forallb_forall. intros i Hi.
    apply IH; [exact Huniq|]. rewrite Forall_forall in HF. now apply HF.
  - destruct v as [| | | | |props]; try discriminate H.
    rewrite declared_object.
    revert props H. induction IH as [|[k t] shape Ht _ IHshape]; intros props H.
    + apply shaped_props_nil_inv in H. now subst.
    + cbn [snd] in Ht. rewrite unique_keys_cons in Huniq.
      apply andb_true_iff in Huniq. destruct Huniq as [Huniq Hrest].
      apply andb_true_iff in Huniq. destruct Huniq as [Hfresh Ht'].
      apply negb_true_iff in Hfresh.
      apply shaped_props_cons_inv in H.
      destruct H as (v' & rest & -> & Hv' & Hshape).
      cbn [forallb]. apply andb_true_iff. split.
      * cbn [declared_field fst snd]. rewrite eqb_refl. now apply Ht.
      * rewrite declared_field_skip by (try assumption; now apply shaped_keys).
        now apply IHshape.
  - cbn [declared_keys_only]. cbn [shaped] in H.
    destruct v; try (now apply IH); apply declared_null.
  - cbn [declared_keys_only]. now apply IH.
  - cbn [declared_keys_only]. now apply IH.
Qed.

(* ------------------------------------------------------------------ *)
(** ** Issues of a failed validation *)

Lemma mergeArray_issues (results : list (ParseReturn * list ZodIssue))
      (iss : list ZodIssue) :
  Forall (fun r => fst r = INVALID -> snd r <> []) results ->
  mergeArray results = (None, iss) -> iss <> [].
Proof.
  intros HF. revert iss. induction HF as [|[r i1] results Hr _ IH]; intros iss H.
  - discriminate H.
  - cbn [mergeArray] in H. destruct (mergeArray results) as [rest i2].
    cbn [fst snd] in Hr.
    destruct r as [|[v|]].
    + injection H as <-. intros E. apply app_eq_nil in E. now apply Hr.
    + destruct rest; [discriminate H|]. injection H as <-.
      intros E. apply app_eq_nil in E. now apply (IH i2).
    + destruct rest; [discriminate H|]. injection H as <-.
      intros E. apply app_eq_nil in E. now apply (IH i2).
Qed.

Lemma mergeObjectSync_issues (pairs : list (jsstring * (ParseReturn * list ZodIssue)))
      (iss : list ZodIssue) :
  Forall (fun kr => fst (snd kr) = INVALID -> snd (snd kr) <> []) pairs ->
  mergeObjectSync pairs = (None, iss) -> iss <> [].
Proof.
  intros HF. revert iss. induction HF as [|[k [r i1]] pairs Hr _ IH]; intros iss H.
  - discriminate H.
  - cbn [mergeObjectSync] in H. destruct (mergeObjectSync pairs) as [rest i2].
    cbn [fst snd] in Hr.
    destruct r as [|[v|]].
    + injection H as <-. intros E. apply app_eq_nil in E. now apply Hr.
    + destruct rest; [|injection H as <-;
                       intros E; apply app_eq_nil in E; now apply (IH i2)].
      destruct (eqb k (lit "__proto__")); discriminate H.
    + destruct rest; [discriminate H|]. injection H as <-.
      intros E. apply app_eq_nil in E. now apply (IH i2).
Qed.

(** A parser that aborts has added an issue. *)
Lemma parse_invalid_issues (em : ZodIssueCode -> jsstring) (t : ZodType) :
  forall path data iss, _parse em t path data = (INVALID, iss) -> iss <> [].
Proof.
  induction t as [| | values | element IH | shape IH | inner IH | inner IH | inner d IH]
    using ZodType_nested_ind; intros path data iss H.
  - cbn in H. destruct data as [[]|]; try discriminate H;
      injection H as <-; discriminate.
  - cbn in H. destruct data as [[]|]; try discriminate H;
      injection H as <-; discriminate.
  - cbn [_parse] in H. destruct data as [[]|];
      try (injection H as <-; discriminate).
    destruct (existsb (eqb s) values); [discriminate H|].
    injection H as <-. discriminate.
  - destruct data as [[| | | |items|]|];
      try (cbn in H; injection H as <-; discriminate).
    rewrite _parse_array in H.
    destruct (mergeArray _) as [[vs|] iss'] eqn:E; [discriminate H|].
    injection H as <-. eapply mergeArray_issues; [|exact E].
    apply Forall_forall. intros [r i1] Hin. apply in_map_iff in Hin.
    destruct Hin as ([i item] & Hpair & _). cbn [fst snd]. intros ->.
    exact (IH _ _ _ Hpair).
  - destruct data as [[| | | | |props]|];
      try (cbn in H; injection H as <-; discriminate).
    rewrite _parse_object in H.
    destruct (mergeObjectSync _) as [[out|] iss'] eqn:E; [discriminate H|].
    injection H as <-. eapply mergeObjectSync_issues; [|exact E].
    apply Forall_forall. intros [k [r i1]] Hin. apply in_map_iff in Hin.
    destruct Hin as ([k' t'] & Hpair & Hin'). injection Hpair as -> Hparse.
    cbn [fst snd]. intros ->.
    rewrite Forall_forall in IH. exact (IH _ Hin' _ _ _ Hparse).
  - cbn [_parse] in H. destruct data as [[]|]; try exact (IH _ _ _ H).
    discriminate H.
  - cbn [_parse] in H. destruct data as [d|]; [exact (IH _ _ _ H)|discriminate H].
  - cbn [_parse] in H. exact (IH _ _ _ H).
Qed.

Lemma safeParse_error_issues (em : ZodIssueCode -> jsstring) (t : ZodType)
      (data : json) (issues : list ZodIssue) :
  safeParse em t data = SafeParseError issues -> issues <> [].
Proof.
  unfold safeParse. destruct (_parse em t [] (Some data)) as [[|r] iss] eqn:E;
    intros H; [|discriminate H].
  injection H as <-. exact (parse_invalid_issues _ _ _ _ E).
Qed.

(* ------------------------------------------------------------------ *)
(** ** The handler, step by step *)

Section HandlerFacts.

Variable host : Host.
Variable Provider : Type.
Variable create : Provider -> CreateParams -> CreateResult * Provider.

(** One iteration of the loop. *)
Lemma attempts_cons (prompt : jsstring) (attempt : Z) (todo : list Z)
      (rawText : jsstring) (lastErr : option JsError) (w : World Provider)
      (r : CreateResult) (p' : Provider) :
  create (provider w) (call_of host prompt attempt lastErr) = (r, p') ->
  attempts host create prompt (attempt :: todo) rawText lastErr w
  = let w' := {| provider := p';
                 calls := calls w ++ [(call_of host prompt attempt lastErr, r)] |} in
    match r with
    | Rejects e => (Throw e, w')
    | Resolves output_text =>
        match check host output_text with
        | Validated data => (Value (Returned (success_response data)), w')
        | Failed e =>
            attempts host create prompt todo (raw_text output_text) (Some e) w'
        end
    end.
Proof.
  intros Hcreate. cbn [attempts]. unfold bind at 1. unfold openai_responses_create.
  fold (call_of host prompt attempt lastErr). rewrite Hcreate.
  destruct r as [e|output_text]; [reflexivity|].
  unfold check, success_response. fold (raw_text output_text).
  fold (extracted_block (raw_text output_text)).
  destruct (JSON_parse host (extracted_block (raw_text output_text))) as [m|parsed];
    [reflexivity|].
  destruct (safeParse (errorMap host) DiagnosticPlanSchema parsed); reflexivity.
Qed.

(** The handler on a request that passes input validation: the loop, and
    the mapping of its three ways to end. *)
Lemma POST_valid (req : Request) (input : json) (w : World Provider) :
  passes_validation host req input ->
  POST host create req w
  = match attempts host create (build_prompt host input) [1%Z; 2%Z] (lit "") None w with
    | (Value (Returned r), w') => (Value r, w')
    | (Value (Completed rawText lastErr), w') =>
        (Value (exhausted_response (zodErrToShortString host lastErr) rawText), w')
    | (Throw e, w') => (Value (caught_response host e), w')
    end.
Proof.
  intros [Hkey (body & Hbody & Hinput)].
  unfold POST, try_catch. rewrite Hkey, Hbody.
  unfold bind at 1. unfold ret at 1.
  unfold bind at 1. unfold parse. rewrite Hinput. unfold ret at 1.
  unfold bind at 1. unfold ret at 1.
  unfold bind at 1.
  change (counter_values 1 2) with [1%Z; 2%Z].
  destruct (attempts host create (build_prompt host input) [1%Z; 2%Z] (lit "") None w)
    as [[[r|rawText lastErr]|e] w']; reflexivity.
Qed.

(** The handler on a request that does not pass input validation makes no
    call and answers with [ok: false]. *)
Lemma POST_invalid (req : Request) (w : World Provider) :
  (forall input, ~ passes_validation host req input) ->
  exists r, POST host create req w = (Value r, w) /\
            get (lit "ok") (body r) = Some (JBool false).
Proof.
  intros Hnot. unfold POST, try_catch.
  destruct (falsy (OPENAI_API_KEY req)) eqn:Hkey.
  - eexists; split; reflexivity.
  - destruct (req_json req) as [e|body] eqn:Hbody.
    + eexists; split; reflexivity.
    + unfold bind at 1. unfold ret at 1. unfold bind at 1. unfold parse.
      destruct (safeParse (errorMap host) DiagnosticInputSchema body) as [d|issues] eqn:Hinput.
      * destruct d as [input|].
        -- exfalso. apply (Hnot input). split; [exact Hkey|].
           exists body. split; [exact Hbody|exact Hinput].
        -- eexists; split; reflexivity.
      * eexists; split; reflexivity.
Qed.

(** The handler always answers: whatever is thrown inside is caught. *)
Lemma POST_returns (req : Request) (w : World Provider) :
  exists r w', POST host create req w = (Value r, w').
Proof.
  unfold POST, try_catch.
  match goal with
  | |- context [match ?m w with _ => _ end] => destruct (m w) as [[r|e] w']
  end.
  - now exists r, w'.
  - eexists _, w'. reflexivity.
Qed.

Section ValidRequest.

Variable req : Request.
Variable inp : json.
Hypothesis Hvalid : passes_validation host req inp.

Variable p : Provider.

Lemma call_of_first :
  call_of host (build_prompt host inp) 1 None = first_call (build_prompt host inp).
Proof. reflexivity. Qed.

Lemma call_of_second (e : JsError) :
  call_of host (build_prompt host inp) 2 (Some e)
  = repair_call host (build_prompt host inp) e.
Proof. reflexivity. Qed.

Lemma run_first_rejects (e : JsError) (p1 : Provider) :
  create p (first_call (build_prompt host inp)) = (Rejects e, p1) ->
  run host create req p
  = (Value (caught_response host e),
     {| provider := p1;
        calls := [(first_call (build_prompt host inp), Rejects e)] |}).
Proof.
  intros H1. unfold run. rewrite (POST_valid _ Hvalid).
  erewrite attempts_cons by (rewrite call_of_first; exact H1).
  reflexivity.
Qed.

Lemma run_first_validated (t1 : option jsstring) (p1 : Provider) (d : option json) :
  create p (first_call (build_prompt host inp)) = (Resolves t1, p1) ->
  check host t1 = Validated d ->
  run host create req p
  = (Value (success_response d),
     {| provider := p1;
        calls := [(first_call (build_prompt host inp), Resolves t1)] |}).
Proof.
  intros H1 Hc. unfold run. rewrite (POST_valid _ Hvalid).
  erewrite attempts_cons by (rewrite call_of_first; exact H1).
  cbv beta iota zeta. rewrite Hc. reflexivity.
Qed.

Lemma run_second (t1 : option jsstring) (p1 : Provider) (e1 : JsError)
      (r2 : CreateResult) (p2 : Provider) :
  create p (first_call (build_prompt host inp)) = (Resolves t1, p1) ->
  check host t1 = Failed e1 ->
  create p1 (repair_call host (build_prompt host inp) e1) = (r2, p2) ->
  run host create req p
  = (Value
       match r2 with
       | Rejects e => caught_response host e
       | Resolves t2 =>
           match check host t2 with
           | Validated d => success_response d
           | Failed e2 =>
               exhausted_response (zodErrToShortString host (Some e2)) (raw_text t2)
           end
       end,
     {| provider := p2;
        calls := [ (first_call (build_prompt host inp), Resolves t1);
                   (repair_call host (build_prompt host inp) e1, r2) ] |}).
Proof.
  intros H1 Hc H2. unfold run. rewrite (POST_valid _ Hvalid).
  erewrite attempts_cons by (rewrite call_of_first; exact H1).
  cbv beta iota zeta. rewrite Hc.
  erewrite attempts_cons by (rewrite call_of_second; exact H2).
  cbv beta iota zeta. rewrite call_of_first, call_of_second. cbn [app calls provider].
  destruct r2 as [e|t2]; [reflexivity|].
  destruct (check host t2); reflexivity.
Qed.

End ValidRequest.

End HandlerFacts.

(* ------------------------------------------------------------------ *)
(** ** The handler: credential, calls and responses *)

Lemma sample_request_valid :
  passes_validation Samples.sample_host Samples.sample_request Samples.sample_input.
Proof.
  split; [reflexivity|]. exists Samples.sample_body. split; reflexivity.
Qed.

(** C3. For every request, when the environment value [OPENAI_API_KEY] is
    unset the handler answers with [ok: false] and the HTTP status 500, and
    makes no call to the provider. *)
Theorem missing_credential_no_call
        (host : Host) (Provider : Type)
        (create : Provider -> CreateParams -> CreateResult * Provider)
        (req : Request) (p : Provider) :
  OPENAI_API_KEY req = None ->
  run host create req p
  = (Value missing_key_response, {| provider := p; calls := [] |}) /\
  get (lit "ok") (body missing_key_response) = Some (JBool false) /\
  status missing_key_response = 500%Z.
Proof.
  intros Hkey. unfold run, POST, try_catch. rewrite Hkey.
  repeat split.
Qed.

Lemma missing_credential_no_call_witness :
  run Samples.sample_host Samples.scripted Samples.request_without_key
      [Resolves (Some (Samples.render Samples.plan_one_step))]
  = (Value missing_key_response,
     {| provider := [Resolves (Some (Samples.render Samples.plan_one_step))];
        calls := [] |}).
Proof.
  exact (proj1 (@missing_credential_no_call Samples.sample_host _ Samples.scripted
                  Samples.request_without_key
                  [Resolves (Some (Samples.render Samples.plan_one_step))]
                  eq_refl)).
Defined.

(** C1, as the code has it. For every request that passes input
    validation the handler makes at most two calls.  When the first call
    returns a text whose extracted JSON validates, the handler returns
    [{ ok: true, plan }] after that one call.  When the first call returns
    a text that fails to parse or to validate, the handler makes exactly
    one repair call and no third one, whatever the second attempt gives.
    When the first call is rejected, the handler answers with the status
    400 after that one call. *)
Theorem at_most_one_repair_call
        (host : Host) (Provider : Type)
        (create : Provider -> CreateParams -> CreateResult * Provider)
        (req : Request) (inp : json) (p : Provider)
        (r1 : CreateResult) (p1 : Provider) :
  passes_validation host req inp ->
  create p (first_call (build_prompt host inp)) = (r1, p1) ->
  let prompt := build_prompt host inp in
  let out := fst (run host create req p) in
  let made := calls (snd (run host create req p)) in
  (length made <= 2)%nat /\
  match r1 with
  | Resolves t1 =>
      match check host t1 with
      | Validated d =>
          out = Value (success_response d) /\ made = [(first_call prompt, r1)]
      | Failed e1 =>
          exists r2,
            made = [(first_call prompt, r1); (repair_call host prompt e1, r2)]
      end
  | Rejects e =>
      out = Value (caught_response host e) /\ made = [(first_call prompt, r1)]
  end.
Proof.
  intros Hvalid H1 prompt out made. subst out made.
  destruct r1 as [e|t1].
  - rewrite (run_first_rejects create Hvalid p H1). cbn [fst snd calls length].
    repeat split. lia.
  - destruct (check host t1) as [d|e1] eqn:Hc.
    + rewrite (run_first_validated create Hvalid p H1 Hc). cbn [fst snd calls length].
      repeat split. lia.
    + destruct (create p1 (repair_call host prompt e1)) as [r2 p2] eqn:H2.
      rewrite (run_second create Hvalid p H1 Hc H2). cbn [fst snd calls length].
      split; [lia|]. now exists r2.
Qed.

Lemma at_most_one_repair_call_witness :
  (length
     (calls
        (snd (run Samples.sample_host Samples.scripted Samples.sample_request
                  [Resolves (Some (lit "{}")); Resolves (Some Samples.prose)])))
   <= 2)%nat.
Proof.
  exact (proj1 (@at_most_one_repair_call Samples.sample_host _ Samples.scripted
                  Samples.sample_request Samples.sample_input
                  [Resolves (Some (lit "{}")); Resolves (Some Samples.prose)]
                  (Resolves (Some (lit "{}"))) [Resolves (Some Samples.prose)]
                  sample_request_valid eq_refl)).
Defined.

(** C1, as the specification states it, fails when the first call is
    rejected: the request passes input validation and the first attempt
    gives no plan, yet the handler makes no repair call and answers with
    the status 400. *)
Lemma rejected_first_call_not_repaired :
  passes_validation Samples.sample_host Samples.sample_request Samples.sample_input /\
  run Samples.sample_host Samples.scripted Samples.sample_request
      [Rejects (OtherError (lit "Error") (lit "Connection error."))]
  = (Value (caught_response Samples.sample_host
              (OtherError (lit "Error") (lit "Connection error."))),
     {| provider := [];
        calls := [ (first_call Samples.sample_prompt,
                    Rejects (OtherError (lit "Error") (lit "Connection error."))) ] |}) /\
  status (caught_response Samples.sample_host
            (OtherError (lit "Error") (lit "Connection error."))) = 400%Z.
Proof.
  split; [exact sample_request_valid|]. split; [|reflexivity].
  vm_compute. reflexivity.
Qed.

(* ------------------------------------------------------------------ *)
(** ** The handler: the final failure *)

Lemma check_failed_inv (host : Host) (t : option jsstring) (e : JsError) :
  check host t = Failed e ->
  (exists m, e = SyntaxError m /\
             JSON_parse host (extracted_block (raw_text t)) = inl m) \/
  (exists parsed issues,
      e = ZodError issues /\ issues <> [] /\
      JSON_parse host (extracted_block (raw_text t)) = inr parsed /\
      safeParse (errorMap host) DiagnosticPlanSchema parsed = SafeParseError issues).
Proof.
  unfold check. intros H.
  destruct (JSON_parse host (extracted_block (raw_text t))) as [m|parsed].
  - left. exists m. split; [congruence|reflexivity].
  - right.
    destruct (safeParse (errorMap host) DiagnosticPlanSchema parsed) as [d|issues] eqn:E;
      [discriminate H|].
    exists parsed, issues. repeat split; try congruence.
    exact (safeParse_error_issues _ _ _ E).
Qed.

Lemma check_validated_inv (host : Host) (t : option jsstring) (d : option json) :
  check host t = Validated d ->
  exists parsed plan,
    d = Some plan /\
    JSON_parse host (extracted_block (raw_text t)) = inr parsed /\
    safeParse (errorMap host) DiagnosticPlanSchema parsed = SafeParseSuccess (Some plan) /\
    shaped DiagnosticPlanSchema plan = true.
Proof.
  unfold check. intros H.
  destruct (JSON_parse host (extracted_block (raw_text t))) as [m|parsed];
    [discriminate H|].
  destruct (safeParse (errorMap host) DiagnosticPlanSchema parsed) as [d'|issues] eqn:E;
    [|discriminate H].
  injection H as ->.
  destruct (@safeParse_shaped (errorMap host) DiagnosticPlanSchema parsed d
              eq_refl E) as (plan & -> & Hshape).
  exists parsed, plan. repeat split; assumption.
Qed.

Lemma zodErrToShortString_issues (host : Host) (issues : list ZodIssue) :
  issues <> [] ->
  zodErrToShortString host (Some (ZodError issues))
  = join (lit "; ") (map issue_line (firstn 8 issues)).
Proof. destruct issues; [congruence|reflexivity]. Qed.

(** C2, as the code has it. Whenever both attempts return a text that
    fails (by a JSON parse error or by a mismatch with the output schema),
    the handler answers [ok: false] with the status 500; [raw] is the text
    of the second attempt; when the second attempt failed the schema,
    [detail] is the first 8 validation issues, each as path and message,
    joined with a semicolon and a space; when the second attempt failed to
    parse, [detail] is the parse error as a string. *)
Theorem both_attempts_fail
        (host : Host) (Provider : Type)
        (create : Provider -> CreateParams -> CreateResult * Provider)
        (req : Request) (inp : json) (p p1 p2 : Provider)
        (t1 t2 : option jsstring) (e1 e2 : JsError) :
  passes_validation host req inp ->
  create p (first_call (build_prompt host inp)) = (Resolves t1, p1) ->
  check host t1 = Failed e1 ->
  create p1 (repair_call host (build_prompt host inp) e1) = (Resolves t2, p2) ->
  check host t2 = Failed e2 ->
  exists detail,
    fst (run host create req p) = Value (exhausted_response detail (raw_text t2)) /\
    get (lit "ok") (body (exhausted_response detail (raw_text t2))) = Some (JBool false) /\
    get (lit "raw") (body (exhausted_response detail (raw_text t2)))
    = Some (JStr (raw_text t2)) /\
    get (lit "detail") (body (exhausted_response detail (raw_text t2)))
    = Some (JStr detail) /\
    status (exhausted_response detail (raw_text t2)) = 500%Z /\
    match e2 with
    | ZodError issues =>
        detail = join (lit "; ") (map issue_line (firstn 8 issues))
    | _ => detail = String_ host (Some e2)
    end.
Proof.
  intros Hvalid H1 Hc1 H2 Hc2.
  exists (zodErrToShortString host (Some e2)).
  rewrite (run_second create Hvalid p H1 Hc1 H2). rewrite Hc2.
  repeat split.
  destruct (check_failed_inv _ _ Hc2) as [(m & -> & _)|(parsed & issues & -> & Hne & _)].
  - reflexivity.
  - now apply zodErrToShortString_issues.
Qed.

Lemma both_attempts_fail_witness :
  exists detail,
    fst (run Samples.sample_host Samples.scripted Samples.sample_request
             [Resolves (Some Samples.prose); Resolves (Some (lit "{}"))])
    = Value (exhausted_response detail (lit "{}")) /\
    detail
    = join (lit "; ")
        (map issue_line (firstn 8 Samples.empty_object_issues)).
Proof.
  destruct (@both_attempts_fail Samples.sample_host _ Samples.scripted
              Samples.sample_request Samples.sample_input
              [Resolves (Some Samples.prose); Resolves (Some (lit "{}"))]
              [Resolves (Some (lit "{}"))] []
              (Some Samples.prose) (Some (lit "{}"))
              (SyntaxError (lit "Unexpected token"))
              (ZodError Samples.empty_object_issues)
              sample_request_valid eq_refl eq_refl eq_refl eq_refl)
    as (detail & Hrun & _ & _ & _ & _ & Hdetail).
  exists detail. split; [exact Hrun|exact Hdetail].
Defined.

(** C2, as the specification states it, fails when the second attempt is
    not JSON: the last error then carries no validation issue, and
    [detail] is the parse error as a string, not the (empty) list of
    issues. *)
Lemma parse_error_detail_is_not_an_issue_list :
  run Samples.sample_host Samples.scripted Samples.sample_request
      [Resolves (Some (lit "{}")); Resolves (Some Samples.prose)]
  = (Value (exhausted_response (lit "SyntaxError: Unexpected token") Samples.prose),
     {| provider := [];
        calls :=
          [ (first_call Samples.sample_prompt, Resolves (Some (lit "{}")));
            (repair_call Samples.sample_host Samples.sample_prompt
               (ZodError Samples.empty_object_issues),
             Resolves (Some Samples.prose)) ] |}) /\
  check Samples.sample_host (Some Samples.prose)
  = Failed (SyntaxError (lit "Unexpected token")) /\
  described_detail (SyntaxError (lit "Unexpected token")) = lit "" /\
  lit "SyntaxError: Unexpected token"
  <> described_detail (SyntaxError (lit "Unexpected token")).
Proof.
  split; [vm_compute; reflexivity|].
  split; [vm_compute; reflexivity|].
  split; [reflexivity|].
  vm_compute. discriminate.
Qed.

(* ------------------------------------------------------------------ *)
(** ** The handler: the repair prompt *)

Lemma starts_with_app (pat s rest : jsstring) :
  starts_with pat s = true -> starts_with pat (s ++ rest) = true.
Proof.
  revert s. induction pat as [|c pat IH]; intros s H; [reflexivity|].
  destruct s as [|x s]; [discriminate H|].
  cbn [starts_with app] in *. apply andb_true_iff in H. destruct H as [Hx Hs].
  now rewrite Hx, IH.
Qed.

Lemma starts_with_self (pat rest : jsstring) : starts_with pat (pat ++ rest) = true.
Proof.
  induction pat as [|c pat IH]; [reflexivity|].
  cbn [starts_with app]. now rewrite N.eqb_refl, IH.
Qed.

Lemma includes_head (pat s : jsstring) :
  starts_with pat s = true -> includes pat s = true.
Proof. intros H. destruct s; cbn [includes]; now rewrite H. Qed.

Lemma includes_app_l (pat before s : jsstring) :
  includes pat s = true -> includes pat (before ++ s) = true.
Proof.
  intros H. induction before as [|c before IH]; [exact H|].
  cbn [app includes]. rewrite IH. apply orb_true_r.
Qed.

Lemma includes_app_r (pat s after : jsstring) :
  includes pat s = true -> includes pat (s ++ after) = true.
Proof.
  induction s as [|c s IH]; intros H.
  - cbn [includes] in H. rewrite orb_false_r in H.
    apply includes_head. exact (starts_with_app _ _ after H).
  - cbn [includes] in H. apply orb_true_iff in H. destruct H as [H|H].
    + apply includes_head. exact (starts_with_app _ _ after H).
    + cbn [app includes]. rewrite (IH H). apply orb_true_r.
Qed.

Lemma includes_self (pat : jsstring) : includes pat pat = true.
Proof.
  apply includes_head. rewrite <- (app_nil_r pat) at 2. apply starts_with_self.
Qed.

Lemma includes_join (sep x : jsstring) (parts : list jsstring) :
  In x parts -> includes x (join sep parts) = true.
Proof.
  induction parts as [|p parts IH]; intros Hin; [destruct Hin|].
  destruct parts as [|p' parts].
  - destruct Hin as [->|[]]. apply includes_self.
  - change (join sep (p :: p' :: parts)) with (p ++ sep ++ join sep (p' :: parts)).
    destruct Hin as [->|Hin].
    + apply includes_app_r, includes_self.
    + apply includes_app_l, includes_app_l. now apply IH.
Qed.

(** C4, as the code has it. Whenever the JSON of the first attempt fails
    the output schema, the prompt of the second call is the original prompt
    followed by the first 8 validation issues of that failure, each as path
    and message, and by the instruction to return corrected JSON; so each
    of these first 8 issue strings occurs in the second prompt. *)
Theorem repair_prompt_has_first_issues
        (host : Host) (Provider : Type)
        (create : Provider -> CreateParams -> CreateResult * Provider)
        (req : Request) (inp : json) (p p1 : Provider)
        (t1 : option jsstring) (parsed : json) (issues : list ZodIssue) :
  passes_validation host req inp ->
  create p (first_call (build_prompt host inp)) = (Resolves t1, p1) ->
  JSON_parse host (extracted_block (raw_text t1)) = inr parsed ->
  safeParse (errorMap host) DiagnosticPlanSchema parsed = SafeParseError issues ->
  exists second r2,
    calls (snd (run host create req p))
    = [ (first_call (build_prompt host inp), Resolves t1); (second, r2) ] /\
    input second
    = build_prompt host inp ++ nl ++ nl
      ++ lit "Your previous JSON failed validation with these issues:" ++ nl
      ++ join (lit "; ") (map issue_line (firstn 8 issues)) ++ nl ++ nl
      ++ lit "Return ONLY corrected JSON that satisfies the structure exactly. Do not omit required keys." /\
    forall i, In i (firstn 8 issues) ->
              includes (issue_line i) (input second) = true.
Proof.
  intros Hvalid H1 Hparse Hsafe.
  assert (Hc : check host t1 = Failed (ZodError issues)).
  { unfold check. now rewrite Hparse, Hsafe. }
  pose proof (safeParse_error_issues _ _ _ Hsafe) as Hne.
  destruct (create p1 (repair_call host (build_prompt host inp) (ZodError issues)))
    as [r2 p2] eqn:H2.
  exists (repair_call host (build_prompt host inp) (ZodError issues)), r2.
  rewrite (run_second create Hvalid p H1 Hc H2). cbn [snd calls].
  split; [reflexivity|].
  assert (E : input
                (repair_call host (build_prompt host inp) (ZodError issues))
              = build_prompt host inp ++ nl ++ nl
                ++ lit "Your previous JSON failed validation with these issues:" ++ nl
                ++ join (lit "; ") (map issue_line (firstn 8 issues)) ++ nl ++ nl
                ++ lit "Return ONLY corrected JSON that satisfies the structure exactly. Do not omit required keys.").
  { cbn [repair_call input]. unfold repair_prompt.
    now rewrite zodErrToShortString_issues. }
  split; [exact E|].
  intros i Hin. rewrite E.
  do 5 apply includes_app_l. apply includes_app_r.
  apply includes_join. now apply in_map.
Qed.

Lemma repair_prompt_has_first_issues_witness :
  exists second r2,
    calls (snd (run Samples.sample_host Samples.scripted Samples.sample_request
                    [Resolves (Some (lit "{}")); Resolves (Some Samples.prose)]))
    = [ (first_call Samples.sample_prompt, Resolves (Some (lit "{}"))); (second, r2) ] /\
    includes (lit "version: Required") (input second) = true.
Proof.
  destruct (@repair_prompt_has_first_issues Samples.sample_host _ Samples.scripted
              Samples.sample_request Samples.sample_input
              [Resolves (Some (lit "{}")); Resolves (Some Samples.prose)]
              [Resolves (Some Samples.prose)]
              (Some (lit "{}")) (JObj []) Samples.empty_object_issues
              sample_request_valid eq_refl eq_refl eq_refl)
    as (second & r2 & Hcalls & _ & Hin).
  exists second, r2. split; [exact Hcalls|].
  apply (Hin (Samples.missing "version" (exp_type zpt_string))).
  left. reflexivity.
Defined.

(** C4, as the specification states it, fails when the first failure has
    more than 8 issues: for the empty object the output schema reports 11
    issues, and the ninth, [steps: Required], occurs neither in the prompt
    nor in the repair prompt. *)
Lemma ninth_issue_not_in_repair_prompt :
  safeParse (errorMap Samples.sample_host) DiagnosticPlanSchema (JObj [])
  = SafeParseError Samples.empty_object_issues /\
  nth_error Samples.empty_object_issues 8
  = Some (Samples.missing "steps" (exp_type zpt_array)) /\
  issue_line (Samples.missing "steps" (exp_type zpt_array)) = lit "steps: Required" /\
  map (fun c => includes (lit "steps: Required") (input (fst c)))
      (calls (snd (run Samples.sample_host Samples.scripted Samples.sample_request
                       [Resolves (Some (lit "{}")); Resolves (Some Samples.prose)])))
  = [false; false].
Proof.
  split; [|split; [|split]]; vm_compute; reflexivity.
Qed.

(* ------------------------------------------------------------------ *)
(** ** The handler: success responses *)

Lemma validation_cases (host : Host) (req : Request) :
  (exists inp, passes_validation host req inp) \/
  (forall inp, ~ passes_validation host req inp).
Proof.
  unfold passes_validation.
  destruct (falsy (OPENAI_API_KEY req)) eqn:Hkey.
  - right. intros inp [H _]. discriminate H.
  - destruct (req_json req) as [e|b] eqn:Hbody.
    + right. intros inp [_ (b & Hb & _)]. discriminate Hb.
    + destruct (safeParse (errorMap host) DiagnosticInputSchema b) as [[inp|]|issues] eqn:E.
      * left. exists inp. split; [reflexivity|]. now exists b.
      * right. intros inp [_ (b' & Hb & Hs)]. injection Hb as <-. congruence.
      * right. intros inp [_ (b' & Hb & Hs)]. injection Hb as <-. congruence.
Qed.

(** A response with [ok: true] is the success response of the last call
    made: the text of that call gave a value the output schema accepts. *)
Lemma run_success_inv
      (host : Host) (Provider : Type)
      (create : Provider -> CreateParams -> CreateResult * Provider)
      (req : Request) (p : Provider) (r : NextResponse) (w : World Provider) :
  run host create req p = (Value r, w) ->
  get (lit "ok") (body r) = Some (JBool true) ->
  exists earlier params output_text d,
    calls w = earlier ++ [(params, Resolves output_text)] /\
    check host output_text = Validated d /\
    r = success_response d.
Proof.
  intros Hrun Hok.
  destruct (validation_cases host req) as [[inp Hvalid]|Hinvalid].
  - destruct (create p (first_call (build_prompt host inp))) as [r1 p1] eqn:H1.
    destruct r1 as [e|t1].
    + rewrite (run_first_rejects create Hvalid p H1) in Hrun.
      injection Hrun as <- _. discriminate Hok.
    + destruct (check host t1) as [d|e1] eqn:Hc1.
      * rewrite (run_first_validated create Hvalid p H1 Hc1) in Hrun.
        injection Hrun as <- <-.
        exists [], (first_call (build_prompt host inp)), t1, d. now repeat split.
      * destruct (create p1 (repair_call host (build_prompt host inp) e1))
          as [r2 p2] eqn:H2.
        rewrite (run_second create Hvalid p H1 Hc1 H2) in Hrun.
        injection Hrun as <- <-.
        destruct r2 as [e|t2]; [discriminate Hok|].
        destruct (check host t2) as [d|e2] eqn:Hc2; [|discriminate Hok].
        exists [(first_call (build_prompt host inp), Resolves t1)],
          (repair_call host (build_prompt host inp) e1), t2, d.
        now repeat split.
  - destruct (POST_invalid create {| provider := p; calls := [] |} Hinvalid)
      as (r' & Hpost & Hok').
    unfold run in Hrun. rewrite Hpost in Hrun. injection Hrun as <- _.
    congruence.
Qed.

(** C8, as the code has it. For every valid input, whenever the first
    response of the provider parses and validates against the output
    schema, the response of the handler is [{ ok: true, plan }] with the
    validated plan; its [firstStepId] is a string and its [steps] are an
    array, of any value and of any length. *)
Theorem first_response_validates
        (host : Host) (Provider : Type)
        (create : Provider -> CreateParams -> CreateResult * Provider)
        (req : Request) (inp : json) (p p1 : Provider)
        (t1 : option jsstring) (parsed : json) (d : option json) :
  passes_validation host req inp ->
  create p (first_call (build_prompt host inp)) = (Resolves t1, p1) ->
  JSON_parse host (extracted_block (raw_text t1)) = inr parsed ->
  safeParse (errorMap host) DiagnosticPlanSchema parsed = SafeParseSuccess d ->
  exists plan,
    d = Some plan /\
    fst (run host create req p)
    = Value {| body := JObj [ (lit "ok", JBool true); (lit "plan", plan) ];
               status := 200 |} /\
    (exists id, get (lit "firstStepId") plan = Some (JStr id)) /\
    (exists steps, get (lit "steps") plan = Some (JArr steps)).
Proof.
  intros Hvalid H1 Hparse Hsafe.
  assert (Hc : check host t1 = Validated d).
  { unfold check. now rewrite Hparse, Hsafe. }
  destruct (check_validated_inv _ _ Hc) as (parsed' & plan & -> & _ & _ & Hshape).
  exists plan. split; [reflexivity|].
  rewrite (run_first_validated create Hvalid p H1 Hc).
  split; [reflexivity|].
  exact (shaped_plan_steps _ Hshape).
Qed.

Lemma first_response_validates_witness :
  fst (run Samples.sample_host Samples.scripted Samples.sample_request
           [Resolves (Some (Samples.fenced Samples.plan_one_step))])
  = Value {| body := JObj [ (lit "ok", JBool true);
                            (lit "plan", Samples.plan_one_step) ];
             status := 200 |}.
Proof.
  destruct (@first_response_validates Samples.sample_host _ Samples.scripted
              Samples.sample_request Samples.sample_input
              [Resolves (Some (Samples.fenced Samples.plan_one_step))] []
              (Some (Samples.fenced Samples.plan_one_step))
              Samples.plan_one_step (Some Samples.plan_one_step)
              sample_request_valid eq_refl eq_refl eq_refl)
    as (plan & E & Hrun & _).
  injection E as <-. exact Hrun.
Defined.

(** C8, as the specification states it, fails: the output schema accepts
    a plan whose [firstStepId] is not [step-1] and that has no step at
    all, and the handler returns it with [ok: true]. *)
Lemma plan_without_steps_is_returned :
  passes_validation Samples.sample_host Samples.sample_request Samples.sample_input /\
  run Samples.sample_host Samples.scripted Samples.sample_request
      [Resolves (Some (Samples.render Samples.plan_without_steps))]
  = (Value {| body := JObj [ (lit "ok", JBool true);
                             (lit "plan", Samples.plan_without_steps) ];
              status := 200 |},
     {| provider := [];
        calls := [ (first_call Samples.sample_prompt,
                    Resolves (Some (Samples.render Samples.plan_without_steps))) ] |}) /\
  get (lit "firstStepId") Samples.plan_without_steps = Some (JStr (lit "start")) /\
  get (lit "firstStepId") Samples.plan_without_steps <> Some (JStr (lit "step-1")) /\
  get (lit "steps") Samples.plan_without_steps = Some (JArr []).
Proof.
  split; [exact sample_request_valid|].
  split; [vm_compute; reflexivity|].
  split; [reflexivity|].
  split; [vm_compute; discriminate|reflexivity].
Qed.

(** C9. Every plan returned in a success response is fully bilingual:
    each bilingual text field holds a string under [en] and under [es],
    each bilingual list field holds an array of strings under [en] and
    under [es], whatever the request (and so whatever its locale). *)
Theorem success_plan_is_bilingual
        (host : Host) (Provider : Type)
        (create : Provider -> CreateParams -> CreateResult * Provider)
        (req : Request) (p : Provider) (r : NextResponse) (w : World Provider) :
  run host create req p = (Value r, w) ->
  get (lit "ok") (body r) = Some (JBool true) ->
  exists plan, get (lit "plan") (body r) = Some plan /\ fully_bilingual plan.
Proof.
  intros Hrun Hok.
  destruct (@run_success_inv host Provider create req p r w Hrun Hok) as (earlier & params & t & d & _ & Hc & ->).
  destruct (check_validated_inv _ _ Hc) as (parsed & plan & -> & _ & _ & Hshape).
  exists plan. split; [reflexivity|].
  exact (shaped_plan_bilingual _ Hshape).
Qed.

Lemma success_plan_is_bilingual_witness :
  exists plan,
    get (lit "plan")
        (body {| body := JObj [ (lit "ok", JBool true);
                                (lit "plan", Samples.plan_one_step) ];
                 status := 200 |}) = Some plan /\
    fully_bilingual plan.
Proof.
  apply (@success_plan_is_bilingual Samples.sample_host _ Samples.scripted
           {| OPENAI_API_KEY := Some (lit "sk-test");
              req_json :=
                inr (JObj [ (lit "make", JStr (lit "Honda"));
                            (lit "model", JStr (lit "Civic"));
                            (lit "year", JStr (lit "2015"));
                            (lit "engine", JStr (lit "1.8L"));
                            (lit "dtcs", JArr [JStr (lit "P0420")]);
                            (lit "symptom", JStr (lit "Check engine light on"));
                            (lit "language", JStr (lit "es")) ]) |}
           [Resolves (Some (Samples.fenced Samples.plan_one_step))]
           _
           {| provider := [];
              calls := [ (first_call
                            (build_prompt Samples.sample_host
                               (JObj [ (lit "make", JStr (lit "Honda"));
                                       (lit "model", JStr (lit "Civic"));
                                       (lit "year", JStr (lit "2015"));
                                       (lit "engine", JStr (lit "1.8L"));
                                       (lit "dtcs", JArr [JStr (lit "P0420")]);
                                       (lit "symptom", JStr (lit "Check engine light on"));
                                       (lit "notes", JStr (lit ""));
                                       (lit "language", JStr (lit "es"));
                                       (lit "sessionId", JStr (lit ""));
                                       (lit "vin", JStr (lit ""));
                                       (lit "mileage", JStr (lit "")) ])),
                          Resolves (Some (Samples.fenced Samples.plan_one_step))) ] |}).
  - vm_compute. reflexivity.
  - reflexivity.
Defined.

(** C10. For every success response, the returned plan is exactly the
    data of [safeParse] on the JSON parsed from the text of the model, and
    it holds only keys that the output schema declares: keys of the
    model's JSON that the schema does not declare are not in it. *)
Theorem success_plan_is_safeParse_data
        (host : Host) (Provider : Type)
        (create : Provider -> CreateParams -> CreateResult * Provider)
        (req : Request) (p : Provider) (r : NextResponse) (w : World Provider) :
  run host create req p = (Value r, w) ->
  get (lit "ok") (body r) = Some (JBool true) ->
  exists earlier params output_text parsed plan,
    calls w = earlier ++ [(params, Resolves output_text)] /\
    JSON_parse host (extracted_block (raw_text output_text)) = inr parsed /\
    safeParse (errorMap host) DiagnosticPlanSchema parsed = SafeParseSuccess (Some plan) /\
    body r = JObj [ (lit "ok", JBool true); (lit "plan", plan) ] /\
    declared_keys_only DiagnosticPlanSchema plan = true.
Proof.
  intros Hrun Hok.
  destruct (@run_success_inv host Provider create req p r w Hrun Hok)
    as (earlier & params & t & d & Hcalls & Hc & ->).
  destruct (check_validated_inv _ _ Hc) as (parsed & plan & -> & Hparse & Hsafe & Hshape).
  exists earlier, params, t, parsed, plan.
  repeat split; try assumption.
  apply shaped_declared; [reflexivity|exact Hshape].
Qed.

Lemma success_plan_is_safeParse_data_witness :
  exists earlier params output_text parsed plan,
    [ (first_call Samples.sample_prompt,
       Resolves (Some (Samples.fenced Samples.plan_with_extra_keys))) ]
    = earlier ++ [(params, Resolves output_text)] /\
    Samples.sample_JSON_parse (extracted_block (raw_text output_text)) = inr parsed /\
    safeParse Samples.defaultErrorMap DiagnosticPlanSchema parsed
    = SafeParseSuccess (Some plan) /\
    JObj [ (lit "ok", JBool true); (lit "plan", Samples.plan_one_step) ]
    = JObj [ (lit "ok", JBool true); (lit "plan", plan) ] /\
    declared_keys_only DiagnosticPlanSchema plan = true.
Proof.
  apply (@success_plan_is_safeParse_data Samples.sample_host _ Samples.scripted
           Samples.sample_request
           [Resolves (Some (Samples.fenced Samples.plan_with_extra_keys))]
           {| body := JObj [ (lit "ok", JBool true);
                             (lit "plan", Samples.plan_one_step) ];
              status := 200 |}
           {| provider := [];
              calls := [ (first_call Samples.sample_prompt,
                          Resolves (Some (Samples.fenced Samples.plan_with_extra_keys))) ] |}).
  - vm_compute. reflexivity.
  - reflexivity.
Defined.

(** The plan the model sent had two undeclared keys; the plan returned has
    none. *)
Example extra_keys_are_stripped :
  declared_keys_only DiagnosticPlanSchema Samples.plan_with_extra_keys = false /\
  safeParse Samples.defaultErrorMap DiagnosticPlanSchema Samples.plan_with_extra_keys
  = SafeParseSuccess (Some Samples.plan_one_step) /\
  declared_keys_only DiagnosticPlanSchema Samples.plan_one_step = true.
Proof. split; [|split]; vm_compute; reflexivity. Qed.

(* ================================================================== *)
(** * Further properties of the two text helpers *)

(** ** extractFirstJsonObject: when it gives nothing, and what it gives *)

Section ExtractFacts.

Local Open Scope Z_scope.

Lemma indexOf_from_absent (c : code_unit) (s : jsstring) (i : Z) :
  ~ In c s -> indexOf_from [c] s i = -1.
Proof.
  revert i. induction s as [|x s IH]; intros i Hnot.
  - reflexivity.
  - cbn [indexOf_from]. rewrite starts_with_single.
    destruct (N.eqb_spec x c) as [->|_].
    + exfalso. apply Hnot. now left.
    + apply IH. intro. apply Hnot. now right.
Qed.

Lemma lastIndexOf_from_app_absent (c : code_unit) (s rest : jsstring) (i found : Z) :
  ~ In c rest ->
  lastIndexOf_from [c] (s ++ rest) i found = lastIndexOf_from [c] s i found.
Proof.
  intros Hnot. revert i found. induction s as [|x s IH]; intros i found.
  - cbn [app]. rewrite lastIndexOf_from_absent by assumption.
    destruct rest; reflexivity.
  - cbn [app lastIndexOf_from]. apply IH.
Qed.

Lemma lastIndexOf_from_below (c : code_unit) (s : jsstring) (i found : Z) :
  found < i -> lastIndexOf_from [c] s i found < i + Z.of_nat (length s).
Proof.
  revert i found. induction s as [|x s IH]; intros i found Hlt.
  - cbn. lia.
  - cbn [lastIndexOf_from length]. rewrite starts_with_single.
    destruct (N.eqb x c).
    + specialize (IH (i + 1) i). lia.
    + specialize (IH (i + 1) found). lia.
Qed.

(** The block between the first opening and the last closing brace, with
    the braces written as code units. *)
Lemma extract_between (pre mid post : jsstring) :
  ~ In 123%N pre -> ~ In 125%N post ->
  extractFirstJsonObject (pre ++ 123%N :: mid ++ 125%N :: post)
  = Some (123%N :: mid ++ [125%N]).
Proof.
  intros Hpre Hpost.
  unfold extractFirstJsonObject, indexOf, lastIndexOf.
  change (lit "{") with [123%N]. change (lit "}") with [125%N].
  rewrite indexOf_from_first by assumption.
  assert (E : lastIndexOf_from [125%N] (pre ++ 123%N :: mid ++ 125%N :: post) 0 (-1)
              = 0 + Z.of_nat (length pre + S (length mid))).
  { replace (pre ++ 123%N :: mid ++ 125%N :: post)
      with ((pre ++ 123%N :: mid) ++ 125%N :: post)
      by (rewrite <- app_assoc; reflexivity).
    rewrite lastIndexOf_from_last by assumption.
    rewrite length_app. reflexivity. }
  rewrite E.
  destruct (Z.eqb_spec (0 + Z.of_nat (length pre)) (-1)); [lia|].
  destruct (Z.eqb_spec (0 + Z.of_nat (length pre + S (length mid))) (-1)); [lia|].
  destruct (Z.leb_spec (0 + Z.of_nat (length pre + S (length mid)))
                       (0 + Z.of_nat (length pre))); [lia|].
  cbn [orb]. f_equal.
  replace (0 + Z.of_nat (length pre)) with (Z.of_nat (length pre)) by lia.
  replace (0 + Z.of_nat (length pre + S (length mid)) + 1)
    with (Z.of_nat (length pre + length (123%N :: mid ++ [125%N])))
    by (cbn [length]; rewrite length_app; cbn [length]; lia).
  replace (pre ++ 123%N :: mid ++ 125%N :: post)
    with (pre ++ (123%N :: mid ++ [125%N]) ++ post)
    by (cbn [app]; rewrite <- app_assoc; reflexivity).
  apply slice_middle.
Qed.

Lemma extract_none_open (s : jsstring) :
  ~ In 123%N s -> extractFirstJsonObject s = None.
Proof.
  intros Hnot. unfold extractFirstJsonObject, indexOf.
  change (lit "{") with [123%N].
  now rewrite indexOf_from_absent.
Qed.

Lemma extract_none_close (pre post : jsstring) :
  ~ In 123%N pre -> ~ In 125%N post ->
  extractFirstJsonObject (pre ++ 123%N :: post) = None.
Proof.
  intros Hpre Hpost.
  unfold extractFirstJsonObject, indexOf, lastIndexOf.
  change (lit "{") with [123%N]. change (lit "}") with [125%N].
  rewrite indexOf_from_first by assumption.
  rewrite lastIndexOf_from_app_absent
    by (intros [H|H]; [discriminate H|now apply Hpost]).
  pose proof (@lastIndexOf_from_below 125%N pre 0 (-1) ltac:(lia)) as Hlt.
  destruct (Z.leb_spec (lastIndexOf_from [125%N] pre 0 (-1))
                       (0 + Z.of_nat (length pre))); [|lia].
  now rewrite !orb_true_r.
Qed.

(** X1. A text without opening brace gives nothing. *)
Theorem extract_no_opening_brace (s : jsstring) :
  ~ In 123%N s -> extractFirstJsonObject s = None.
Proof. exact (extract_none_open s). Qed.

Lemma extract_no_opening_brace_witness :
  extractFirstJsonObject (lit "no object here }") = None.
Proof.
  apply (@extract_no_opening_brace (lit "no object here }")).
  vm_compute. intuition discriminate.
Defined.

(** X2. A text with no closing brace after its first opening brace gives
    nothing, also when closing braces come before that opening brace. *)
Theorem extract_no_closing_brace_after (pre post : jsstring) :
  ~ In 123%N pre -> ~ In 125%N post ->
  extractFirstJsonObject (pre ++ lit "{" ++ post) = None.
Proof. exact (extract_none_close pre post). Qed.

Lemma extract_no_closing_brace_after_witness :
  extractFirstJsonObject (lit "} closed before " ++ lit "{" ++ lit " opened") = None.
Proof.
  apply (@extract_no_closing_brace_after (lit "} closed before ") (lit " opened"));
    vm_compute; intuition discriminate.
Defined.

End ExtractFacts.

Lemma last_occurrence (c : code_unit) (l : jsstring) :
  In c l -> exists pre post, l = pre ++ c :: post /\ ~ In c post.
Proof.
  intros Hin. apply in_rev in Hin.
  destruct (first_occurrence _ _ Hin) as (a & b & E & Ha).
  exists (rev b), (rev a). split.
  - rewrite <- (rev_involutive l), E, rev_app_distr. cbn [rev].
    now rewrite <- app_assoc.
  - intros H. apply Ha. now apply in_rev in H.
Qed.

Lemma extract_inv (s block : jsstring) :
  extractFirstJsonObject s = Some block ->
  exists pre mid post,
    s = pre ++ 123%N :: mid ++ 125%N :: post /\
    block = 123%N :: mid ++ [125%N] /\
    ~ In 123%N pre /\ ~ In 125%N post.
Proof.
  intros H.
  destruct (in_dec N.eq_dec 123%N s) as [Hopen|Hopen];
    [|rewrite (extract_none_open _ Hopen) in H; discriminate H].
  destruct (first_occurrence _ _ Hopen) as (pre & rest & -> & Hpre).
  destruct (in_dec N.eq_dec 125%N rest) as [Hclose|Hclose];
    [|rewrite (extract_none_close _ _ Hpre Hclose) in H; discriminate H].
  destruct (last_occurrence _ _ Hclose) as (mid & post & -> & Hpost).
  rewrite (extract_between _ mid _ Hpre Hpost) in H. injection H as <-.
  now exists pre, mid, post.
Qed.

(** X3. Whatever [extractFirstJsonObject] returns is a part of the text
    that begins with the first opening brace of the text and ends with its
    last closing brace. *)
Theorem extract_some_inv (s block : jsstring) :
  extractFirstJsonObject s = Some block ->
  exists pre mid post,
    s = pre ++ block ++ post /\
    block = lit "{" ++ mid ++ lit "}" /\
    ~ In 123%N pre /\ ~ In 125%N post.
Proof.
  intros H.
  destruct (extract_inv _ H) as (pre & mid & post & -> & -> & Hpre & Hpost).
  exists pre, mid, post. repeat split; try assumption.
  cbn [app]. rewrite <- app_assoc. reflexivity.
Qed.

Lemma extract_some_inv_witness :
  exists pre mid post,
    lit "Sure: {a{b}c} done" = pre ++ lit "{a{b}c}" ++ post /\
    lit "{a{b}c}" = lit "{" ++ mid ++ lit "}" /\
    ~ In 123%N pre /\ ~ In 125%N post.
Proof.
  apply (@extract_some_inv (lit "Sure: {a{b}c} done") (lit "{a{b}c}")).
  reflexivity.
Defined.

(** X4. Extracting again from an extracted block gives the same block. *)
Theorem extract_idempotent (s block : jsstring) :
  extractFirstJsonObject s = Some block ->
  extractFirstJsonObject block = Some block.
Proof.
  intros H.
  destruct (extract_inv _ H) as (pre & mid & post & _ & -> & _ & _).
  change (123%N :: mid ++ [125%N]) with ([] ++ 123%N :: mid ++ 125%N :: []) at 1.
  rewrite extract_between by (intros []).
  reflexivity.
Qed.

Lemma extract_idempotent_witness :
  extractFirstJsonObject (lit "{a{b}c}") = Some (lit "{a{b}c}").
Proof.
  apply (@extract_idempotent (lit "Sure: {a{b}c} done") (lit "{a{b}c}")).
  reflexivity.
Defined.

(** X5. Prose without braces before and after a text does not change what
    is extracted from it. *)
Theorem extract_ignores_prose (pre s post : jsstring) :
  brace_free pre -> brace_free post ->
  extractFirstJsonObject (pre ++ s ++ post) = extractFirstJsonObject s.
Proof.
  intros [Hpre_o Hpre_c] [Hpost_o Hpost_c].
  destruct (in_dec N.eq_dec 123%N s) as [Hopen|Hopen].
  - destruct (first_occurrence _ _ Hopen) as (a & rest & -> & Ha).
    assert (Hpa : ~ In 123%N (pre ++ a)).
    { intros H. apply in_app_or in H. tauto. }
    destruct (in_dec N.eq_dec 125%N rest) as [Hclose|Hclose].
    + destruct (last_occurrence _ _ Hclose) as (mid & b & -> & Hb).
      assert (Hbp : ~ In 125%N (b ++ post)).
      { intros H. apply in_app_or in H. tauto. }
      rewrite (extract_between a mid b Ha Hb).
      replace (pre ++ (a ++ 123%N :: mid ++ 125%N :: b) ++ post)
        with ((pre ++ a) ++ 123%N :: mid ++ 125%N :: (b ++ post)).
      * exact (extract_between _ mid _ Hpa Hbp).
      * rewrite <- !app_assoc. cbn [app]. rewrite <- !app_assoc. reflexivity.
    + assert (Hrp : ~ In 125%N (rest ++ post)).
      { intros H. apply in_app_or in H. tauto. }
      rewrite (extract_none_close _ _ Ha Hclose).
      replace (pre ++ (a ++ 123%N :: rest) ++ post)
        with ((pre ++ a) ++ 123%N :: (rest ++ post))
        by (rewrite <- !app_assoc; reflexivity).
      exact (extract_none_close _ _ Hpa Hrp).
  - rewrite (extract_none_open _ Hopen).
    apply extract_none_open.
    intros H. apply in_app_or in H. destruct H as [H|H]; [tauto|].
    apply in_app_or in H. tauto.
Qed.

Lemma extract_ignores_prose_witness :
  extractFirstJsonObject (lit "Here it is: " ++ lit "{a} and {b}" ++ lit " - bye")
  = extractFirstJsonObject (lit "{a} and {b}").
Proof.
  apply (@extract_ignores_prose (lit "Here it is: ") (lit "{a} and {b}") (lit " - bye"));
    split; vm_compute; intuition discriminate.
Defined.

(* ------------------------------------------------------------------ *)
(** ** stripJsonFences: what is left of a text *)

Lemma re_fence_json_needs_fence (s : jsstring) :
  starts_with (lit "```") s = false -> re_fence_json s = None.
Proof.
  intros H. unfold re_fence_json.
  destruct s as [|a [|b [|c rest]]].
  - reflexivity.
  - cbn. rewrite canon_backtick. destruct (N.eqb a 96); reflexivity.
  - cbn. rewrite !canon_backtick.
    destruct (N.eqb a 96); [|reflexivity]. destruct (N.eqb b 96); reflexivity.
  - cbn in H. cbn. rewrite !canon_backtick.
    destruct (N.eqb a 96); [|reflexivity].
    destruct (N.eqb b 96); [|reflexivity].
    destruct (N.eqb c 96); [discriminate H|reflexivity].
Qed.

Lemma remove_fence_json_id (x : jsstring) :
  includes (lit "```") x = false -> remove_matches re_fence_json x = x.
Proof.
  induction x as [|c x IH]; intros H; [reflexivity|].
  destruct (includes_tail _ _ _ H) as [Hhead Htail].
  rewrite remove_matches_no_match by now apply re_fence_json_needs_fence.
  now rewrite IH.
Qed.

Lemma remove_fence_id (x : jsstring) :
  includes (lit "```") x = false -> remove_matches re_fence x = x.
Proof.
  induction x as [|c x IH]; intros H; [reflexivity|].
  destruct (includes_tail _ _ _ H) as [Hhead Htail].
  rewrite remove_matches_no_match by (unfold re_fence; now rewrite Hhead).
  now rewrite IH.
Qed.

(** A text that begins with a fence, taken apart. *)
Lemma starts_with_fence_inv (s : jsstring) :
  starts_with (lit "```") s = true ->
  exists rest, s = 96%N :: [96%N; 96%N] ++ rest.
Proof.
  destruct s as [|a [|b [|c rest]]]; cbn; intros H;
    try discriminate H;
    try (destruct (N.eqb a 96); discriminate H);
    try (destruct (N.eqb a 96); [|discriminate H];
         destruct (N.eqb b 96); discriminate H).
  destruct (N.eqb_spec a 96) as [->|]; [|discriminate H].
  destruct (N.eqb_spec b 96) as [->|]; [|discriminate H].
  destruct (N.eqb_spec c 96) as [->|]; [|discriminate H].
  now exists rest.
Qed.

Lemma remove_fence_step (s : jsstring) :
  (exists rest, s = 96%N :: [96%N; 96%N] ++ rest /\
                remove_matches re_fence s = remove_matches re_fence rest) \/
  (exists c s', s = c :: s' /\ starts_with (lit "```") s = false /\
                remove_matches re_fence s = c :: remove_matches re_fence s') \/
  s = [].
Proof.
  destruct s as [|c s']; [now right; right|].
  destruct (starts_with (lit "```") (c :: s')) eqn:E.
  - left. destruct (starts_with_fence_inv _ E) as [rest Hs].
    exists rest. split; [exact Hs|]. rewrite Hs.
    apply remove_matches_match. reflexivity.
  - right. left. exists c, s'. repeat split.
    apply remove_matches_no_match. unfold re_fence. now rewrite E.
Qed.

(** After the removal a text begins with no more backticks than before. *)
Lemma remove_fence_one_backtick (s : jsstring) :
  starts_with [96%N] (remove_matches re_fence s) = true ->
  starts_with [96%N] s = true.
Proof.
  destruct (remove_fence_step s) as [(rest & -> & _)|[(c & s' & -> & _ & ->)| -> ]];
    intros H.
  - reflexivity.
  - exact H.
  - discriminate H.
Qed.

Lemma remove_fence_two_backticks (s : jsstring) :
  starts_with [96%N; 96%N] (remove_matches re_fence s) = true ->
  starts_with [96%N; 96%N] s = true.
Proof.
  destruct (remove_fence_step s) as [(rest & -> & _)|[(c & s' & -> & _ & ->)| -> ]];
    intros H.
  - reflexivity.
  - change (starts_with [96%N; 96%N] (c :: remove_matches re_fence s'))
      with (N.eqb c 96 && starts_with [96%N] (remove_matches re_fence s')) in H.
    apply andb_true_iff in H. destruct H as [Hc Hs].
    apply remove_fence_one_backtick in Hs.
    change (starts_with [96%N; 96%N] (c :: s'))
      with (N.eqb c 96 && starts_with [96%N] s').
    now rewrite Hc, Hs.
  - discriminate H.
Qed.

Lemma remove_fence_clean_upto (n : nat) (s : jsstring) :
  (length s <= n)%nat ->
  includes (lit "```") (remove_matches re_fence s) = false.
Proof.
  revert s. induction n as [|n IH]; intros s Hlen.
  - destruct s; [reflexivity|cbn in Hlen; lia].
  - destruct (remove_fence_step s) as [(rest & -> & ->)|[(c & s' & -> & Hno & ->)| -> ]].
    + apply IH. cbn [length app] in Hlen. lia.
    + cbn [includes]. rewrite (IH s') by (cbn [length] in Hlen; lia).
      rewrite orb_false_r.
      destruct (starts_with (lit "```") (c :: remove_matches re_fence s')) eqn:E;
        [|reflexivity].
      exfalso.
      change (starts_with (lit "```") (c :: remove_matches re_fence s'))
        with (N.eqb c 96 && starts_with [96%N; 96%N] (remove_matches re_fence s')) in E.
      apply andb_true_iff in E. destruct E as [Hc Hs].
      apply remove_fence_two_backticks in Hs.
      change (starts_with (lit "```") (c :: s'))
        with (N.eqb c 96 && starts_with [96%N; 96%N] s') in Hno.
      rewrite Hc, Hs in Hno. discriminate Hno.
    + reflexivity.
Qed.

(** No fence is left after the second replacement, also where the removal
    of one fence brings backticks together. *)
Lemma remove_fence_clean (s : jsstring) :
  includes (lit "```") (remove_matches re_fence s) = false.
Proof. exact (@remove_fence_clean_upto (length s) s (Nat.le_refl _)). Qed.

Lemma trimEnd_prefix (x : jsstring) : exists tail, x = trimEnd x ++ tail.
Proof.
  exists (rev (takeWhile is_ws (rev x))). unfold trimEnd.
  rewrite <- rev_app_distr, takeWhile_dropWhile. now rewrite rev_involutive.
Qed.

Lemma includes_trim (pat y : jsstring) :
  includes pat y = false -> includes pat (trim y) = false.
Proof.
  intros H. unfold trim.
  pose proof (includes_dropWhile pat is_ws y H) as Hs. fold (trimStart y) in Hs.
  destruct (includes pat (trimEnd (trimStart y))) eqn:E; [|reflexivity].
  destruct (trimEnd_prefix (trimStart y)) as [tail Htail].
  rewrite Htail, (includes_app_r _ _ tail E) in Hs. discriminate Hs.
Qed.

Lemma dropWhile_head (p : code_unit -> bool) (s : jsstring) (c : code_unit)
      (t : jsstring) :
  dropWhile p s = c :: t -> p c = false.
Proof.
  induction s as [|x s IH]; intros H; [discriminate H|].
  cbn [dropWhile] in H. destruct (p x) eqn:E; [now apply IH|].
  injection H as -> _. exact E.
Qed.

Lemma dropWhile_app_keep (p : code_unit -> bool) (l : jsstring) (c : code_unit) :
  p c = false -> dropWhile p (l ++ [c]) = dropWhile p l ++ [c].
Proof.
  intros Hc. induction l as [|x l IH].
  - cbn. now rewrite Hc.
  - cbn [app dropWhile]. destruct (p x); [exact IH|reflexivity].
Qed.

Lemma trimEnd_cons_keep (c : code_unit) (y : jsstring) :
  is_ws c = false -> trimEnd (c :: y) = c :: trimEnd y.
Proof.
  intros Hc. unfold trimEnd. cbn [rev].
  rewrite dropWhile_app_keep by exact Hc.
  rewrite rev_app_distr. reflexivity.
Qed.

Lemma trimEnd_idem (x : jsstring) : trimEnd (trimEnd x) = trimEnd x.
Proof. unfold trimEnd. now rewrite rev_involutive, dropWhile_idem. Qed.

Lemma trim_idem (s : jsstring) : trim (trim s) = trim s.
Proof.
  change (trim s) with (trimEnd (trimStart s)).
  destruct (trimStart s) as [|c t] eqn:E; [reflexivity|].
  pose proof (dropWhile_head _ _ E) as Hc.
  rewrite trimEnd_cons_keep by exact Hc.
  unfold trim, trimStart. cbn [dropWhile]. rewrite Hc.
  rewrite trimEnd_cons_keep by exact Hc.
  now rewrite trimEnd_idem.
Qed.

(** X6. The result of [stripJsonFences] never holds a fence, whatever the
    text. *)
Theorem stripJsonFences_leaves_no_fence (s : jsstring) :
  includes (lit "```") (stripJsonFences s) = false.
Proof.
  unfold stripJsonFences. apply includes_trim, remove_fence_clean.
Qed.

(** X7. Stripping a stripped text changes nothing. *)
Theorem stripJsonFences_idempotent (s : jsstring) :
  stripJsonFences (stripJsonFences s) = stripJsonFences s.
Proof.
  assert (H : includes (lit "```") (stripJsonFences s) = false)
    by (unfold stripJsonFences; apply includes_trim, remove_fence_clean).
  unfold stripJsonFences at 1.
  rewrite remove_fence_json_id by exact H.
  rewrite remove_fence_id by exact H.
  unfold stripJsonFences. apply trim_idem.
Qed.

(** X8. A text without fence is only trimmed. *)
Theorem stripJsonFences_without_fence (s : jsstring) :
  includes (lit "```") s = false -> stripJsonFences s = trim s.
Proof.
  intros H. unfold stripJsonFences.
  rewrite remove_fence_json_id by exact H.
  now rewrite remove_fence_id by exact H.
Qed.

Lemma stripJsonFences_without_fence_witness :
  stripJsonFences (lit "  { `a`: ``b`` }  ") = lit "{ `a`: ``b`` }".
Proof.
  change (lit "{ `a`: ``b`` }") with (trim (lit "  { `a`: ``b`` }  ")).
  apply (@stripJsonFences_without_fence (lit "  { `a`: ``b`` }  ")).
  reflexivity.
Defined.

Example backticks_brought_together :
  stripJsonFences (lit "``````json x") = lit "x" /\
  stripJsonFences (lit "`` ```json`") = lit "`` `".
Proof. split; reflexivity. Qed.

(** *** A fence without the word [json] *)

Lemma no_backtick_no_fence (x : jsstring) :
  ~ In 96%N x -> includes (lit "```") x = false.
Proof.
  induction x as [|c x IH]; intros H; [reflexivity|].
  cbn [includes]. rewrite IH by (intro; apply H; now right).
  rewrite orb_false_r.
  change (starts_with (lit "```") (c :: x))
    with (N.eqb c 96 && starts_with [96%N; 96%N] x).
  destruct (N.eqb_spec c 96) as [->|_]; [|reflexivity].
  exfalso. apply H. now left.
Qed.

(** The word [json] does not match with the help of a closing fence. *)
Lemma match_json_before_closing (inner : jsstring) :
  match_ci (lit "json") inner = None ->
  match_ci (lit "json") (inner ++ lit "```") = None.
Proof.
  change (lit "json") with [106%N; 115%N; 111%N; 110%N].
  change (lit "```") with [96%N; 96%N; 96%N].
  intros H.
  destruct inner as [|a [|b [|c [|d rest]]]]; cbn [app match_ci] in *;
    repeat match goal with
           | |- context [N.eqb (canon 96) ?x] =>
               change (N.eqb (canon 96) x) with false; cbv iota
           | |- context [N.eqb (canon ?v) ?x] =>
               destruct (N.eqb (canon v) x); try reflexivity
           end;
    try reflexivity; try discriminate H.
Qed.

Lemma remove_fence_json_plain (inner : jsstring) :
  ~ In 96%N inner ->
  match_ci (lit "json") inner = None ->
  remove_matches re_fence_json (lit "```" ++ inner ++ lit "```")
  = lit "```" ++ inner ++ lit "```".
Proof.
  intros Hno Hword.
  change (lit "```" ++ inner ++ lit "```")
    with (96%N :: 96%N :: 96%N :: inner ++ lit "```").
  assert (H0 : re_fence_json (96%N :: 96%N :: 96%N :: inner ++ lit "```") = None).
  { unfold re_fence_json.
    change (match_ci (lit "```json") (96%N :: 96%N :: 96%N :: inner ++ lit "```"))
      with (match_ci (lit "json") (inner ++ lit "```")).
    now rewrite match_json_before_closing. }
  assert (H1 : re_fence_json (96%N :: 96%N :: inner ++ lit "```") = None).
  { destruct inner as [|x r]; [reflexivity|].
    apply re_fence_json_needs_fence. cbn.
    destruct (N.eqb_spec x 96) as [->|_]; [|reflexivity].
    exfalso. apply Hno. now left. }
  assert (H2 : re_fence_json (96%N :: inner ++ lit "```") = None).
  { destruct inner as [|x r]; [reflexivity|].
    apply re_fence_json_needs_fence. cbn.
    destruct (N.eqb_spec x 96) as [->|_]; [|reflexivity].
    exfalso. apply Hno. now left. }
  rewrite (remove_matches_no_match _ _ _ H0).
  rewrite (remove_matches_no_match _ _ _ H1).
  rewrite (remove_matches_no_match _ _ _ H2).
  rewrite remove_fence_json_no_fence by now apply no_backtick_no_fence.
  reflexivity.
Qed.

(** X9. A fence that does not carry the word [json] is stripped as well:
    for a content without backtick that does not begin with [json] (in any
    case), wrapped in two plain fences, the result is the trimmed
    content. *)
Theorem stripJsonFences_plain_fence (inner : jsstring) :
  ~ In 96%N inner ->
  match_ci (lit "json") inner = None ->
  stripJsonFences (lit "```" ++ inner ++ lit "```") = trim inner.
Proof.
  intros Hno Hword. unfold stripJsonFences.
  rewrite remove_fence_json_plain by assumption.
  change (lit "```" ++ inner ++ lit "```")
    with (96%N :: [96%N; 96%N] ++ inner ++ lit "```").
  rewrite remove_matches_match by reflexivity.
  rewrite remove_fence_no_fence by now apply no_backtick_no_fence.
  reflexivity.
Qed.

Lemma stripJsonFences_plain_fence_witness :
  stripJsonFences (lit "```" ++ (nl ++ lit "{ }" ++ nl) ++ lit "```") = lit "{ }".
Proof.
  change (lit "{ }") with (trim (nl ++ lit "{ }" ++ nl)) at 2.
  apply (@stripJsonFences_plain_fence (nl ++ lit "{ }" ++ nl)).
  - vm_compute. intuition discriminate.
  - reflexivity.
Defined.

(* ================================================================== *)
(** * Further properties of the handler *)

Section HandlerMore.

Variable host : Host.
Variable Provider : Type.
Variable create : Provider -> CreateParams -> CreateResult * Provider.

(** A request with a credential that does not pass input validation is
    answered from the [catch] of the handler, with no call made. *)
Lemma POST_rejected (req : Request) (w : World Provider) :
  falsy (OPENAI_API_KEY req) = false ->
  (forall inp, ~ passes_validation host req inp) ->
  exists e, POST host create req w = (Value (caught_response host e), w).
Proof.
  intros Hkey Hnot. unfold POST, try_catch. rewrite Hkey.
  destruct (req_json req) as [e|b] eqn:Hbody.
  - exists e. reflexivity.
  - unfold bind at 1. unfold ret at 1. unfold bind at 1. unfold parse.
    destruct (safeParse (errorMap host) DiagnosticInputSchema b) as [[inp|]|issues] eqn:E.
    + exfalso. apply (Hnot inp). split; [exact Hkey|]. now exists b.
    + eexists. reflexivity.
    + exists (ZodError issues). reflexivity.
Qed.

(** The four responses of the handler, with the number of calls made. *)
Lemma run_shapes (req : Request) (p : Provider) :
  exists r w,
    run host create req p = (Value r, w) /\
    ((r = missing_key_response /\ calls w = []) \/
     (exists e, r = caught_response host e /\ (length (calls w) <= 2)%nat) \/
     (exists plan, r = success_response (Some plan) /\
                   (1 <= length (calls w) <= 2)%nat) \/
     (exists detail rawText, r = exhausted_response detail rawText /\
                             length (calls w) = 2%nat)).
Proof.
  destruct (falsy (OPENAI_API_KEY req)) eqn:Hkey.
  - exists missing_key_response, {| provider := p; calls := [] |}.
    split; [|now left]. unfold run, POST, try_catch. now rewrite Hkey.
  - destruct (validation_cases host req) as [[inp Hvalid]|Hinvalid].
    + destruct (create p (first_call (build_prompt host inp))) as [[e|t1] p1] eqn:H1.
      * eexists _, _. split; [exact (run_first_rejects create Hvalid p H1)|].
        right; left. exists e. cbn. split; [reflexivity|lia].
      * destruct (check host t1) as [d|e1] eqn:Hc1.
        -- destruct (check_validated_inv _ _ Hc1) as (parsed & plan & -> & _).
           eexists _, _. split; [exact (run_first_validated create Hvalid p H1 Hc1)|].
           right; right; left. exists plan. cbn. split; [reflexivity|lia].
        -- destruct (create p1 (repair_call host (build_prompt host inp) e1))
             as [r2 p2] eqn:H2.
           eexists _, _. split; [exact (run_second create Hvalid p H1 Hc1 H2)|].
           destruct r2 as [e|t2].
           ++ right; left. exists e. cbn. split; [reflexivity|lia].
           ++ destruct (check host t2) as [d|e2] eqn:Hc2.
              ** destruct (check_validated_inv _ _ Hc2) as (parsed & plan & -> & _).
                 right; right; left. exists plan. cbn. split; [reflexivity|lia].
              ** right; right; right. eexists _, _. cbn. split; reflexivity.
    + destruct (POST_rejected {| provider := p; calls := [] |} Hkey Hinvalid)
        as [e Hpost].
      eexists _, _. split; [exact Hpost|].
      right; left. exists e. cbn. split; [reflexivity|lia].
Qed.

(** X10. An empty credential counts as a missing one: the answer is the
    same 500 response and no call is made. *)
Theorem empty_credential_no_call (req : Request) (p : Provider) :
  OPENAI_API_KEY req = Some (lit "") ->
  run host create req p
  = (Value missing_key_response, {| provider := p; calls := [] |}).
Proof.
  intros Hkey. unfold run, POST, try_catch. now rewrite Hkey.
Qed.

(** X11. When the body of the request is not JSON, the handler answers
    with the status 400 and the message of that error, and makes no
    call. *)
Theorem unreadable_body_no_call (req : Request) (p : Provider) (e : JsError) :
  falsy (OPENAI_API_KEY req) = false ->
  req_json req = inl e ->
  run host create req p
  = (Value {| body := JObj [ (lit "ok", JBool false);
                             (lit "error", JStr (lit "Diagnose failed"));
                             (lit "detail", JStr (message_of host e)) ];
              status := 400 |},
     {| provider := p; calls := [] |}).
Proof.
  intros Hkey Hbody. unfold run, POST, try_catch. now rewrite Hkey, Hbody.
Qed.

(** X12. When the input schema rejects the body, the handler answers with
    the status 400 and the message of the validation error, and makes no
    call. *)
Theorem rejected_input_no_call (req : Request) (p : Provider) (b : json)
        (issues : list ZodIssue) :
  falsy (OPENAI_API_KEY req) = false ->
  req_json req = inr b ->
  safeParse (errorMap host) DiagnosticInputSchema b = SafeParseError issues ->
  run host create req p
  = (Value {| body := JObj [ (lit "ok", JBool false);
                             (lit "error", JStr (lit "Diagnose failed"));
                             (lit "detail", JStr (ZodError_message host issues)) ];
              status := 400 |},
     {| provider := p; calls := [] |}).
Proof.
  intros Hkey Hbody Hsafe. unfold run, POST, try_catch. rewrite Hkey, Hbody.
  unfold bind at 1. unfold ret at 1. unfold bind at 1. unfold parse.
  now rewrite Hsafe.
Qed.

(** X13. When the first attempt fails and the repair attempt validates,
    the handler returns the plan of the repair attempt with [ok: true]
    and the status 200, after exactly two calls. *)
Theorem repair_attempt_succeeds
        (req : Request) (inp : json) (p p1 p2 : Provider)
        (t1 t2 : option jsstring) (e1 : JsError) (d : option json) :
  passes_validation host req inp ->
  create p (first_call (build_prompt host inp)) = (Resolves t1, p1) ->
  check host t1 = Failed e1 ->
  create p1 (repair_call host (build_prompt host inp) e1) = (Resolves t2, p2) ->
  check host t2 = Validated d ->
  exists plan,
    d = Some plan /\
    run host create req p
    = (Value {| body := JObj [ (lit "ok", JBool true); (lit "plan", plan) ];
                status := 200 |},
       {| provider := p2;
          calls := [ (first_call (build_prompt host inp), Resolves t1);
                     (repair_call host (build_prompt host inp) e1, Resolves t2) ] |}).
Proof.
  intros Hvalid H1 Hc1 H2 Hc2.
  destruct (check_validated_inv _ _ Hc2) as (parsed & plan & -> & _).
  exists plan. split; [reflexivity|].
  rewrite (run_second create Hvalid p H1 Hc1 H2). now rewrite Hc2.
Qed.

(** X14. When the first attempt fails and the repair call is rejected, the
    handler answers with the status 400 and the message of that error,
    after exactly two calls. *)
Theorem repair_call_rejected
        (req : Request) (inp : json) (p p1 p2 : Provider)
        (t1 : option jsstring) (e1 e : JsError) :
  passes_validation host req inp ->
  create p (first_call (build_prompt host inp)) = (Resolves t1, p1) ->
  check host t1 = Failed e1 ->
  create p1 (repair_call host (build_prompt host inp) e1) = (Rejects e, p2) ->
  run host create req p
  = (Value {| body := JObj [ (lit "ok", JBool false);
                             (lit "error", JStr (lit "Diagnose failed"));
                             (lit "detail", JStr (message_of host e)) ];
              status := 400 |},
     {| provider := p2;
        calls := [ (first_call (build_prompt host inp), Resolves t1);
                   (repair_call host (build_prompt host inp) e1, Rejects e) ] |}).
Proof.
  intros Hvalid H1 Hc1 H2.
  now rewrite (run_second create Hvalid p H1 Hc1 H2).
Qed.

(** X15. Every request is answered, after at most two calls.  The status
    is 200, 400 or 500; [ok] is [true] exactly with the status 200 and
    [false] otherwise; a [plan] is in the body exactly with the status
    200, and a [raw] text only with the status 500. *)
Theorem every_request_is_answered (req : Request) (p : Provider) :
  exists r w,
    run host create req p = (Value r, w) /\
    (length (calls w) <= 2)%nat /\
    (status r = 200 \/ status r = 400 \/ status r = 500)%Z /\
    (status r = 200%Z -> get (lit "ok") (body r) = Some (JBool true)) /\
    (status r <> 200%Z -> get (lit "ok") (body r) = Some (JBool false)) /\
    (status r = 200%Z <-> exists plan, get (lit "plan") (body r) = Some plan) /\
    (get (lit "raw") (body r) <> None -> status r = 500%Z).
Proof.
  destruct (run_shapes req p) as (r & w & Hrun & Hshape).
  exists r, w. split; [exact Hrun|].
  destruct Hshape
    as [[-> Hcalls]|[(e & -> & Hcalls)|[(plan & -> & Hcalls)
                                       |(detail & rawText & -> & Hcalls)]]];
    cbn [status body missing_key_response caught_response success_response
                exhausted_response NextResponse_json object_literal get].
  - rewrite Hcalls. cbn [length].
    split; [lia|]. split; [now right; right|].
    split; [discriminate|]. split; [reflexivity|].
    split; [|intros H; now elim H].
    split; [discriminate|intros [plan H]; discriminate H].
  - split; [exact Hcalls|]. split; [now right; left|].
    split; [discriminate|]. split; [reflexivity|].
    split; [|intros H; now elim H].
    split; [discriminate|intros [plan H]; discriminate H].
  - split; [lia|]. split; [now left|].
    split; [reflexivity|]. split; [intros H; now elim H|].
    split; [|intros H; now elim H].
    split; [intros _; now exists plan|reflexivity].
  - split; [lia|]. split; [now right; right|].
    split; [discriminate|]. split; [reflexivity|].
    split; [|reflexivity].
    split; [discriminate|intros [plan H]; discriminate H].
Qed.

End HandlerMore.

Lemma empty_credential_no_call_witness :
  run Samples.sample_host Samples.scripted
      (MoreSamples.request_with (Some (lit "")) (inr Samples.sample_body))
      [Resolves (Some (Samples.render Samples.plan_one_step))]
  = (Value missing_key_response,
     {| provider := [Resolves (Some (Samples.render Samples.plan_one_step))];
        calls := [] |}).
Proof.
  apply (@empty_credential_no_call Samples.sample_host _ Samples.scripted
           (MoreSamples.request_with (Some (lit "")) (inr Samples.sample_body))).
  reflexivity.
Defined.

Lemma unreadable_body_no_call_witness :
  run Samples.sample_host Samples.scripted
      (MoreSamples.request_with (Some (lit "sk-test"))
         (inl (SyntaxError (lit "Unexpected end of JSON input"))))
      [Resolves (Some (Samples.render Samples.plan_one_step))]
  = (Value {| body := JObj [ (lit "ok", JBool false);
                             (lit "error", JStr (lit "Diagnose failed"));
                             (lit "detail", JStr (lit "Unexpected end of JSON input")) ];
              status := 400 |},
     {| provider := [Resolves (Some (Samples.render Samples.plan_one_step))];
        calls := [] |}).
Proof.
  apply (@unreadable_body_no_call Samples.sample_host _ Samples.scripted
           (MoreSamples.request_with (Some (lit "sk-test"))
              (inl (SyntaxError (lit "Unexpected end of JSON input"))))
           [Resolves (Some (Samples.render Samples.plan_one_step))]
           (SyntaxError (lit "Unexpected end of JSON input")));
    reflexivity.
Defined.

Lemma rejected_input_no_call_witness :
  run Samples.sample_host Samples.scripted
      (MoreSamples.request_with (Some (lit "sk-test"))
         (inr MoreSamples.body_with_string_dtcs))
      [Resolves (Some (Samples.render Samples.plan_one_step))]
  = (Value {| body := JObj [ (lit "ok", JBool false);
                             (lit "error", JStr (lit "Diagnose failed"));
                             (lit "detail",
                               JStr (ZodError_message Samples.sample_host
                                       [MoreSamples.string_dtcs_issue])) ];
              status := 400 |},
     {| provider := [Resolves (Some (Samples.render Samples.plan_one_step))];
        calls := [] |}).
Proof.
  apply (@rejected_input_no_call Samples.sample_host _ Samples.scripted
           (MoreSamples.request_with (Some (lit "sk-test"))
              (inr MoreSamples.body_with_string_dtcs))
           [Resolves (Some (Samples.render Samples.plan_one_step))]
           MoreSamples.body_with_string_dtcs
           [MoreSamples.string_dtcs_issue]);
    reflexivity.
Defined.

Lemma repair_attempt_succeeds_witness :
  exists plan,
    Some Samples.plan_one_step = Some plan /\
    run Samples.sample_host Samples.scripted Samples.sample_request
        [Resolves (Some Samples.prose);
         Resolves (Some (Samples.fenced Samples.plan_one_step))]
    = (Value {| body := JObj [ (lit "ok", JBool true); (lit "plan", plan) ];
                status := 200 |},
       {| provider := [];
          calls :=
            [ (first_call Samples.sample_prompt, Resolves (Some Samples.prose));
              (repair_call Samples.sample_host Samples.sample_prompt
                 (SyntaxError (lit "Unexpected token")),
               Resolves (Some (Samples.fenced Samples.plan_one_step))) ] |}).
Proof.
  apply (@repair_attempt_succeeds Samples.sample_host _ Samples.scripted
           Samples.sample_request Samples.sample_input
           [Resolves (Some Samples.prose);
            Resolves (Some (Samples.fenced Samples.plan_one_step))]
           [Resolves (Some (Samples.fenced Samples.plan_one_step))] []
           (Some Samples.prose) (Some (Samples.fenced Samples.plan_one_step))
           (SyntaxError (lit "Unexpected token")) (Some Samples.plan_one_step)
           sample_request_valid eq_refl eq_refl eq_refl eq_refl).
Defined.

Lemma repair_call_rejected_witness :
  run Samples.sample_host Samples.scripted Samples.sample_request
      [Resolves (Some Samples.prose); Rejects MoreSamples.connection_error]
  = (Value {| body := JObj [ (lit "ok", JBool false);
                             (lit "error", JStr (lit "Diagnose failed"));
                             (lit "detail", JStr (lit "Connection error.")) ];
              status := 400 |},
     {| provider := [];
        calls :=
          [ (first_call Samples.sample_prompt, Resolves (Some Samples.prose));
            (repair_call Samples.sample_host Samples.sample_prompt
               (SyntaxError (lit "Unexpected token")),
             Rejects MoreSamples.connection_error) ] |}).
Proof.
  apply (@repair_call_rejected Samples.sample_host _ Samples.scripted
           Samples.sample_request Samples.sample_input
           [Resolves (Some Samples.prose); Rejects MoreSamples.connection_error]
           [Rejects MoreSamples.connection_error] []
           (Some Samples.prose)
           (SyntaxError (lit "Unexpected token")) MoreSamples.connection_error
           sample_request_valid eq_refl eq_refl eq_refl).
Defined.

(* ------------------------------------------------------------------ *)
(** ** The calls and their prompts *)

(** X16. When the text of the first attempt is not JSON, the prompt of the
    repair call is the original prompt followed by the parse error as a
    string ([SyntaxError: ...]) under the heading for validation issues,
    and by the instruction to return corrected JSON. *)
Theorem repair_prompt_after_parse_error
        (host : Host) (Provider : Type)
        (create : Provider -> CreateParams -> CreateResult * Provider)
        (req : Request) (inp : json) (p p1 : Provider)
        (t1 : option jsstring) (m : jsstring) :
  passes_validation host req inp ->
  create p (first_call (build_prompt host inp)) = (Resolves t1, p1) ->
  JSON_parse host (extracted_block (raw_text t1)) = inl m ->
  exists second r2,
    calls (snd (run host create req p))
    = [ (first_call (build_prompt host inp), Resolves t1); (second, r2) ] /\
    input second
    = build_prompt host inp ++ nl ++ nl
      ++ lit "Your previous JSON failed validation with these issues:" ++ nl
      ++ Error_toString (lit "SyntaxError") m ++ nl ++ nl
      ++ lit "Return ONLY corrected JSON that satisfies the structure exactly. Do not omit required keys.".
Proof.
  intros Hvalid H1 Hparse.
  assert (Hc : check host t1 = Failed (SyntaxError m)).
  { unfold check. now rewrite Hparse. }
  destruct (create p1 (repair_call host (build_prompt host inp) (SyntaxError m)))
    as [r2 p2] eqn:H2.
  exists (repair_call host (build_prompt host inp) (SyntaxError m)), r2.
  rewrite (run_second create Hvalid p H1 Hc H2). split; reflexivity.
Qed.

Lemma repair_prompt_after_parse_error_witness :
  exists second r2,
    calls (snd (run Samples.sample_host Samples.scripted Samples.sample_request
                    [Resolves (Some Samples.prose); Resolves (Some Samples.prose)]))
    = [ (first_call Samples.sample_prompt, Resolves (Some Samples.prose));
        (second, r2) ] /\
    input second
    = Samples.sample_prompt ++ nl ++ nl
      ++ lit "Your previous JSON failed validation with these issues:" ++ nl
      ++ lit "SyntaxError: Unexpected token" ++ nl ++ nl
      ++ lit "Return ONLY corrected JSON that satisfies the structure exactly. Do not omit required keys.".
Proof.
  apply (@repair_prompt_after_parse_error Samples.sample_host _ Samples.scripted
           Samples.sample_request Samples.sample_input
           [Resolves (Some Samples.prose); Resolves (Some Samples.prose)]
           [Resolves (Some Samples.prose)]
           (Some Samples.prose) (lit "Unexpected token")
           sample_request_valid eq_refl eq_refl).
Defined.

Lemma starts_with_refl (s : jsstring) : starts_with s s = true.
Proof. rewrite <- (app_nil_r s) at 2. apply starts_with_self. Qed.

(** X17. Every call the handler makes is made for a request that passes
    input validation, names the model [gpt-4.1-mini] with the temperature
    0.2, and has an input that begins with the prompt built from the
    validated input. *)
Theorem every_call_carries_the_prompt
        (host : Host) (Provider : Type)
        (create : Provider -> CreateParams -> CreateResult * Provider)
        (req : Request) (p : Provider) (c : CreateParams) (r : CreateResult) :
  In (c, r) (calls (snd (run host create req p))) ->
  model c = lit "gpt-4.1-mini" /\
  temperature c = QArith_base.Qmake 2 10 /\
  exists inp, passes_validation host req inp /\
              starts_with (build_prompt host inp) (input c) = true.
Proof.
  intros Hin.
  destruct (validation_cases host req) as [[inp Hvalid]|Hinvalid].
  - assert (Hfirst : starts_with (build_prompt host inp)
                       (input (first_call (build_prompt host inp))) = true)
      by apply starts_with_refl.
    assert (Hrepair : forall e, starts_with (build_prompt host inp)
                        (input (repair_call host (build_prompt host inp) e)) = true)
      by (intros e; apply starts_with_self).
    destruct (create p (first_call (build_prompt host inp))) as [[e|t1] p1] eqn:H1.
    + rewrite (run_first_rejects create Hvalid p H1) in Hin.
      destruct Hin as [Hin|[]]. injection Hin as <- _.
      split; [reflexivity|]. split; [reflexivity|].
      exists inp. split; [exact Hvalid|exact Hfirst].
    + destruct (check host t1) as [d|e1] eqn:Hc1.
      * rewrite (run_first_validated create Hvalid p H1 Hc1) in Hin.
        destruct Hin as [Hin|[]]. injection Hin as <- _.
        split; [reflexivity|]. split; [reflexivity|].
        exists inp. split; [exact Hvalid|exact Hfirst].
      * destruct (create p1 (repair_call host (build_prompt host inp) e1))
          as [r2 p2] eqn:H2.
        rewrite (run_second create Hvalid p H1 Hc1 H2) in Hin.
        destruct Hin as [Hin|[Hin|[]]]; injection Hin as <- _;
          (split; [reflexivity|]); (split; [reflexivity|]);
          exists inp; (split; [exact Hvalid|]);
          [exact Hfirst|exact (Hrepair e1)].
  - destruct (POST_invalid create {| provider := p; calls := [] |} Hinvalid)
      as (r' & Hpost & _).
    unfold run in Hin. rewrite Hpost in Hin. destruct Hin.
Qed.

Lemma every_call_carries_the_prompt_witness :
  model (repair_call Samples.sample_host Samples.sample_prompt
           (SyntaxError (lit "Unexpected token"))) = lit "gpt-4.1-mini" /\
  temperature (repair_call Samples.sample_host Samples.sample_prompt
                 (SyntaxError (lit "Unexpected token"))) = QArith_base.Qmake 2 10 /\
  exists inp,
    passes_validation Samples.sample_host Samples.sample_request inp /\
    starts_with (build_prompt Samples.sample_host inp)
      (input (repair_call Samples.sample_host Samples.sample_prompt
                (SyntaxError (lit "Unexpected token")))) = true.
Proof.
  apply (@every_call_carries_the_prompt Samples.sample_host _ Samples.scripted
           Samples.sample_request
           [Resolves (Some Samples.prose); Resolves (Some Samples.prose)]
           (repair_call Samples.sample_host Samples.sample_prompt
              (SyntaxError (lit "Unexpected token")))
           (Resolves (Some Samples.prose))).
  vm_compute. right. left. reflexivity.
Defined.

(* ------------------------------------------------------------------ *)
(** ** The prompt *)








(* ================================================================== *)
(** * Further properties of the schemas *)

Section SchemaMore.

Variable em : ZodIssueCode -> jsstring.

(** A parser never gives [undefined] for a value that is there. *)
Lemma parse_value_defined (t : ZodType) :
  forall path x r iss, _parse em t path (Some x) = (OK r, iss) -> r <> None.
Proof.
  induction t as [| | values | element _ | shape _ | inner IH | inner IH | inner d IH]
    using ZodType_nested_ind; intros path x r iss H.
  - cbn in H. destruct x; try discriminate H. injection H as <- _. discriminate.
  - cbn in H. destruct x; try discriminate H. injection H as <- _. discriminate.
  - cbn [_parse] in H. destruct x; try discriminate H.
    destruct (existsb (eqb s) values); [|discriminate H].
    injection H as <- _. discriminate.
  - destruct x as [| | | |items|]; try discriminate H.
    rewrite _parse_array in H. destruct (mergeArray _) as [[vs|] iss'];
      [|discriminate H]. injection H as <- _. discriminate.
  - destruct x as [| | | | |props]; try discriminate H.
    rewrite _parse_object in H. destruct (mergeObjectSync _) as [[out|] iss'];
      [|discriminate H]. injection H as <- _. discriminate.
  - cbn [_parse] in H. destruct x; try exact (IH _ _ _ _ H).
    injection H as <- _. discriminate.
  - cbn [_parse] in H. exact (IH _ _ _ _ H).
  - cbn [_parse] in H. exact (IH _ _ _ _ H).
Qed.

Lemma parse_always_defined (t : ZodType) :
  always_defined t = true ->
  forall path data r iss, _parse em t path data = (OK r, iss) -> r <> None.
Proof.
  induction t as [| | values | element _ | shape _ | inner IH | inner _ | inner d _]
    using ZodType_nested_ind; intros Hdef path data r iss H;
    try (destruct data as [x|]; [exact (parse_value_defined _ _ _ H)|];
         cbn in H; discriminate H).
  - destruct data as [x|]; [exact (parse_value_defined _ _ _ H)|].
    cbn [_parse] in H. exact (IH Hdef _ _ _ _ H).
  - discriminate Hdef.
  - cbn [_parse] in H. destruct data as [x|]; exact (parse_value_defined _ _ _ H).
Qed.

Lemma fields_present_cons (k : jsstring) (t : ZodType) (shape : list (jsstring * ZodType)) :
  fields_present (ZodObject ((k, t) :: shape))
  = negb (eqb k (lit "__proto__")) && always_defined t
    && fields_present t && fields_present (ZodObject shape).
Proof. reflexivity. Qed.

Lemma mergeArray_form (element : ZodType) (path : list PathSeg) :
  parses_to_form em element ->
  fields_present element = true ->
  forall items i vs iss,
    mergeArray
      (map (fun '(i, item) => _parse em element (path ++ [Index i]) (Some item))
           (indexed i items)) = (Some vs, iss) ->
    forallb (shaped element) vs = true.
Proof.
  intros IH Hreq. induction items as [|item items IHitems]; intros i vs iss H.
  - cbn in H. injection H as <- _. reflexivity.
  - cbn [indexed map mergeArray] in H.
    destruct (_parse em element (path ++ [Index i]) (Some item)) as [r i1] eqn:E.
    destruct (mergeArray _) as [rest i2] eqn:Erest.
    destruct r as [|r]; [discriminate H|].
    destruct r as [v|]; [|exfalso; exact (parse_value_defined _ _ _ E eq_refl)].
    destruct rest as [vs'|]; [|discriminate H].
    injection H as <- _. cbn [forallb]. rewrite (IH Hreq _ _ _ _ E).
    exact (IHitems _ _ _ Erest).
Qed.

Lemma mergeObjectSync_form (props : list (jsstring * json)) (path : list PathSeg)
      (shape : list (jsstring * ZodType)) :
  Forall (fun kt => parses_to_form em (snd kt)) shape ->
  fields_present (ZodObject shape) = true ->
  forall out iss,
    mergeObjectSync
      (map (fun '(key, keyValidator) =>
              (key, _parse em keyValidator (path ++ [Key key]) (lookup key props)))
           shape) = (Some out, iss) ->
    shaped (ZodObject shape) (JObj out) = true.
Proof.
  induction 1 as [|[k t] shape Ht _ IHshape]; intros Hreq out iss H.
  - cbn in H. injection H as <- _. reflexivity.
  - cbn [snd] in Ht. rewrite fields_present_cons in Hreq.
    apply andb_true_iff in Hreq. destruct Hreq as [Hreq Hrest].
    apply andb_true_iff in Hreq. destruct Hreq as [Hreq Hfields].
    apply andb_true_iff in Hreq. destruct Hreq as [Hproto Hdef].
    apply negb_true_iff in Hproto.
    cbn [map mergeObjectSync] in H.
    destruct (_parse em t (path ++ [Key k]) (lookup k props)) as [r i1] eqn:E.
    destruct (mergeObjectSync _) as [rest i2] eqn:Erest.
    destruct r as [|r]; [discriminate H|].
    destruct r as [v|]; [|exfalso; exact (parse_always_defined _ Hdef _ _ E eq_refl)].
    destruct rest as [out'|]; [|discriminate H].
    rewrite Hproto in H. injection H as <- _.
    rewrite shaped_cons, eqb_refl, (Ht Hfields _ _ _ _ E). cbn [andb].
    exact (IHshape Hrest _ _ eq_refl).
Qed.

(** What the parser of a schema whose fields are always present returns is
    a value of the form of the schema, also with [optional] and [default]
    in it. *)
Lemma parse_form (t : ZodType) : parses_to_form em t.
Proof.
  induction t as [| | values | element IH | shape IH | inner IH | inner IH | inner d IH]
    using ZodType_nested_ind; intros Hreq path data v iss H.
  - cbn in H. destruct data as [[]|]; try discriminate H.
    injection H as <- _. reflexivity.
  - cbn in H. destruct data as [[]|]; try discriminate H.
    injection H as <- _. reflexivity.
  - cbn [_parse] in H. destruct data as [[]|]; try discriminate H.
    destruct (existsb (eqb s) values) eqn:E; [|discriminate H].
    injection H as <- _. exact E.
  - destruct data as [[| | | |items|]|]; try discriminate H.
    rewrite _parse_array in H.
    destruct (mergeArray _) as [[vs|] iss'] eqn:E; [|discriminate H].
    injection H as <- _. cbn [shaped]. eapply mergeArray_form; eassumption.
  - destruct data as [[| | | | |props]|]; try discriminate H.
    rewrite _parse_object in H.
    destruct (mergeObjectSync _) as [[out|] iss'] eqn:E; [|discriminate H].
    injection H as <- _. eapply mergeObjectSync_form; eassumption.
  - cbn [fields_present] in Hreq. cbn [_parse] in H.
    destruct data as [[]|];
      try (pose proof (IH Hreq _ _ _ _ H) as Hv; cbn [shaped];
           destruct v; solve [reflexivity | exact Hv]).
    injection H as <- _. reflexivity.
  - cbn [fields_present] in Hreq. cbn [_parse] in H.
    destruct data as [x|]; [exact (IH Hreq _ _ _ _ H)|discriminate H].
  - cbn [fields_present] in Hreq. cbn [_parse] in H. exact (IH Hreq _ _ _ _ H).
Qed.

End SchemaMore.

(** ** The input schema: what it accepts and what it rejects *)

Lemma eqb_neq (a b : jsstring) : a <> b -> eqb a b = false.
Proof.
  intros H. destruct (eqb a b) eqn:E; [|reflexivity].
  exfalso. apply H. now apply eqb_eq.
Qed.

(** X19. Every body the input schema accepts gives an input with exactly
    the eleven fields, in the order of the schema: the six required ones,
    then [notes], [language], [sessionId], [vin] and [mileage], all
    strings but [dtcs], an array of strings, and [language] one of [en]
    and [es].  No field of a validated input is ever [undefined]. *)
Theorem validated_input_has_all_fields
        (em : ZodIssueCode -> jsstring) (b : json) (d : option json) :
  safeParse em DiagnosticInputSchema b = SafeParseSuccess d ->
  exists make model_ year engine dtcs symptom notes language sessionId vin mileage,
    d = Some
          (JObj [ (lit "make", JStr make);
                  (lit "model", JStr model_);
                  (lit "year", JStr year);
                  (lit "engine", JStr engine);
                  (lit "dtcs", JArr (map JStr dtcs));
                  (lit "symptom", JStr symptom);
                  (lit "notes", JStr notes);
                  (lit "language", JStr language);
                  (lit "sessionId", JStr sessionId);
                  (lit "vin", JStr vin);
                  (lit "mileage", JStr mileage) ]) /\
    (language = lit "en" \/ language = lit "es").
Proof.
  unfold safeParse.
  destruct (_parse em DiagnosticInputSchema [] (Some b)) as [[|r] iss] eqn:E;
    intros H; [discriminate H|]. injection H as <-.
  destruct r as [v|]; [|exfalso; exact (parse_value_defined _ _ _ _ E eq_refl)].
  pose proof (@parse_form em DiagnosticInputSchema eq_refl _ _ _ _ E) as H.
  unfold DiagnosticInputSchema in H.
  next_field H as make Hmake. next_field H as model_ Hmodel.
  next_field H as year Hyear. next_field H as engine Hengine.
  next_field H as dtcs Hdtcs. next_field H as symptom Hsymptom.
  next_field H as notes Hnotes. next_field H as language Hlanguage.
  next_field H as sessionId HsessionId. next_field H as vin Hvin.
  next_field H as mileage Hmileage. last_field H.
  cbn [shaped] in Hnotes, HsessionId, Hvin, Hmileage.
  apply shaped_string_inv in Hmake, Hmodel, Hyear, Hengine, Hsymptom,
    Hnotes, HsessionId, Hvin, Hmileage.
  destruct Hmake as [s1 ->]. destruct Hmodel as [s2 ->].
  destruct Hyear as [s3 ->]. destruct Hengine as [s4 ->].
  destruct Hsymptom as [s5 ->]. destruct Hnotes as [s6 ->].
  destruct HsessionId as [s7 ->]. destruct Hvin as [s8 ->].
  destruct Hmileage as [s9 ->].
  apply shaped_strings_inv in Hdtcs. destruct Hdtcs as [codes ->].
  destruct language as [| | |lang| |]; try discriminate Hlanguage.
  cbn [shaped existsb] in Hlanguage. rewrite orb_false_r in Hlanguage.
  exists s1, s2, s3, s4, codes, s5, s6, lang, s7, s8, s9.
  split; [reflexivity|].
  apply orb_true_iff in Hlanguage.
  destruct Hlanguage as [Hl|Hl]; apply eqb_eq in Hl; [now left|now right].
Qed.

Lemma validated_input_has_all_fields_witness :
  exists make model_ year engine dtcs symptom notes language sessionId vin mileage,
    Some Samples.sample_input
    = Some
        (JObj [ (lit "make", JStr make);
                (lit "model", JStr model_);
                (lit "year", JStr year);
                (lit "engine", JStr engine);
                (lit "dtcs", JArr (map JStr dtcs));
                (lit "symptom", JStr symptom);
                (lit "notes", JStr notes);
                (lit "language", JStr language);
                (lit "sessionId", JStr sessionId);
                (lit "vin", JStr vin);
                (lit "mileage", JStr mileage) ]) /\
    (language = lit "en" \/ language = lit "es").
Proof.
  apply (@validated_input_has_all_fields Samples.defaultErrorMap
           Samples.sample_body (Some Samples.sample_input)).
  reflexivity.
Defined.

(** One field that aborts makes the object abort, and its issues are
    among those reported. *)
Lemma mergeObjectSync_aborts
      (pairs : list (jsstring * (ParseReturn * list ZodIssue)))
      (k : jsstring) (bad : list ZodIssue) :
  In (k, (INVALID, bad)) pairs ->
  exists iss, mergeObjectSync pairs = (None, iss) /\ incl bad iss.
Proof.
  induction pairs as [|[k' [r i1]] pairs IH]; intros Hin; [destruct Hin|].
  cbn [mergeObjectSync]. destruct (mergeObjectSync pairs) as [rest i2].
  destruct Hin as [Hin|Hin].
  - injection Hin as -> -> ->. eexists. split; [reflexivity|].
    now apply incl_appl, incl_refl.
  - destruct (IH Hin) as (iss & E & Hincl). injection E as -> ->.
    eexists. split.
    + destruct r as [|[v|]]; reflexivity.
    + now apply incl_appr.
Qed.

Lemma object_field_aborts (em : ZodIssueCode -> jsstring)
      (shape : list (jsstring * ZodType)) (props : list (jsstring * json))
      (k : jsstring) (t : ZodType) (bad : list ZodIssue) :
  In (k, t) shape ->
  _parse em t [Key k] (lookup k props) = (INVALID, bad) ->
  exists issues,
    safeParse em (ZodObject shape) (JObj props) = SafeParseError issues /\
    incl bad issues.
Proof.
  intros Hin Hbad. unfold safeParse. rewrite _parse_object.
  destruct (@mergeObjectSync_aborts
              (map (fun '(key, keyValidator) =>
                      (key, _parse em keyValidator ([] ++ [Key key]) (lookup key props)))
                   shape) k bad) as (iss & E & Hincl).
  { apply in_map_iff. exists (k, t). split; [|exact Hin].
    cbn [app]. now rewrite Hbad. }
  rewrite E. now exists iss.
Qed.

(** X20. A body in which [make], [model], [year], [engine] or [symptom]
    is absent or is not a string is rejected, and the issue of that key,
    with what was received, is among the issues reported. *)
Theorem input_string_field_required
        (em : ZodIssueCode -> jsstring) (props : list (jsstring * json))
        (k : jsstring) :
  In k [lit "make"; lit "model"; lit "year"; lit "engine"; lit "symptom"] ->
  (forall s, lookup k props <> Some (JStr s)) ->
  exists issues,
    safeParse em DiagnosticInputSchema (JObj props) = SafeParseError issues /\
    In {| code := invalid_type (exp_type zpt_string) (getParsedType (lookup k props));
          path := [Key k];
          message := em (invalid_type (exp_type zpt_string)
                           (getParsedType (lookup k props))) |}
       issues.
Proof.
  intros Hk Hnot.
  assert (Hbad : _parse em ZodString [Key k] (lookup k props)
                 = (INVALID,
                    [ {| code := invalid_type (exp_type zpt_string)
                                   (getParsedType (lookup k props));
                         path := [Key k];
                         message := em (invalid_type (exp_type zpt_string)
                                          (getParsedType (lookup k props))) |} ])).
  { cbn [_parse]. destruct (lookup k props) as [[]|]; try reflexivity.
    now elim (Hnot s). }
  assert (Hin : In (k, ZodString)
                  [ (lit "make", ZodString); (lit "model", ZodString);
                    (lit "year", ZodString); (lit "engine", ZodString);
                    (lit "dtcs", ZodArray ZodString); (lit "symptom", ZodString);
                    (lit "notes", ZodDefault (ZodOptional ZodString) (JStr (lit "")));
                    (lit "language",
                      ZodDefault (ZodEnum [lit "en"; lit "es"]) (JStr (lit "en")));
                    (lit "sessionId", ZodDefault (ZodOptional ZodString) (JStr (lit "")));
                    (lit "vin", ZodDefault (ZodOptional ZodString) (JStr (lit "")));
                    (lit "mileage", ZodDefault (ZodOptional ZodString) (JStr (lit ""))) ]).
  { destruct Hk as [<-|[<-|[<-|[<-|[<-|[]]]]]]; cbn [In]; tauto. }
  destruct (object_field_aborts em _ props _ _ Hin Hbad) as (issues & E & Hincl).
  exists issues. split; [exact E|]. apply Hincl. now left.
Qed.

Lemma input_string_field_required_witness :
  exists issues,
    safeParse Samples.defaultErrorMap DiagnosticInputSchema
      (JObj [ (lit "make", JStr (lit "Honda")); (lit "year", JNum (lit "2015")) ])
    = SafeParseError issues /\
    In {| code := invalid_type (exp_type zpt_string) zpt_number;
          path := [Key (lit "year")];
          message := lit "Expected string, received number" |}
       issues.
Proof.
  apply (@input_string_field_required Samples.defaultErrorMap
           [ (lit "make", JStr (lit "Honda")); (lit "year", JNum (lit "2015")) ]
           (lit "year")).
  - cbn [In]. tauto.
  - intros s. vm_compute. discriminate.
Defined.

Lemma mergeArray_aborts (results : list (ParseReturn * list ZodIssue))
      (bad : list ZodIssue) :
  In (INVALID, bad) results ->
  exists iss, mergeArray results = (None, iss) /\ incl bad iss.
Proof.
  induction results as [|[r i1] results IH]; intros Hin; [destruct Hin|].
  cbn [mergeArray]. destruct (mergeArray results) as [rest i2].
  destruct Hin as [Hin|Hin].
  - injection Hin as -> ->. eexists. split; [reflexivity|].
    now apply incl_appl, incl_refl.
  - destruct (IH Hin) as (iss & E & Hincl). injection E as -> ->.
    eexists. split.
    + destruct r as [|[v|]]; reflexivity.
    + now apply incl_appr.
Qed.

Lemma indexed_nth (items : list json) (i0 i : nat) (v : json) :
  nth_error items i = Some v -> In ((i0 + i)%nat, v) (indexed i0 items).
Proof.
  revert i0 i. induction items as [|x items IH]; intros i0 i H.
  - destruct i; discriminate H.
  - destruct i as [|i].
    + injection H as ->. left. f_equal. lia.
    + right. cbn [nth_error] in H.
      replace (i0 + S i)%nat with (S i0 + i)%nat by lia. now apply IH.
Qed.

(** X21. A body in which [dtcs] is absent or is not an array is rejected,
    with the issue of that key among the issues; and a body in which an
    element of [dtcs] is not a string is rejected, with an issue whose
    path is [dtcs] and the position of that element. *)
Theorem input_dtcs_must_be_strings
        (em : ZodIssueCode -> jsstring) (props : list (jsstring * json)) :
  ((forall items, lookup (lit "dtcs") props <> Some (JArr items)) ->
   exists issues,
     safeParse em DiagnosticInputSchema (JObj props) = SafeParseError issues /\
     In {| code := invalid_type (exp_type zpt_array)
                     (getParsedType (lookup (lit "dtcs") props));
           path := [Key (lit "dtcs")];
           message := em (invalid_type (exp_type zpt_array)
                            (getParsedType (lookup (lit "dtcs") props))) |}
        issues) /\
  (forall items i v,
     lookup (lit "dtcs") props = Some (JArr items) ->
     nth_error items i = Some v ->
     (forall s, v <> JStr s) ->
     exists issues,
       safeParse em DiagnosticInputSchema (JObj props) = SafeParseError issues /\
       In {| code := invalid_type (exp_type zpt_string) (getParsedType (Some v));
             path := [Key (lit "dtcs"); Index i];
             message := em (invalid_type (exp_type zpt_string)
                              (getParsedType (Some v))) |}
          issues).
Proof.
  assert (Hin : In (lit "dtcs", ZodArray ZodString)
                  [ (lit "make", ZodString); (lit "model", ZodString);
                    (lit "year", ZodString); (lit "engine", ZodString);
                    (lit "dtcs", ZodArray ZodString); (lit "symptom", ZodString);
                    (lit "notes", ZodDefault (ZodOptional ZodString) (JStr (lit "")));
                    (lit "language",
                      ZodDefault (ZodEnum [lit "en"; lit "es"]) (JStr (lit "en")));
                    (lit "sessionId", ZodDefault (ZodOptional ZodString) (JStr (lit "")));
                    (lit "vin", ZodDefault (ZodOptional ZodString) (JStr (lit "")));
                    (lit "mileage", ZodDefault (ZodOptional ZodString) (JStr (lit ""))) ])
    by (cbn [In]; tauto).
  split.
  - intros Hnot.
    assert (Hbad : _parse em (ZodArray ZodString) [Key (lit "dtcs")]
                     (lookup (lit "dtcs") props)
                   = (INVALID,
                      [ {| code := invalid_type (exp_type zpt_array)
                                     (getParsedType (lookup (lit "dtcs") props));
                           path := [Key (lit "dtcs")];
                           message := em (invalid_type (exp_type zpt_array)
                                            (getParsedType (lookup (lit "dtcs") props))) |} ])).
    { destruct (lookup (lit "dtcs") props) as [[]|]; try reflexivity.
      now elim (Hnot items). }
    destruct (object_field_aborts em _ props _ _ Hin Hbad) as (issues & E & Hincl).
    exists issues. split; [exact E|]. apply Hincl. now left.
  - intros items i v Hdtcs Hnth Hnot.
    destruct (@mergeArray_aborts
                (map (fun '(i, item) =>
                        _parse em ZodString ([Key (lit "dtcs")] ++ [Index i]) (Some item))
                     (indexed 0 items))
                [ {| code := invalid_type (exp_type zpt_string) (getParsedType (Some v));
                     path := [Key (lit "dtcs"); Index i];
                     message := em (invalid_type (exp_type zpt_string)
                                      (getParsedType (Some v))) |} ])
      as (bad & Ebad & Hbadincl).
    { apply in_map_iff. exists (i, v). split; [|exact (indexed_nth items 0 i Hnth)].
      cbn [_parse app]. destruct v; try reflexivity. now elim (Hnot s). }
    assert (Hbad : _parse em (ZodArray ZodString) [Key (lit "dtcs")]
                     (lookup (lit "dtcs") props) = (INVALID, bad)).
    { rewrite Hdtcs, _parse_array. now rewrite Ebad. }
    destruct (object_field_aborts em _ props _ _ Hin Hbad) as (issues & E & Hincl).
    exists issues. split; [exact E|]. apply Hincl, Hbadincl. now left.
Qed.

(** X22. A body whose [language] is a string other than [en] and [es] is
    rejected, with the issue of an invalid enum value at [language]. *)
Theorem input_language_must_be_en_or_es
        (em : ZodIssueCode -> jsstring) (props : list (jsstring * json))
        (s : jsstring) :
  lookup (lit "language") props = Some (JStr s) ->
  s <> lit "en" -> s <> lit "es" ->
  exists issues,
    safeParse em DiagnosticInputSchema (JObj props) = SafeParseError issues /\
    In {| code := invalid_enum_value [lit "en"; lit "es"] s;
          path := [Key (lit "language")];
          message := em (invalid_enum_value [lit "en"; lit "es"] s) |}
       issues.
Proof.
  intros Hlang Hen Hes.
  assert (Hin : In (lit "language",
                    ZodDefault (ZodEnum [lit "en"; lit "es"]) (JStr (lit "en")))
                  [ (lit "make", ZodString); (lit "model", ZodString);
                    (lit "year", ZodString); (lit "engine", ZodString);
                    (lit "dtcs", ZodArray ZodString); (lit "symptom", ZodString);
                    (lit "notes", ZodDefault (ZodOptional ZodString) (JStr (lit "")));
                    (lit "language",
                      ZodDefault (ZodEnum [lit "en"; lit "es"]) (JStr (lit "en")));
                    (lit "sessionId", ZodDefault (ZodOptional ZodString) (JStr (lit "")));
                    (lit "vin", ZodDefault (ZodOptional ZodString) (JStr (lit "")));
                    (lit "mileage", ZodDefault (ZodOptional ZodString) (JStr (lit ""))) ])
    by (cbn [In]; tauto).
  assert (Hbad : _parse em (ZodDefault (ZodEnum [lit "en"; lit "es"]) (JStr (lit "en")))
                   [Key (lit "language")] (lookup (lit "language") props)
                 = (INVALID,
                    [ {| code := invalid_enum_value [lit "en"; lit "es"] s;
                         path := [Key (lit "language")];
                         message := em (invalid_enum_value [lit "en"; lit "es"] s) |} ])).
  { rewrite Hlang. cbn [_parse existsb].
    now rewrite (eqb_neq Hen), (eqb_neq Hes). }
  destruct (object_field_aborts em _ props _ _ Hin Hbad) as (issues & E & Hincl).
  exists issues. split; [exact E|]. apply Hincl. now left.
Qed.

Lemma input_language_must_be_en_or_es_witness :
  exists issues,
    safeParse Samples.defaultErrorMap DiagnosticInputSchema
      (JObj [ (lit "make", JStr (lit "Honda")); (lit "language", JStr (lit "fr")) ])
    = SafeParseError issues /\
    In {| code := invalid_enum_value [lit "en"; lit "es"] (lit "fr");
          path := [Key (lit "language")];
          message := lit "Invalid enum value. Expected 'en' | 'es', received 'fr'" |}
       issues.
Proof.
  apply (@input_language_must_be_en_or_es Samples.defaultErrorMap
           [ (lit "make", JStr (lit "Honda")); (lit "language", JStr (lit "fr")) ]
           (lit "fr")).
  - reflexivity.
  - vm_compute. discriminate.
  - vm_compute. discriminate.
Defined.

(** ** The output schema *)

(** X23. A JSON value that is not an object fails the output schema with
    one issue, at the root, and the detail of that failure reads
    [(root): ] and the message. *)
Theorem plan_must_be_an_object (host : Host) (parsed : json) :
  (forall props, parsed <> JObj props) ->
  safeParse (errorMap host) DiagnosticPlanSchema parsed
  = SafeParseError
      [ {| code := invalid_type (exp_type zpt_object) (getParsedType (Some parsed));
           path := [];
           message := errorMap host (invalid_type (exp_type zpt_object)
                                       (getParsedType (Some parsed))) |} ] /\
  zodErrToShortString host
    (Some (ZodError
             [ {| code := invalid_type (exp_type zpt_object)
                            (getParsedType (Some parsed));
                  path := [];
                  message := errorMap host (invalid_type (exp_type zpt_object)
                                              (getParsedType (Some parsed))) |} ]))
  = lit "(root): "
    ++ errorMap host (invalid_type (exp_type zpt_object) (getParsedType (Some parsed))).
Proof.
  intros Hnot. split; [|reflexivity].
  destruct parsed; try reflexivity. now elim (Hnot props).
Qed.

Lemma plan_must_be_an_object_witness :
  zodErrToShortString Samples.sample_host
    (Some (ZodError
             [ {| code := invalid_type (exp_type zpt_object) zpt_array;
                  path := [];
                  message := lit "Expected object, received array" |} ]))
  = lit "(root): " ++ lit "Expected object, received array".
Proof.
  apply (@plan_must_be_an_object Samples.sample_host (JArr [])).
  intros props. discriminate.
Defined.

Lemma parse_object_agree (em : ZodIssueCode -> jsstring)
      (shape : list (jsstring * ZodType)) (path : list PathSeg)
      (props1 props2 : list (jsstring * json)) :
  (forall k, In k (map fst shape) -> lookup k props1 = lookup k props2) ->
  _parse em (ZodObject shape) path (Some (JObj props1))
  = _parse em (ZodObject shape) path (Some (JObj props2)).
Proof.
  intros H. rewrite !_parse_object.
  assert (E : map (fun '(key, keyValidator) =>
                     (key, _parse em keyValidator (path ++ [Key key]) (lookup key props1)))
                  shape
              = map (fun '(key, keyValidator) =>
                       (key, _parse em keyValidator (path ++ [Key key]) (lookup key props2)))
                    shape).
  { apply map_ext_in. intros [k t] Hin.
    rewrite (H k); [reflexivity|]. apply in_map_iff. now exists (k, t). }
  now rewrite E.
Qed.

(** X24. The outcome of the output schema on an object depends only on
    what the object holds under the eleven declared keys: two objects that
    agree there validate alike, with the same data or the same issues. *)
Theorem plan_validation_reads_declared_keys
        (em : ZodIssueCode -> jsstring) (props1 props2 : list (jsstring * json)) :
  (forall k, In k plan_keys -> lookup k props1 = lookup k props2) ->
  safeParse em DiagnosticPlanSchema (JObj props1)
  = safeParse em DiagnosticPlanSchema (JObj props2).
Proof.
  intros H. unfold safeParse, DiagnosticPlanSchema.
  match goal with
  | |- context [_parse em (ZodObject ?shape) [] (Some (JObj props1))] =>
      rewrite (@parse_object_agree em shape [] props1 props2 H)
  end.
  reflexivity.
Qed.

Lemma plan_validation_reads_declared_keys_witness :
  safeParse Samples.defaultErrorMap DiagnosticPlanSchema
    (JObj ((lit "debug", JBool true) :: Samples.plan_front
           ++ [ (lit "note", JNull); (lit "steps", JArr []);
                (lit "firstStepId", JStr (lit "start"));
                (lit "sessionId", JStr (lit "")) ]))
  = safeParse Samples.defaultErrorMap DiagnosticPlanSchema
      (JObj (Samples.plan_front
             ++ [ (lit "steps", JArr []);
                  (lit "firstStepId", JStr (lit "start"));
                  (lit "sessionId", JStr (lit "")) ])).
Proof.
  apply (@plan_validation_reads_declared_keys Samples.defaultErrorMap).
  intros k Hk. unfold plan_keys in Hk. cbn [In] in Hk.
  repeat (destruct Hk as [<-|Hk]; [reflexivity|]). destruct Hk.
Defined.

Lemma input_dtcs_must_be_strings_witness :
  exists issues,
    safeParse Samples.defaultErrorMap DiagnosticInputSchema
      (JObj [ (lit "dtcs", JArr [JStr (lit "P0420"); JNum (lit "171")]) ])
    = SafeParseError issues /\
    In {| code := invalid_type (exp_type zpt_string) zpt_number;
          path := [Key (lit "dtcs"); Index 1];
          message := lit "Expected string, received number" |}
       issues.
Proof.
  apply (proj2 (@input_dtcs_must_be_strings Samples.defaultErrorMap
                  [ (lit "dtcs", JArr [JStr (lit "P0420"); JNum (lit "171")]) ])
               [JStr (lit "P0420"); JNum (lit "171")] 1%nat (JNum (lit "171"))).
  - reflexivity.
  - reflexivity.
  - intros s. discriminate.
Defined.

Lemma shaped_link (v : json) :
  shaped (ZodNullable ZodString) v = true -> step_link (Some v).
Proof.
  destruct v; intros H; try discriminate H.
  - now left.
  - right. now eexists.
Qed.

(** A value of the form of the plan schema can be walked from its first
    step id along the links of its steps. *)
Lemma shaped_plan_links (plan : json) :
  shaped DiagnosticPlanSchema plan = true ->
  (get (lit "language") plan = Some (JStr (lit "en")) \/
   get (lit "language") plan = Some (JStr (lit "es"))) /\
  (exists id, get (lit "firstStepId") plan = Some (JStr id)) /\
  array_of step_links (get (lit "steps") plan).
Proof.
  intros H. unfold DiagnosticPlanSchema in H.
  next_field H as version Hversion. next_field H as language Hlanguage.
  next_field H as vehicle Hvehicle. next_field H as concern Hconcern.
  next_field H as overview Hoverview. next_field H as disclaimers Hdisclaimers.
  next_field H as safetyNotes HsafetyNotes. next_field H as specs Hspecs.
  next_field H as steps Hsteps. next_field H as firstStepId HfirstStepId.
  next_field H as sessionId HsessionId. last_field H.
  split; [|split].
  - destruct language as [| | |lang| |]; try discriminate Hlanguage.
    cbn [shaped existsb] in Hlanguage. rewrite orb_false_r in Hlanguage.
    apply orb_true_iff in Hlanguage.
    destruct Hlanguage as [Hl|Hl]; apply eqb_eq in Hl; subst lang;
      [left|right]; reflexivity.
  - apply shaped_string_inv in HfirstStepId. destruct HfirstStepId as [id ->].
    now exists id.
  - eapply shaped_array_of; [|exact Hsteps].
    intros step Hstep.
    next_field Hstep as id Hid. next_field Hstep as title Htitle.
    next_field Hstep as purpose Hpurpose. next_field Hstep as procedure Hprocedure.
    next_field Hstep as hints Hhints. next_field Hstep as pass Hpass.
    next_field Hstep as fail Hfail. next_field Hstep as onPass HonPass.
    next_field Hstep as onFail HonFail. last_field Hstep.
    apply shaped_string_inv in Hid. destruct Hid as [s ->].
    split; [now exists s|].
    split; [exact (shaped_link _ HonPass)|exact (shaped_link _ HonFail)].
Qed.

(** X25. In every success response the plan has [language] equal to [en]
    or to [es], a string as [firstStepId], and steps that each have a
    string [id] and, as [nextOnPass] and as [nextOnFail], a string or
    [null]. *)
Theorem success_plan_can_be_walked
        (host : Host) (Provider : Type)
        (create : Provider -> CreateParams -> CreateResult * Provider)
        (req : Request) (p : Provider) (r : NextResponse) (w : World Provider) :
  run host create req p = (Value r, w) ->
  get (lit "ok") (body r) = Some (JBool true) ->
  exists plan,
    get (lit "plan") (body r) = Some plan /\
    (get (lit "language") plan = Some (JStr (lit "en")) \/
     get (lit "language") plan = Some (JStr (lit "es"))) /\
    (exists id, get (lit "firstStepId") plan = Some (JStr id)) /\
    array_of step_links (get (lit "steps") plan).
Proof.
  intros Hrun Hok.
  destruct (@run_success_inv host Provider create req p r w Hrun Hok)
    as (earlier & params & t & d & _ & Hc & ->).
  destruct (check_validated_inv _ _ Hc) as (parsed & plan & -> & _ & _ & Hshape).
  exists plan. split; [reflexivity|].
  exact (shaped_plan_links _ Hshape).
Qed.

Lemma success_plan_can_be_walked_witness :
  exists plan,
    get (lit "plan")
        (body {| body := JObj [ (lit "ok", JBool true);
                                (lit "plan", Samples.plan_one_step) ];
                 status := 200 |}) = Some plan /\
    (get (lit "language") plan = Some (JStr (lit "en")) \/
     get (lit "language") plan = Some (JStr (lit "es"))) /\
    (exists id, get (lit "firstStepId") plan = Some (JStr id)) /\
    array_of step_links (get (lit "steps") plan).
Proof.
  apply (@success_plan_can_be_walked Samples.sample_host _ Samples.scripted
           Samples.sample_request
           [Resolves (Some Samples.prose);
            Resolves (Some (Samples.fenced Samples.plan_one_step))]
           _
           {| provider := [];
              calls :=
                [ (first_call Samples.sample_prompt, Resolves (Some Samples.prose));
                  (repair_call Samples.sample_host Samples.sample_prompt
                     (SyntaxError (lit "Unexpected token")),
                   Resolves (Some (Samples.fenced Samples.plan_one_step))) ] |}).
  - vm_compute. reflexivity.
  - reflexivity.
Defined.
